(** * Defence radar dashboard (radar.js): a shallow embedding

  The script keeps a handful of module-level variables (the target list,
  the log area, the canvas, the marker layer) and a few functions that
  mutate them.  Here the variables become the fields of a [world] record
  and every function becomes a function on worlds.

  JavaScript Numbers are IEEE-754 binary64 values.  Quantities derived
  from [Math.random()] are modelled with the Standard Library's
  [spec_float] and its correctly rounded operations; quantities that are
  integers by construction (loop counter, ids, lengths, the sweep angle)
  are modelled as [Z]. *)

From Stdlib Require Import ZArith List String Ascii Bool Lia QArith Relations FinFun.
From Stdlib Require Import DecimalString DecimalPos DecimalN.
From Stdlib Require Import SpecFloat.
Import ListNotations.
Close Scope Q_scope.
Open Scope Z_scope.

(** ** JavaScript Numbers *)

Module JSNumber.

(** binary64: 53 bits of precision, infinities at exponent 1024. *)
Definition prec : Z := 53.
Definition emax : Z := 1024.

Definition number := spec_float.

Definition mul : number -> number -> number := SFmul prec emax.
Definition add : number -> number -> number := SFadd prec emax.
Definition div : number -> number -> number := SFdiv prec emax.
Definition ltb : number -> number -> bool := SFltb.
Definition valid : number -> bool := valid_binary prec emax.

(** An integer literal, or an integer-valued variable read as a Number
    (exact below 2^53). *)
Definition of_Z (z : Z) : number := binary_normalize prec emax z 0 false.

(** [Math.floor]: zeros, infinities and NaN are returned as they are;
    a finite value with a non-negative exponent is already an integer;
    otherwise the mantissa is shifted right, which rounds towards minus
    infinity on [Z]. *)
Definition Math_floor (x : number) : number :=
  match x with
  | S754_finite s m e =>
      if 0 <=? e then x
      else binary_normalize prec emax
             (Z.shiftr (cond_Zopp s (Zpos m)) (- e)) 0 s
  | _ => x
  end.

(** The integer a Number denotes when it is used as an array index:
    [None] when it is not a non-negative integer. *)
Definition to_index (x : number) : option nat :=
  match x with
  | S754_zero _ => Some O
  | S754_finite false m e =>
      if 0 <=? e then Some (Z.to_nat (Z.shiftl (Zpos m) e))
      else if Z.land (Zpos m) (Z.ones (- e)) =? 0
           then Some (Z.to_nat (Z.shiftr (Zpos m) (- e)))
           else None
  | _ => None
  end.

Definition is_nan (x : number) : bool :=
  match x with S754_nan => true | _ => false end.

(** [Math.max] of two Numbers: NaN is contagious, +0 is larger than -0. *)
Definition max2 (x y : number) : number :=
  if is_nan x || is_nan y then S754_nan
  else match SFcompare x y with
       | Some Lt => y
       | Some Gt => x
       | _ => match x with S754_zero true => y | _ => x end
       end.

Definition min2 (x y : number) : number :=
  if is_nan x || is_nan y then S754_nan
  else match SFcompare x y with
       | Some Lt => x
       | Some Gt => y
       | _ => match x with S754_zero false => y | _ => x end
       end.

(** [Math.max(...xs)] starts from -Infinity, [Math.min(...xs)] from
    +Infinity. *)
Definition Math_max (xs : list number) : number :=
  fold_left max2 xs (S754_infinity true).

Definition Math_min (xs : list number) : number :=
  fold_left min2 xs (S754_infinity false).

(** Ten times a non-negative finite value, rounded to the nearest
    integer, ties upwards: the integer [n] of [Number.prototype.toFixed]
    for one fraction digit. *)
Definition tenths (m : positive) (e : Z) : Z :=
  if 0 <=? e then 10 * Zpos m * 2 ^ e
  else (20 * Zpos m + 2 ^ (- e)) / 2 ^ (1 - e).

(** 10^21 <= m * 2^e, the values for which [toFixed] falls back to
    exponent notation. *)
Definition huge (m : positive) (e : Z) : bool :=
  if 0 <=? e then 10 ^ 21 <=? Zpos m * 2 ^ e
  else 10 ^ 21 * 2 ^ (- e) <=? Zpos m.

(** A value [Math.random()] may return: a valid binary64 with positive
sign, greater than or equal to 0 and less than 1 (m * 2^e < 1). *)
Definition is_unit (x : number) : bool :=
  match x with
  | S754_zero false => true
  | S754_finite false m e =>
      bounded prec emax m e && (e <? 0) && (Zpos m <? 2 ^ (- e))
  | _ => false
  end.

Record unit_double : Type := {
  ud_value : number;
  ud_ok : is_unit ud_value = true
}.

(** Every finite binary64 is an integer multiple of 2^-1074, and every
exact product of two of them a multiple of 2^-2148; values are compared
through their integer multiples of 2^-2200. *)
Definition scale : Z := 2200.
Definition scaled (m e : Z) : Z := m * 2 ^ (e + scale).

Definition sval (x : number) : Z :=
  match x with
  | S754_finite false m e => scaled (Zpos m) e
  | S754_finite true m e => - scaled (Zpos m) e
  | _ => 0
  end.

(** Zero with positive sign, or a positive finite value. *)
Definition nonneg (x : number) : bool :=
  match x with
  | S754_zero false => true
  | S754_finite false _ e => -1074 <=? e
  | _ => false
  end.

(** Position of a non-negative canonical value in the order of the
format: larger exponent first, then larger mantissa. *)
Definition rank (x : number) : Z :=
  match x with
  | S754_finite false m e => (e + 1075) * 2 ^ 53 + Zpos m
  | _ => 0
  end.

Definition ranked (x : number) : bool :=
  match x with
  | S754_zero false => true
  | S754_finite false m e => (-1074 <=? e) && (Zpos m <? 2 ^ 53)
  | _ => false
  end.

(** The state of the right shift that precedes rounding, after [k]
steps on the mantissa [M]: the kept bits, the last bit shifted out and
whether anything below it was non-zero. *)
Definition shr_inv (M k : Z) (mrs : shr_record) : Prop :=
  exists T, 2 * M = 2 ^ k * (2 * shr_m mrs + Z.b2z (shr_r mrs)) + T
            /\ 0 <= T < 2 ^ k
            /\ (shr_s mrs = true <-> 0 < T)
            /\ 0 <= shr_m mrs.

(** [x] is the non-negative value N * 2^e'. *)
Definition repr (x : number) (N e' : Z) : Prop :=
  match x with
  | S754_zero false => N = 0
  | S754_finite false m e => e' <= e /\ Zpos m * 2 ^ (e - e') = N
  | _ => False
  end.

End JSNumber.

(** ** JavaScript strings *)

Module JSString.

Local Open Scope string_scope.

(** Decimal digits of a non-negative integer, as [ToString] prints an
    integer-valued Number below 10^21. *)
Definition of_N (n : N) : string := NilZero.string_of_uint (N.to_uint n).

Definition of_Z (z : Z) : string :=
  if (z <? 0)%Z then "-" ++ of_N (Z.to_N (- z)) else of_N (Z.to_N z).

Definition of_nat (n : nat) : string := of_N (N.of_nat n).

(** [String.prototype.toLowerCase] on the basic Latin letters.  Strings
    are byte strings here; bytes outside [A-Z] are left as they are. *)
Definition lower_char (c : ascii) : ascii :=
  let n := N_of_ascii c in
  if ((65 <=? n) && (n <=? 90))%N then ascii_of_N (n + 32) else c.

Fixpoint toLowerCase (s : string) : string :=
  match s with
  | EmptyString => EmptyString
  | String c s' => String (lower_char c) (toLowerCase s')
  end.

Definition newline : string := String (ascii_of_nat 10) EmptyString.

(** The digits of [n] with a dot before the last one: n = 1234 prints
as 123.4 and n = 5 as 0.5. *)
Definition fixed1 (n : Z) : string :=
  of_Z (n / 10) ++ "." ++ of_Z (n mod 10).

(** [Number.prototype.toFixed(1)].  [None] stands for the one case left
    out of the model: a finite value of magnitude 10^21 or more, which
    JavaScript prints in exponent notation. *)
Definition toFixed1 (x : JSNumber.number) : option string :=
  match x with
  | S754_nan => Some "NaN"
  | S754_infinity false => Some "Infinity"
  | S754_infinity true => Some "-Infinity"
  | S754_zero _ => Some "0.0"
  | S754_finite s m e =>
      if JSNumber.huge m e then None
      else
        Some ((if s then "-" else "") ++ fixed1 (JSNumber.tenths m e))
  end.

(** Reading a decimal literal back (the fragment of [StringToNumber]
that the stored values need): digits, optionally followed by a dot and
more digits. *)
Definition is_digit (c : ascii) : bool :=
  let n := N_of_ascii c in ((48 <=? n) && (n <=? 57))%N.

Fixpoint all_digits (s : string) : bool :=
  match s with
  | EmptyString => true
  | String c s' => is_digit c && all_digits s'
  end.

Fixpoint split_dot (s : string) : string * option string :=
  match s with
  | EmptyString => (EmptyString, None)
  | String c s' =>
      if Ascii.eqb c "." then (EmptyString, Some s')
      else let '(a, b) := split_dot s' in (String c a, b)
  end.

Definition digits_value (s : string) : option N :=
  option_map N.of_uint (NilZero.uint_of_string s).

(** [parse_decimal s = Some (n, k)]: [s] denotes n / 10^k. *)
Definition parse_decimal (s : string) : option (N * nat) :=
  match split_dot s with
  | (ip, None) => option_map (fun n => (n, O)) (digits_value ip)
  | (ip, Some fp) =>
      match digits_value ip, digits_value fp with
      | Some a, Some b =>
          Some ((a * 10 ^ N.of_nat (String.length fp) + b)%N, String.length fp)
      | _, _ => None
      end
  end.

Definition decimal_value (s : string) : option Q :=
  option_map (fun '(n, k) => Qmake (Z.of_N n) (Z.to_pos (10 ^ Z.of_nat k)))
             (parse_decimal s).

(** [ToNumber] of a string, on plain decimal literals of at most 15
digits, where numerator and power of ten are exact and one correctly
rounded division gives the nearest binary64.  [None]: a string outside
this fragment (sign, exponent, white space, hexadecimal, more digits). *)
Definition ToNumber (s : string) : option JSNumber.number :=
  match parse_decimal s with
  | Some (n, k) =>
      if (String.length s <=? 16)%nat
      then Some (JSNumber.div (JSNumber.of_Z (Z.of_N n))
                              (JSNumber.of_Z (10 ^ Z.of_nat k)))
      else None
  | None => None
  end.

(** Exactly one digit after the dot, at least one before. *)
Definition is_fixed1 (s : string) : bool :=
  match split_dot s with
  | (String c ip, Some (String d EmptyString)) =>
      all_digits (String c ip) && is_digit d
  | _ => false
  end.

(** The lines of a text, each ended by a line feed (a last line may lack
it). *)
Fixpoint split_lines (s : string) : list string :=
  match s with
  | EmptyString => []
  | String c s' =>
      if Ascii.eqb c (ascii_of_nat 10) then EmptyString :: split_lines s'
      else match split_lines s' with
           | [] => [String c EmptyString]
           | l :: ls => String c l :: ls
           end
  end.

Fixpoint no_newline (s : string) : bool :=
  match s with
  | EmptyString => true
  | String c s' => negb (Ascii.eqb c (ascii_of_nat 10)) && no_newline s'
  end.

End JSString.


(** ** The page *)

Module Radar.

Import JSNumber JSString.
Local Open Scope string_scope.

(** One detected object.  [distance] and [velocity] hold what
[toFixed(1)] returned: strings. *)
Record target : Type := {
  id : Z;
  distance : string;
  velocity : string;
  lat : number;
  lng : number
}.

(** A Leaflet marker with its popup text. *)
Record marker : Type := {
  m_lat : number;
  m_lng : number;
  popup : string
}.

(** A template literal: text with Numbers in its holes.  Integers and
strings in holes are spliced into the text; a Number that is not an
integer by construction is kept as it is. *)
Inductive piece : Type :=
  | Text (s : string)
  | Num (x : number).

Definition message := list piece.

(** One line of the log area; [stamp] counts the readings of the wall
clock, standing for the local time string. *)
Record entry : Type := {
  stamp : nat;
  msg : message
}.

(** What the sweep callback and [clearLogs] ask of the 2d context. *)
Inductive draw : Type :=
  | FillBlack
  | StrokeCircle (cx cy radius : Z)
  | StrokeRay (cx cy : Z) (degrees : Z) (length : Z)
  | ClearRect.

(** A running [setInterval] with the [angle] its closure holds. *)
Record timer : Type := {
  timer_id : nat;
  angle : Z
}.

Record status : Type := {
  activeTargets : string;
  wind : string;
  weather : string;
  cpuLoad : string;
  temperature : string
}.

Record download : Type := {
  filename : string;
  mime : string;
  content : string
}.

(** The module-level variables and the parts of the page the script
talks to, from [window.onload] on.  [entropy] is the sequence of values
[Math.random()] will return and [drawn] how many were consumed. *)
Record world : Type := {
  targets : list target;
  logArea : list entry;
  markerLayer : list marker;
  targetTable : string;
  canvas : list draw;
  timers : list timer;
  next_timer : nat;
  panel : status;
  commandInput : string;
  downloads : list download;
  alerts : list string;
  entropy : nat -> unit_double;
  drawn : nat;
  clock : nat
}.

Definition set_targets (v : list target) (w : world) : world :=
  {| targets := v;
     logArea := logArea w;
     markerLayer := markerLayer w;
     targetTable := targetTable w;
     canvas := canvas w;
     timers := timers w;
     next_timer := next_timer w;
     panel := panel w;
     commandInput := commandInput w;
     downloads := downloads w;
     alerts := alerts w;
     entropy := entropy w;
     drawn := drawn w;
     clock := clock w |}.

Definition set_logArea (v : list entry) (w : world) : world :=
  {| targets := targets w;
     logArea := v;
     markerLayer := markerLayer w;
     targetTable := targetTable w;
     canvas := canvas w;
     timers := timers w;
     next_timer := next_timer w;
     panel := panel w;
     commandInput := commandInput w;
     downloads := downloads w;
     alerts := alerts w;
     entropy := entropy w;
     drawn := drawn w;
     clock := clock w |}.

Definition set_markerLayer (v : list marker) (w : world) : world :=
  {| targets := targets w;
     logArea := logArea w;
     markerLayer := v;
     targetTable := targetTable w;
     canvas := canvas w;
     timers := timers w;
     next_timer := next_timer w;
     panel := panel w;
     commandInput := commandInput w;
     downloads := downloads w;
     alerts := alerts w;
     entropy := entropy w;
     drawn := drawn w;
     clock := clock w |}.

Definition set_targetTable (v : string) (w : world) : world :=
  {| targets := targets w;
     logArea := logArea w;
     markerLayer := markerLayer w;
     targetTable := v;
     canvas := canvas w;
     timers := timers w;
     next_timer := next_timer w;
     panel := panel w;
     commandInput := commandInput w;
     downloads := downloads w;
     alerts := alerts w;
     entropy := entropy w;
     drawn := drawn w;
     clock := clock w |}.

Definition set_canvas (v : list draw) (w : world) : world :=
  {| targets := targets w;
     logArea := logArea w;
     markerLayer := markerLayer w;
     targetTable := targetTable w;
     canvas := v;
     timers := timers w;
     next_timer := next_timer w;
     panel := panel w;
     commandInput := commandInput w;
     downloads := downloads w;
     alerts := alerts w;
     entropy := entropy w;
     drawn := drawn w;
     clock := clock w |}.

Definition set_timers (v : list timer) (w : world) : world :=
  {| targets := targets w;
     logArea := logArea w;
     markerLayer := markerLayer w;
     targetTable := targetTable w;
     canvas := canvas w;
     timers := v;
     next_timer := next_timer w;
     panel := panel w;
     commandInput := commandInput w;
     downloads := downloads w;
     alerts := alerts w;
     entropy := entropy w;
     drawn := drawn w;
     clock := clock w |}.

Definition set_next_timer (v : nat) (w : world) : world :=
  {| targets := targets w;
     logArea := logArea w;
     markerLayer := markerLayer w;
     targetTable := targetTable w;
     canvas := canvas w;
     timers := timers w;
     next_timer := v;
     panel := panel w;
     commandInput := commandInput w;
     downloads := downloads w;
     alerts := alerts w;
     entropy := entropy w;
     drawn := drawn w;
     clock := clock w |}.

Definition set_panel (v : status) (w : world) : world :=
  {| targets := targets w;
     logArea := logArea w;
     markerLayer := markerLayer w;
     targetTable := targetTable w;
     canvas := canvas w;
     timers := timers w;
     next_timer := next_timer w;
     panel := v;
     commandInput := commandInput w;
     downloads := downloads w;
     alerts := alerts w;
     entropy := entropy w;
     drawn := drawn w;
     clock := clock w |}.

Definition set_commandInput (v : string) (w : world) : world :=
  {| targets := targets w;
     logArea := logArea w;
     markerLayer := markerLayer w;
     targetTable := targetTable w;
     canvas := canvas w;
     timers := timers w;
     next_timer := next_timer w;
     panel := panel w;
     commandInput := v;
     downloads := downloads w;
     alerts := alerts w;
     entropy := entropy w;
     drawn := drawn w;
     clock := clock w |}.

Definition set_downloads (v : list download) (w : world) : world :=
  {| targets := targets w;
     logArea := logArea w;
     markerLayer := markerLayer w;
     targetTable := targetTable w;
     canvas := canvas w;
     timers := timers w;
     next_timer := next_timer w;
     panel := panel w;
     commandInput := commandInput w;
     downloads := v;
     alerts := alerts w;
     entropy := entropy w;
     drawn := drawn w;
     clock := clock w |}.

Definition set_alerts (v : list string) (w : world) : world :=
  {| targets := targets w;
     logArea := logArea w;
     markerLayer := markerLayer w;
     targetTable := targetTable w;
     canvas := canvas w;
     timers := timers w;
     next_timer := next_timer w;
     panel := panel w;
     commandInput := commandInput w;
     downloads := downloads w;
     alerts := v;
     entropy := entropy w;
     drawn := drawn w;
     clock := clock w |}.

Definition set_drawn (v : nat) (w : world) : world :=
  {| targets := targets w;
     logArea := logArea w;
     markerLayer := markerLayer w;
     targetTable := targetTable w;
     canvas := canvas w;
     timers := timers w;
     next_timer := next_timer w;
     panel := panel w;
     commandInput := commandInput w;
     downloads := downloads w;
     alerts := alerts w;
     entropy := entropy w;
     drawn := v;
     clock := clock w |}.

Definition set_clock (v : nat) (w : world) : world :=
  {| targets := targets w;
     logArea := logArea w;
     markerLayer := markerLayer w;
     targetTable := targetTable w;
     canvas := canvas w;
     timers := timers w;
     next_timer := next_timer w;
     panel := panel w;
     commandInput := commandInput w;
     downloads := downloads w;
     alerts := alerts w;
     entropy := entropy w;
     drawn := drawn w;
     clock := v |}.

(** The world [window.onload] leaves: empty variables, one log line. *)
Definition blank : status :=
  {| activeTargets := ""; wind := ""; weather := ""; cpuLoad := "";
     temperature := "" |}.

(** [log(msg)]: read the clock, append one line. *)
Definition log (m : message) (w : world) : world :=
  set_clock (S (clock w))
    (set_logArea (logArea w ++ [{| stamp := clock w; msg := m |}]) w).

Definition onload (e : nat -> unit_double) : world :=
  log [Text "System Initialized ✅"]
    {| targets := []; logArea := []; markerLayer := []; targetTable := "";
       canvas := []; timers := []; next_timer := O; panel := blank;
       commandInput := ""; downloads := []; alerts := [];
       entropy := e; drawn := O; clock := O |}.

(** [Math.random()]: the next value of the sequence. *)
Definition Math_random (w : world) : number * world :=
  (ud_value (entropy w (drawn w)), set_drawn (S (drawn w)) w).

(** The popup text of a marker. *)
Definition popup_text (t : target) : string :=
  "Target #" ++ JSString.of_Z (id t) ++ "<br>Vel: " ++ velocity t
  ++ " m/s<br>Dist: " ++ distance t ++ " km".

(** The [for] loop of [scan]: the bound [8 + Math.floor(Math.random() * 3)]
is evaluated again before every iteration, with a fresh random value. *)
Fixpoint scan_loop (fuel : nat) (i : Z) (w : world) : option world :=
  match fuel with
  | O => None
  | S fuel' =>
      let '(r, w) := Math_random w in
      if ltb (JSNumber.of_Z i)
             (add (JSNumber.of_Z 8) (Math_floor (mul r (JSNumber.of_Z 3))))
      then
        let '(r1, w) := Math_random w in
        match toFixed1 (mul r1 (JSNumber.of_Z 200)) with
        | None => None
        | Some d =>
            let '(r2, w) := Math_random w in
            match toFixed1 (mul r2 (JSNumber.of_Z 400)) with
            | None => None
            | Some v =>
                let '(r3, w) := Math_random w in
                let '(r4, w) := Math_random w in
                let t := {| id := i + 1;
                            distance := d;
                            velocity := v;
                            lat := add (JSNumber.of_Z 20) (mul r3 (JSNumber.of_Z 10));
                            lng := add (JSNumber.of_Z 78) (mul r4 (JSNumber.of_Z 10)) |} in
                let w := set_targets (targets w ++ [t]) w in
                let w := set_markerLayer
                           (markerLayer w ++
                            [{| m_lat := lat t; m_lng := lng t;
                                popup := popup_text t |}]) w in
                scan_loop fuel' (i + 1) w
            end
        end
      else Some w
  end.

(** [updateTable()]: the table body is emptied and one row is appended
per target. *)
Definition table_row (t : target) : string :=
  "<tr><td>" ++ JSString.of_Z (id t) ++ "</td><td>" ++ distance t
  ++ "</td><td>" ++ velocity t ++ "</td></tr>".

Definition updateTable (w : world) : world :=
  set_targetTable (fold_left (fun html t => html ++ table_row t) (targets w) "") w.

(** [animateRadar()]: a new interval whose closure starts at angle 0. *)
Definition radius : Z := 230.

Definition animateRadar (w : world) : world :=
  set_next_timer (S (next_timer w))
    (set_timers (timers w ++ [{| timer_id := next_timer w; angle := 0 |}]) w).

(** The three condition names and the array access on them; an index
that is no element yields [undefined], which [textContent] shows as
the empty string. *)
Definition conditions : list string := ["Clear"; "Cloudy"; "Rainy"].

Definition pick (l : list string) (x : number) : string :=
  match to_index x with
  | Some k => nth k l ""
  | None => ""
  end.

(** [updateSystemStatus()]: four more random values, in source order. *)
Definition updateSystemStatus (w : world) : option world :=
  let count := JSString.of_nat (List.length (targets w)) in
  let '(r1, w) := Math_random w in
  match toFixed1 (add (JSNumber.of_Z 10) (mul r1 (JSNumber.of_Z 20))) with
  | None => None
  | Some wi =>
      let '(r2, w) := Math_random w in
      let we := pick conditions (Math_floor (mul r2 (JSNumber.of_Z 3))) in
      let '(r3, w) := Math_random w in
      match toFixed1 (add (JSNumber.of_Z 30) (mul r3 (JSNumber.of_Z 60))) with
      | None => None
      | Some cp =>
          let '(r4, w) := Math_random w in
          match toFixed1 (add (JSNumber.of_Z 25) (mul r4 (JSNumber.of_Z 10))) with
          | None => None
          | Some te =>
              Some (set_panel {| activeTargets := count;
                                 wind := wi ++ " km/h";
                                 weather := we;
                                 cpuLoad := cp ++ "%";
                                 temperature := te ++ "°C" |} w)
          end
      end
  end.

(** [scan()]. *)
Definition scan (fuel : nat) (w : world) : option world :=
  let w := log [Text "Scanning environment..."] w in
  let w := set_targets [] w in
  let w := set_markerLayer [] w in
  match scan_loop fuel 0 w with
  | None => None
  | Some w =>
      let w := updateTable w in
      let w := animateRadar w in
      match updateSystemStatus w with
      | None => None
      | Some w =>
          Some (log [Text (JSString.of_nat (List.length (targets w))
                           ++ " targets detected.")] w)
      end
  end.

(** One firing of the interval callback of timer [k]: paint the frame
at the current angle, add 3 to the angle, and clear the interval once
the angle has reached 360.  A timer that is not running does nothing. *)
Definition frame (a : Z) : list draw :=
  [FillBlack; StrokeCircle 250 250 radius; StrokeRay 250 250 a radius].

Fixpoint fire (k : nat) (ts : list timer) : option (Z * list timer) :=
  match ts with
  | [] => None
  | t :: ts' =>
      if Nat.eqb (timer_id t) k then
        let a := angle t + 3 in
        Some (angle t,
              if (360 <=? a)%Z then ts'
              else {| timer_id := k; angle := a |} :: ts')
      else
        match fire k ts' with
        | Some (a, ts'') => Some (a, t :: ts'')
        | None => None
        end
  end.

Definition tick (k : nat) (w : world) : world :=
  match fire k (timers w) with
  | Some (a, ts) => set_timers ts (set_canvas (canvas w ++ frame a) w)
  | None => w
  end.

(** [generateReport()]. *)
Definition csv_header : string := "ID,Distance(km),Velocity(m/s)".

Definition csv_row (t : target) : string :=
  JSString.of_Z (id t) ++ "," ++ distance t ++ "," ++ velocity t.

Definition csv_text (ts : list target) : string :=
  fold_left (fun csv t => csv ++ csv_row t ++ newline) ts (csv_header ++ newline).

Definition generateReport (w : world) : world :=
  if Nat.eqb (List.length (targets w)) 0 then
    log [Text "No targets to report."] w
  else
    let csv := csv_text (targets w) in
    let w := set_downloads
               (downloads w ++
                [{| filename := "radar_report.csv"; mime := "text/csv";
                    content := csv |}]) w in
    log [Text "Report downloaded as radar_report.csv"] w.

(** [analyze()].  [Math.max] and [Math.min] convert their arguments,
here the stored strings, with [ToNumber]. *)
Fixpoint to_numbers (l : list string) : option (list number) :=
  match l with
  | [] => Some []
  | s :: l' =>
      match ToNumber s, to_numbers l' with
      | Some x, Some xs => Some (x :: xs)
      | _, _ => None
      end
  end.

Definition analyze (w : world) : option world :=
  if Nat.eqb (List.length (targets w)) 0 then
    Some (log [Text "No data to analyze."] w)
  else
    match to_numbers (map velocity (targets w)),
          to_numbers (map distance (targets w)) with
    | Some vs, Some ds =>
        let maxSpeed := Math_max vs in
        let closest := Math_min ds in
        Some (log [Text "Analysis complete: Fastest "; Num maxSpeed;
                   Text " m/s, Closest "; Num closest; Text " km."] w)
    | _, _ => None
    end.

(** [showHelp()]: one alert. *)
Definition help_text : string :=
  "Available commands:" ++ newline ++ "scan - detect targets" ++ newline
  ++ "report - download target data" ++ newline ++ "analyze - run analytics"
  ++ newline ++ "clear - reset logs" ++ newline ++ "help - show this message".

Definition showHelp (w : world) : world :=
  set_alerts (alerts w ++ [help_text]) w.

(** [clearLogs()]. *)
Definition clearLogs (w : world) : world :=
  let w := set_logArea [] w in
  let w := set_canvas (canvas w ++ [ClearRect]) w in
  let w := set_markerLayer [] w in
  let w := set_targets [] w in
  log [Text "System reset."] w.

(** [executeCommand()]: the value of the input field, lower-cased, is
compared with the four command words. *)
Definition executeCommand (fuel : nat) (w : world) : option world :=
  let cmd := toLowerCase (commandInput w) in
  if String.eqb cmd "scan" then scan fuel w
  else if String.eqb cmd "report" then Some (generateReport w)
  else if String.eqb cmd "analyze" then analyze w
  else if String.eqb cmd "clear" then Some (clearLogs w)
  else Some (showHelp w).

(** What can happen to the page: the user types into the input field,
a function of the script is called (by a button or by the command
line), or a timer fires. *)
Inductive event : Type :=
  | Typing (text : string)
  | Execute
  | Scan
  | Report
  | Analyze
  | Clear
  | Tick (k : nat).

Definition step (fuel : nat) (ev : event) (w : world) : option world :=
  match ev with
  | Typing text => Some (set_commandInput text w)
  | Execute => executeCommand fuel w
  | Scan => scan fuel w
  | Report => Some (generateReport w)
  | Analyze => analyze w
  | Clear => Some (clearLogs w)
  | Tick k => Some (tick k w)
  end.

Inductive reachable : world -> Prop :=
  | reach_onload e : reachable (onload e)
  | reach_step fuel ev w w' :
      reachable w -> step fuel ev w = Some w' -> reachable w'.

(** The stored strings of a target are what [toFixed(1)] returns on a
distance in [0, 200] and a velocity in [0, 400]. *)
Definition in_range (lo hi : Z) (s : string) : Prop :=
  exists n, lo <= n <= hi /\ s = fixed1 n.

Definition wf_target (t : target) : Prop :=
  in_range 0 2000 (distance t) /\ in_range 0 4000 (velocity t).

(** The ids 1, 2, ..., n. *)
Definition ids_upto (n : nat) : list Z := map Z.of_nat (seq 1 n).

(** The decimal values of two stored strings, compared as rationals. *)
Definition dec_le (s1 s2 : string) : Prop :=
  match decimal_value s1, decimal_value s2 with
  | Some a, Some b => Qle a b
  | _, _ => False
  end.

(** The decimal value of a stored string lies between two integers. *)
Definition dec_between (lo hi : Z) (s : string) : Prop :=
  match decimal_value s with
  | Some q => Qle (inject_Z lo) q /\ Qle q (inject_Z hi)
  | None => False
  end.

(** The Number that the string with tenths [n] converts to. *)
Definition tenth (n : Z) : number :=
  div (JSNumber.of_Z n) (JSNumber.of_Z 10).

Definition range (n : nat) : list Z := map Z.of_nat (seq 0 n).

(** Every Number of the list is a non-negative canonical value, below
the one that follows it. *)
Fixpoint increasing (l : list number) : bool :=
  match l with
  | [] => true
  | x :: l' =>
      ranked x
      && match l' with
         | [] => true
         | y :: _ => (rank x <? rank y)%Z
         end
      && increasing l'
  end.

Definition list_max (a : Z) (l : list Z) : Z := fold_left Z.max l a.
Definition list_min (a : Z) (l : list Z) : Z := fold_left Z.min l a.

(** An event that runs [scan]. *)
Definition is_scan_event (w : world) (ev : event) : bool :=
  match ev with
  | Scan => true
  | Execute => String.eqb (toLowerCase (commandInput w)) "scan"
  | _ => false
  end.

(** One event that is not a scan. *)
Definition quiet_step (w w' : world) : Prop :=
  exists fuel ev, is_scan_event w ev = false /\ step fuel ev w = Some w'.

(** The data rows of the CSV text, each ended by a line feed. *)
Definition csv_rows (ts : list target) : string :=
  fold_right (fun t s => csv_row t ++ newline ++ s) "" ts.

(** The random draw [r] lies in the third of the unit interval that
selects the weather condition number [k], below the point where the
product with 3 rounds up to the next integer. *)
Definition third_of (r : number) (k : nat) : Prop :=
  match k with
  | 0%nat => 3 * sval r <= 2 ^ scale - 2 ^ (scale - 53)
  | 1%nat => 2 ^ scale <= 3 * sval r <= 2 * 2 ^ scale - 2 ^ (scale - 52)
  | 2%nat => 2 * 2 ^ scale <= 3 * sval r
  | _ => False
  end.

(** The frames a sweep has painted after [n] ticks. *)
Definition sweep_frames (n : nat) : list draw :=
  flat_map frame (map (fun j => 3 * Z.of_nat j) (seq 0 n)).

(** Interval ids are handed out in increasing order. *)
Definition fresh_timers (w : world) : Prop :=
  Forall (fun t => (timer_id t < next_timer w)%nat) (timers w).

(** A sample run, on a sequence of random values that repeats 0.5,
just below 1, 0, about 0.1, 0.75, about 1/3 and about 0.9. *)
Definition half : unit_double :=
  {| ud_value := S754_finite false 4503599627370496 (-53); ud_ok := eq_refl |}.

Definition samples : list unit_double :=
  [ half;
    {| ud_value := S754_finite false 9007199254740991 (-53); ud_ok := eq_refl |};
    {| ud_value := S754_zero false; ud_ok := eq_refl |};
    {| ud_value := S754_finite false 7205759403792794 (-56); ud_ok := eq_refl |};
    {| ud_value := S754_finite false 6755399441055744 (-53); ud_ok := eq_refl |};
    {| ud_value := S754_finite false 6004799503160661 (-54); ud_ok := eq_refl |};
    {| ud_value := S754_finite false 8106479329266893 (-53); ud_ok := eq_refl |} ].

Definition sample_start : world :=
  onload (fun n => nth (n mod 7) samples half).

Definition sample : world :=
  match scan 11 sample_start with
  | Some w => w
  | None => sample_start
  end.

(** ** Further notions used to state properties of the page *)

(** The marker [scan] places for a target. *)
Definition marker_of (t : target) : marker :=
  {| m_lat := lat t; m_lng := lng t; popup := popup_text t |}.

(** [x] is a non-negative Number with lo <= x <= hi. *)
Definition between (lo hi : Z) (x : number) : Prop :=
  nonneg x = true /\ lo * 2 ^ scale <= sval x <= hi * 2 ^ scale.

(** The rows of the table body, one after the other. *)
Definition table_rows (ts : list target) : string :=
  fold_right (fun t s => table_row t ++ s) "" ts.

(** The test [i < 8 + Math.floor(Math.random() * 3)] of the loop of
[scan], when [Math.random()] returns the value number [d] of the
sequence. *)
Definition bound_test (w : world) (d : nat) (i : Z) : bool :=
  ltb (JSNumber.of_Z i)
      (add (JSNumber.of_Z 8)
           (Math_floor (mul (ud_value (entropy w d)) (JSNumber.of_Z 3)))).

(** The object literal of the loop body at counter [i], when the four
calls of [Math.random()] return the values number [d], [d + 1], [d + 2]
and [d + 3] of the sequence. *)
Definition roll (w : world) (d : nat) (i : Z) : option target :=
  match toFixed1 (mul (ud_value (entropy w d)) (JSNumber.of_Z 200)),
        toFixed1 (mul (ud_value (entropy w (S d))) (JSNumber.of_Z 400)) with
  | Some dist, Some vel =>
      Some {| id := i + 1;
              distance := dist;
              velocity := vel;
              lat := add (JSNumber.of_Z 20)
                         (mul (ud_value (entropy w (S (S d)))) (JSNumber.of_Z 10));
              lng := add (JSNumber.of_Z 78)
                         (mul (ud_value (entropy w (S (S (S d))))) (JSNumber.of_Z 10)) |}
  | _, _ => None
  end.

(** A sequence of events, one after the other. *)
Fixpoint run (fuel : nat) (evs : list event) (w : world) : option world :=
  match evs with
  | [] => Some w
  | ev :: evs' =>
      match step fuel ev w with
      | Some w1 => run fuel evs' w1
      | None => None
      end
  end.

(** How often timer [k] fires in a sequence of events. *)
Definition is_tick (k : nat) (ev : event) : bool :=
  match ev with
  | Tick j => Nat.eqb j k
  | _ => false
  end.

Definition ticks_of (k : nat) (evs : list event) : nat :=
  List.length (filter (is_tick k) evs).

(** The angle that the running timer [k] holds, if it runs. *)
Fixpoint angle_of (k : nat) (ts : list timer) : option Z :=
  match ts with
  | [] => None
  | t :: ts' => if Nat.eqb (timer_id t) k then Some (angle t) else angle_of k ts'
  end.

(** An event that runs [clearLogs]. *)
Definition is_clear_event (w : world) (ev : event) : bool :=
  match ev with
  | Clear => true
  | Execute => String.eqb (toLowerCase (commandInput w)) "clear"
  | _ => false
  end.

Fixpoint count_char (c : ascii) (s : string) : nat :=
  match s with
  | EmptyString => O
  | String x s' => ((if Ascii.eqb x c then 1 else 0) + count_char c s')%nat
  end.

(** The sweep angles a running timer can hold: 0, 3, ..., 357. *)
Definition sweep_angle (a : Z) : Prop :=
  0 <= a < 360 /\ a mod 3 = 0.

(** The state of the timers that every event keeps. *)
Definition timers_ok (w : world) : Prop :=
  fresh_timers w
  /\ NoDup (map timer_id (timers w))
  /\ Forall (fun t => sweep_angle (angle t)) (timers w).

(** The angle of a timer after [n] of its ticks: 3 * n while that is
below 360, and none once the timer has cleared itself. *)
Definition swept (n : nat) : option Z :=
  if (n <? 120)%nat then Some (3 * Z.of_nat n) else None.

(** [n] tenths is the decimal with one fraction digit nearest to the
Number [x], the larger one of two that are equally near:
x - 1/20 < n / 10 <= x + 1/20. *)
Definition nearest_tenth (x : number) (n : Z) : Prop :=
  20 * sval x - 2 ^ scale < 2 * n * 2 ^ scale <= 20 * sval x + 2 ^ scale.

(** The store is empty, or holds the 8 to 10 targets of a scan with the
ids 1, 2, ... in order. *)
Definition store_ok (ts : list target) : Prop :=
  ts = []
  \/ ((8 <= List.length ts <= 10)%nat /\ map id ts = ids_upto (List.length ts)).

(** A file as [generateReport()] offers it after a scan: the name and
type of the source, the header line first, and 9 to 11 lines. *)
Definition report_file (f : download) : Prop :=
  filename f = "radar_report.csv" /\ mime f = "text/csv"
  /\ hd_error (split_lines (content f)) = Some csv_header
  /\ (9 <= List.length (split_lines (content f)) <= 11)%nat.

End Radar.

(** * Facts about binary64 rounding *)

Module NumberFacts.

Import JSNumber.

Lemma scale_val : scale = 2200.
Proof. reflexivity. Qed.

Lemma pow2_succ x : 0 <= x -> 2 ^ (x + 1) = 2 * 2 ^ x.
Proof. intros H. rewrite Z.pow_add_r by lia. lia. Qed.

Lemma pow2_pos x : 0 <= x -> 0 < 2 ^ x.
Proof. intros H. apply Z.pow_pos_nonneg; lia. Qed.

Lemma digits2_pos_bounds p :
  2 ^ (Zpos (digits2_pos p) - 1) <= Zpos p < 2 ^ Zpos (digits2_pos p).
Proof.
  induction p as [p IH|p IH|]; cbn [digits2_pos].
  - rewrite Pos2Z.inj_succ.
    pose proof (pow2_succ (Zpos (digits2_pos p) - 1) ltac:(lia)) as E1.
    pose proof (pow2_succ (Zpos (digits2_pos p)) ltac:(lia)) as E2.
    replace (Zpos (digits2_pos p) - 1 + 1) with (Zpos (digits2_pos p)) in E1 by lia.
    replace (Z.succ (Zpos (digits2_pos p)) - 1) with (Zpos (digits2_pos p)) by lia.
    replace (Z.succ (Zpos (digits2_pos p))) with (Zpos (digits2_pos p) + 1) by lia.
    lia.
  - rewrite Pos2Z.inj_succ.
    pose proof (pow2_succ (Zpos (digits2_pos p) - 1) ltac:(lia)) as E1.
    pose proof (pow2_succ (Zpos (digits2_pos p)) ltac:(lia)) as E2.
    replace (Zpos (digits2_pos p) - 1 + 1) with (Zpos (digits2_pos p)) in E1 by lia.
    replace (Z.succ (Zpos (digits2_pos p)) - 1) with (Zpos (digits2_pos p)) by lia.
    replace (Z.succ (Zpos (digits2_pos p))) with (Zpos (digits2_pos p) + 1) by lia.
    lia.
  - cbn. lia.
Qed.

Lemma iter_pos_nat {A} (f : A -> A) p x :
  iter_pos f p x = Nat.iter (Pos.to_nat p) f x.
Proof.
  revert x. induction p as [p IH|p IH|]; intros x; cbn [iter_pos].
  - rewrite !IH. rewrite Pos2Nat.inj_xI.
    replace (S (2 * Pos.to_nat p))%nat with (Pos.to_nat p + (Pos.to_nat p + 1))%nat by lia.
    rewrite !Nat.iter_add. reflexivity.
  - rewrite !IH. rewrite Pos2Nat.inj_xO.
    replace (2 * Pos.to_nat p)%nat with (Pos.to_nat p + Pos.to_nat p)%nat by lia.
    rewrite Nat.iter_add. reflexivity.
  - reflexivity.
Qed.

Lemma shr_1_inv M k mrs :
  0 <= k -> shr_inv M k mrs -> shr_inv M (k + 1) (shr_1 mrs).
Proof.
  intros Hk (T & H1 & H2 & H3 & H4).
  destruct mrs as [m r s]; cbn [shr_m shr_r shr_s] in *.
  assert (Hp : 2 ^ (k + 1) = 2 * 2 ^ k) by (rewrite Z.pow_add_r by lia; lia).
  assert (Hpos : 0 < 2 ^ k) by (apply Z.pow_pos_nonneg; lia).
  exists (2 ^ k * Z.b2z r + T).
  destruct m as [|[p|p|]|p]; try lia; cbn [shr_1 shr_m shr_r shr_s];
    rewrite Hp; (split; [|split; [|split]]);
    try (destruct r, s; cbn [Z.b2z orb] in *; try lia; split; intros; try lia; try reflexivity;
         destruct H3 as [H3a H3b]; try (specialize (H3a eq_refl)); try lia).
Qed.

Lemma shr_iter_inv M n mrs :
  shr_inv M 0 mrs -> shr_inv M (Z.of_nat n) (Nat.iter n shr_1 mrs).
Proof.
  intros H. induction n as [|n IH].
  - exact H.
  - rewrite Nat2Z.inj_succ. unfold Z.succ. cbn [Nat.iter].
    apply shr_1_inv; [lia | exact IH].
Qed.

Lemma shr_spec M mrs e n :
  shr_inv M 0 mrs ->
  shr_inv M (Z.max 0 n) (fst (shr mrs e n)) /\ snd (shr mrs e n) = e + Z.max 0 n.
Proof.
  intros H. destruct n as [|p|p]; cbn [shr fst snd].
  - split; [exact H | lia].
  - rewrite iter_pos_nat. split; [|lia].
    replace (Z.max 0 (Zpos p)) with (Z.of_nat (Pos.to_nat p)) by lia.
    apply shr_iter_inv, H.
  - split; [exact H | lia].
Qed.

Lemma shr_inv_exact M : 0 <= M -> shr_inv M 0 (shr_record_of_loc M loc_Exact).
Proof.
  intros H. unfold shr_inv. exists 0. cbn [shr_record_of_loc shr_m shr_r shr_s Z.b2z].
  rewrite Z.pow_0_r.
  split; [lia | split; [lia | split; [split; [discriminate | lia] | lia]]].
Qed.

(** Rounding to nearest: the chosen mantissa is within half a unit. *)
Lemma round_nearest_even_inv M k mrs :
  0 <= k -> shr_inv M k mrs ->
  let N := round_nearest_even (shr_m mrs) (loc_of_shr_record mrs) in
  0 <= N /\ Z.abs (2 * N * 2 ^ k - 2 * M) <= 2 ^ k.
Proof.
  intros Hk (T & H1 & H2 & H3 & H4).
  destruct mrs as [m r s]; cbn [shr_m shr_r shr_s] in *.
  assert (Hpos : 0 < 2 ^ k) by (apply pow2_pos; lia).
  destruct r, s; cbn [loc_of_shr_record round_nearest_even Z.b2z] in *.
  - assert (0 < T) by (apply H3; reflexivity). split; [lia|]. nia.
  - assert (T = 0) by (destruct (Z.eq_dec T 0); [assumption|];
      assert (false = true) by (apply H3; lia); discriminate).
    subst T. destruct (Z.even m); split; try lia; nia.
  - assert (0 < T) by (apply H3; reflexivity). split; [lia|]. nia.
  - assert (T = 0) by (destruct (Z.eq_dec T 0); [assumption|];
      assert (false = true) by (apply H3; lia); discriminate).
    subst T. split; [lia|]. nia.
Qed.

Lemma shr_nonpos mrs e n : n <= 0 -> shr mrs e n = (mrs, e).
Proof. intros H. destruct n; [reflexivity | lia | reflexivity]. Qed.

Lemma fexp_eq x : fexp prec emax x = Z.max (x - 53) (-1074).
Proof. reflexivity. Qed.

Lemma round_aux_spec (M : positive) (E : Z) :
  let e' := Z.max E (fexp prec emax (Zpos (digits2_pos M) + E)) in
  e' <= 970 ->
  exists N, 0 <= N
    /\ Z.abs (2 * N * 2 ^ (e' - E) - 2 * Zpos M) <= 2 ^ (e' - E)
    /\ repr (binary_round_aux prec emax false (Zpos M) E loc_Exact) N e'
    /\ (E <= fexp prec emax (Zpos (digits2_pos M) + E) ->
        valid_binary prec emax (binary_round_aux prec emax false (Zpos M) E loc_Exact) = true).
Proof.
  intros e' Hov.
  pose proof (digits2_pos_bounds M) as [HdL HdU].
  set (d := Zpos (digits2_pos M)) in *.
  assert (Hd : 1 <= d) by (unfold d; lia).
  unfold binary_round_aux, shr_fexp.
  cbn [Zdigits2]. fold d.
  pose proof (shr_spec (Zpos M) (shr_record_of_loc (Zpos M) loc_Exact) E
                (fexp prec emax (d + E) - E) (shr_inv_exact _ (Pos2Z.is_nonneg M))) as [Hinv He].
  destruct (shr (shr_record_of_loc (Zpos M) loc_Exact) E (fexp prec emax (d + E) - E))
    as [mrs' e1]. cbn [fst snd] in Hinv, He.
  assert (Hk : Z.max 0 (fexp prec emax (d + E) - E) = e' - E) by (unfold e'; lia).
  rewrite Hk in Hinv, He.
  assert (He1 : e1 = e') by lia. clear He. subst e1.
  assert (Hk0 : 0 <= e' - E) by lia.
  pose proof (round_nearest_even_inv _ _ _ Hk0 Hinv) as [HN0 HNabs].
  set (N := round_nearest_even (shr_m mrs') (loc_of_shr_record mrs')) in *.
  assert (Hemin : -1074 <= e') by (unfold e'; rewrite fexp_eq; lia).
  assert (HN53 : N <= 2 ^ 53).
  { assert (Hpos : 0 < 2 ^ (e' - E)) by (apply pow2_pos; lia).
    assert (Hle : 2 ^ d <= 2 ^ (e' - E + 53)).
    { apply Z.pow_le_mono_r; [lia|]. unfold e'. rewrite fexp_eq. lia. }
    rewrite Z.pow_add_r in Hle by lia.
    set (P := 2 ^ (e' - E)) in *. clearbody P.
    assert (2 * N * P < (2 * 2 ^ 53 + 1) * P) by lia.
    assert (2 * N < 2 * 2 ^ 53 + 1) by nia. lia. }
  assert (HNcan : E <= fexp prec emax (d + E) -> N < 2 ^ 53 ->
                  forall dN, 2 ^ (dN - 1) <= N < 2 ^ dN -> 1 <= dN ->
                  fexp prec emax (dN + e') = e').
  { intros Hcan Hlt dN [HNL HNU] HdN1.
    assert (Hpos : 0 < 2 ^ (e' - E)) by (apply pow2_pos; lia).
    assert (Hef : e' = fexp prec emax (d + E)) by (unfold e'; lia).
    rewrite fexp_eq in Hef, Hcan. rewrite fexp_eq.
    assert (HdN53 : dN <= 53).
    { destruct (Z.le_gt_cases dN 53) as [Hle|Hgt]; [exact Hle|].
      assert (2 ^ 53 <= 2 ^ (dN - 1)) by (apply Z.pow_le_mono_r; lia). lia. }
    destruct (Z.le_gt_cases (-1074) (d + E - 53)) as [Hnorm|Hsub].
    - (* normal range: the mantissa keeps 53 digits *)
      assert (Hk53 : e' - E = d - 53) by lia.
      assert (HP : 2 ^ (d - 1) = 2 ^ (e' - E) * 2 ^ 52).
      { rewrite <- Z.pow_add_r by lia. f_equal; try lia. }
      set (P := 2 ^ (e' - E)) in *. clearbody P.
      assert (2 ^ 52 <= N) by nia.
      assert (52 < dN).
      { destruct (Z.le_gt_cases dN 52) as [Hle|Hgt]; [|lia].
        assert (2 ^ dN <= 2 ^ 52) by (apply Z.pow_le_mono_r; lia). lia. }
      lia.
    - lia. }
  exists N. split; [exact HN0 | split; [exact HNabs|]].
  clearbody N. clear Hinv HNabs mrs'.
  destruct N as [|p|p]; [| |lia].
  - cbn [Zdigits2].
    rewrite shr_nonpos by (rewrite fexp_eq; lia).
    cbn. split; reflexivity.
  - cbn [Zdigits2].
    destruct (Z.eq_dec (Zpos p) (2 ^ 53)) as [Heq|Hne].
    + assert (p = 9007199254740992%positive) by (apply Pos2Z.inj; rewrite Heq; reflexivity).
      subst p. cbn [digits2_pos Pos.succ].
      replace (fexp prec emax (54 + e') - e') with 1 by (rewrite fexp_eq; lia).
      cbn [shr iter_pos shr_record_of_loc shr_1 shr_m].
      replace (e' + 1 <=? emax - prec) with true
        by (symmetry; apply Z.leb_le; unfold emax, prec; lia).
      cbn [repr]. split; [split; [lia|] |].
      * replace (e' + 1 - e') with 1 by lia. reflexivity.
      * intros _. cbn [valid_binary]. unfold bounded, canonical_mantissa.
        cbn [digits2_pos Pos.succ]. rewrite fexp_eq.
        apply andb_true_iff. split; [apply Z.eqb_eq | apply Z.leb_le]; unfold emax, prec; lia.
    + pose proof (digits2_pos_bounds p) as [HpL HpU].
      assert (Hdp : Zpos (digits2_pos p) <= 53).
      { destruct (Z.le_gt_cases (Zpos (digits2_pos p)) 53) as [Hle|Hgt]; [exact Hle|].
        assert (2 ^ 53 <= 2 ^ (Zpos (digits2_pos p) - 1))
          by (apply Z.pow_le_mono_r; lia).
        lia. }
      rewrite shr_nonpos by (rewrite fexp_eq; lia).
      cbn [shr_record_of_loc shr_m].
      replace (e' <=? emax - prec) with true
        by (symmetry; apply Z.leb_le; unfold emax, prec; lia).
      cbn [repr]. split; [split; [lia|] |].
      * rewrite Z.sub_diag. cbn. lia.
      * intros Hcan. cbn [valid_binary]. unfold bounded, canonical_mantissa.
        apply andb_true_iff. split; [apply Z.eqb_eq | apply Z.leb_le; unfold emax, prec; lia].
        apply (HNcan Hcan ltac:(lia) (Zpos (digits2_pos p))); [split; assumption | lia].
Qed.

Lemma pow2_add a b : 0 <= a -> 0 <= b -> 2 ^ (a + b) = 2 ^ a * 2 ^ b.
Proof. intros. apply Z.pow_add_r; assumption. Qed.

Lemma repr_sval x N e' :
  -1074 <= e' -> repr x N e' ->
  sval x = scaled N e' /\ nonneg x = true.
Proof.
  pose proof scale_val as Hscale.
  intros He H. destruct x as [[|]|[|]| |[|] m e]; cbn [repr] in H; try contradiction.
  - subst N. split; reflexivity.
  - destruct H as [Hle HN]. subst N. cbn [sval nonneg]. unfold scaled. split.
    + replace (e + scale) with ((e - e') + (e' + scale)) by lia.
      rewrite pow2_add by lia. lia.
    + apply Z.leb_le. lia.
Qed.

(** Value-level reading of the rounding step. *)
Lemma round_aux_value (M : positive) (E : Z) :
  let e' := Z.max E (fexp prec emax (Zpos (digits2_pos M) + E)) in
  let x := binary_round_aux prec emax false (Zpos M) E loc_Exact in
  - scale <= E -> e' <= 970 ->
  nonneg x = true
  /\ Z.abs (2 * sval x - 2 * scaled (Zpos M) E) <= scaled 1 e'
  /\ (exists N, 0 <= N /\ sval x = scaled N e')
  /\ (E <= fexp prec emax (Zpos (digits2_pos M) + E) -> valid_binary prec emax x = true).
Proof.
  pose proof scale_val as Hscale.
  intros e' x HE Hov.
  destruct (round_aux_spec M E Hov) as (N & HN0 & Habs & Hrepr & Hval).
  fold e' in Habs, Hrepr. fold x in Hrepr, Hval.
  assert (Hemin : -1074 <= e') by (unfold e'; rewrite fexp_eq; lia).
  destruct (repr_sval _ _ _ Hemin Hrepr) as [Hs Hnn].
  split; [exact Hnn|]. split; [|split; [exists N; split; assumption | exact Hval]].
  rewrite Hs. unfold scaled in *.
  replace (e' + scale) with ((e' - E) + (E + scale)) by lia.
  rewrite pow2_add by lia.
  assert (0 < 2 ^ (E + scale)) by (apply pow2_pos; lia).
  assert (0 < 2 ^ (e' - E)) by (apply pow2_pos; lia).
  set (P := 2 ^ (e' - E)) in *. set (Q := 2 ^ (E + scale)) in *.
  clearbody P Q.
  replace (2 * (N * (P * Q)) - 2 * (Zpos M * Q)) with ((2 * N * P - 2 * Zpos M) * Q) by ring.
  rewrite Z.abs_mul. rewrite (Z.abs_eq Q) by lia. nia.
Qed.

(** Bounds that lie on the grid of the result are preserved by rounding. *)
Lemma round_aux_le (M : positive) (E H c : Z) :
  let e' := Z.max E (fexp prec emax (Zpos (digits2_pos M) + E)) in
  let x := binary_round_aux prec emax false (Zpos M) E loc_Exact in
  - scale <= E -> e' <= 970 -> e' <= c ->
  scaled (Zpos M) E <= scaled H c -> sval x <= scaled H c.
Proof.
  pose proof scale_val as Hscale.
  intros e' x HE Hov Hc Hle.
  destruct (round_aux_value M E HE Hov) as (_ & Habs & (N & HN0 & HN) & _).
  fold e' in Habs, HN. fold x in Habs, HN.
  assert (Hemin : -1074 <= e') by (unfold e'; rewrite fexp_eq; lia).
  rewrite HN in *. unfold scaled in *.
  replace (c + scale) with ((c - e') + (e' + scale)) in * by lia.
  rewrite (pow2_add (c - e') (e' + scale)) in * by lia.
  assert (0 < 2 ^ (e' + scale)) by (apply pow2_pos; lia).
  assert (0 < 2 ^ (c - e')) by (apply pow2_pos; lia).
  set (U := 2 ^ (e' + scale)) in *. set (C := 2 ^ (c - e')) in *. clearbody U C.
  assert (2 * (N * U) <= 2 * (Zpos M * 2 ^ (E + scale)) + 1 * U) by lia.
  assert (2 * N * U <= (2 * (H * C) + 1) * U) by nia.
  assert (2 * N <= 2 * (H * C) + 1) by nia.
  nia.
Qed.

Lemma round_aux_ge (M : positive) (E H c : Z) :
  let e' := Z.max E (fexp prec emax (Zpos (digits2_pos M) + E)) in
  let x := binary_round_aux prec emax false (Zpos M) E loc_Exact in
  - scale <= E -> e' <= 970 -> e' <= c ->
  scaled H c <= scaled (Zpos M) E -> scaled H c <= sval x.
Proof.
  pose proof scale_val as Hscale.
  intros e' x HE Hov Hc Hle.
  destruct (round_aux_value M E HE Hov) as (_ & Habs & (N & HN0 & HN) & _).
  fold e' in Habs, HN. fold x in Habs, HN.
  assert (Hemin : -1074 <= e') by (unfold e'; rewrite fexp_eq; lia).
  rewrite HN in *. unfold scaled in *.
  replace (c + scale) with ((c - e') + (e' + scale)) in * by lia.
  rewrite (pow2_add (c - e') (e' + scale)) in * by lia.
  assert (0 < 2 ^ (e' + scale)) by (apply pow2_pos; lia).
  assert (0 < 2 ^ (c - e')) by (apply pow2_pos; lia).
  set (U := 2 ^ (e' + scale)) in *. set (C := 2 ^ (c - e')) in *. clearbody U C.
  assert (2 * (Zpos M * 2 ^ (E + scale)) - 1 * U <= 2 * (N * U)) by lia.
  assert ((2 * (H * C) - 1) * U <= 2 * N * U) by nia.
  assert (2 * (H * C) - 1 <= 2 * N) by nia.
  nia.
Qed.

Lemma pow2_lt_inv a b : 2 ^ a < 2 ^ b -> a < b.
Proof.
  intros H. destruct (Z.lt_ge_cases a b) as [Hlt|Hge]; [exact Hlt|].
  assert (2 ^ b <= 2 ^ a) by (apply Z.pow_le_mono_r; lia). lia.
Qed.

Lemma bounded_canon m e :
  bounded prec emax m e = true ->
  e = Z.max (Zpos (digits2_pos m) + e - 53) (-1074) /\ e <= 971.
Proof.
  unfold bounded, canonical_mantissa. rewrite fexp_eq.
  intros H. apply andb_true_iff in H. destruct H as [H1 H2].
  apply Z.eqb_eq in H1. apply Z.leb_le in H2. unfold emax, prec in H2. lia.
Qed.

Lemma digits_mul mx my :
  Zpos (digits2_pos mx) + Zpos (digits2_pos my) - 1 <= Zpos (digits2_pos (mx * my))
  /\ Zpos (digits2_pos (mx * my)) <= Zpos (digits2_pos mx) + Zpos (digits2_pos my).
Proof.
  pose proof (digits2_pos_bounds mx) as [Hx1 Hx2].
  pose proof (digits2_pos_bounds my) as [Hy1 Hy2].
  pose proof (digits2_pos_bounds (mx * my)) as [Hz1 Hz2].
  rewrite Pos2Z.inj_mul in Hz1, Hz2.
  set (dx := Zpos (digits2_pos mx)) in *. set (dy := Zpos (digits2_pos my)) in *.
  set (dz := Zpos (digits2_pos (mx * my))) in *.
  assert (1 <= dx) by (unfold dx; lia). assert (1 <= dy) by (unfold dy; lia).
  assert (1 <= dz) by (unfold dz; lia).
  assert (Hp1 : 2 ^ (dx - 1 + (dy - 1)) = 2 ^ (dx - 1) * 2 ^ (dy - 1)) by (apply pow2_add; lia).
  assert (Hp2 : 2 ^ (dx + dy) = 2 ^ dx * 2 ^ dy) by (apply pow2_add; lia).
  assert (0 < 2 ^ (dx - 1)) by (apply pow2_pos; lia).
  assert (0 < 2 ^ (dy - 1)) by (apply pow2_pos; lia).
  split.
  - assert (2 ^ (dx - 1 + (dy - 1)) < 2 ^ dz) by nia.
    apply pow2_lt_inv in H4. lia.
  - assert (2 ^ (dz - 1) < 2 ^ (dx + dy)) by nia.
    apply pow2_lt_inv in H4. lia.
Qed.

Lemma mul_canonical mx ex my ey :
  bounded prec emax mx ex = true -> bounded prec emax my ey = true ->
  ex + ey <= fexp prec emax (Zpos (digits2_pos (mx * my)) + (ex + ey)).
Proof.
  intros Hx Hy. apply bounded_canon in Hx, Hy.
  pose proof (digits_mul mx my) as [HD1 HD2].
  pose proof (Pos2Z.is_pos (digits2_pos mx)). pose proof (Pos2Z.is_pos (digits2_pos my)).
  rewrite fexp_eq. lia.
Qed.

Lemma unit_facts m e :
  is_unit (S754_finite false m e) = true ->
  bounded prec emax m e = true /\ -1074 <= e < 0 /\ Zpos m < 2 ^ (- e)
  /\ scaled (Zpos m) e <= 2 ^ scale - 2 ^ (scale - 53).
Proof.
  pose proof scale_val as Hscale.
  cbn [is_unit]. intros H.
  apply andb_true_iff in H. destruct H as [H H3].
  apply andb_true_iff in H. destruct H as [H1 H2].
  apply Z.ltb_lt in H2, H3.
  pose proof (bounded_canon _ _ H1) as [Hc _].
  split; [exact H1|]. split; [lia|]. split; [exact H3|].
  unfold scaled.
  assert (HS : 2 ^ scale = 2 ^ (- e) * 2 ^ (e + scale)).
  { rewrite <- pow2_add by lia. f_equal; try lia. }
  assert (HQ : 0 < 2 ^ (e + scale)) by (apply pow2_pos; lia).
  destruct (Z.le_gt_cases (-53) e) as [Hbig|Hsmall].
  - assert (2 ^ (scale - 53) <= 2 ^ (e + scale)) by (apply Z.pow_le_mono_r; lia).
    rewrite HS. set (Q := 2 ^ (e + scale)) in *. set (P := 2 ^ (- e)) in *.
    clearbody P Q. nia.
  - pose proof (digits2_pos_bounds m) as [_ Hm].
    assert (2 ^ Zpos (digits2_pos m) <= 2 ^ 53) by (apply Z.pow_le_mono_r; lia).
    assert (Hq : 2 ^ (e + scale) <= 2 ^ (scale - 54)) by (apply Z.pow_le_mono_r; lia).
    assert (H54 : 2 ^ scale = 2 ^ 54 * 2 ^ (scale - 54))
      by (rewrite <- pow2_add by lia; f_equal; try lia).
    assert (H53 : 2 ^ (scale - 53) = 2 * 2 ^ (scale - 54))
      by (rewrite <- (pow2_succ (scale - 54)) by lia; f_equal; try lia).
    rewrite H54, H53.
    assert (0 < 2 ^ (scale - 54)) by (apply pow2_pos; lia).
    set (R := 2 ^ (scale - 54)) in *. set (Q := 2 ^ (e + scale)) in *. clearbody R Q.
    assert (Zpos m * Q <= 2 ^ 53 * R) by nia.
    change (2 ^ 54) with (2 * 2 ^ 53). nia.
Qed.

(** The product of a unit draw and a positive valid constant. *)
Lemma mul_unit_spec mr er my ey :
  is_unit (S754_finite false mr er) = true ->
  bounded prec emax my ey = true -> ey <= 970 ->
  let r := S754_finite false mr er in
  let y := S754_finite false my ey in
  let x := mul r y in
  valid x = true /\ nonneg x = true
  /\ sval x <= sval y
  /\ 2 * sval x * 2 ^ scale <= 2 * sval r * sval y + scaled 1 ey * 2 ^ scale.
Proof.
  pose proof scale_val as Hscale.
  intros Hr Hy Hey r y x.
  destruct (unit_facts _ _ Hr) as (Hrb & Her & Hm & _).
  pose proof (bounded_canon _ _ Hy) as [Hyc _].
  pose proof (mul_canonical _ _ _ _ Hrb Hy) as Hcan.
  pose proof (digits2_pos_bounds (mr * my)) as [HD1 HD2].
  pose proof (digits2_pos_bounds my) as [Hdy1 Hdy2].
  rewrite Pos2Z.inj_mul in HD1, HD2.
  set (D := Zpos (digits2_pos (mr * my))) in *.
  set (dy := Zpos (digits2_pos my)) in *.
  assert (HDle : D + (er + ey) <= dy + ey).
  { assert (Hp : 2 ^ (dy - er) = 2 ^ (- er) * 2 ^ dy).
    { rewrite <- pow2_add by (unfold dy; lia). f_equal; try lia. }
    assert (0 < 2 ^ dy) by (apply pow2_pos; unfold dy; lia).
    assert (2 ^ (D - 1) < 2 ^ (dy - er)) by nia.
    apply pow2_lt_inv in H0. lia. }
  assert (He' : Z.max (er + ey) (fexp prec emax (D + (er + ey))) <= ey)
    by (rewrite fexp_eq; lia).
  assert (HE : - scale <= er + ey) by lia.
  assert (Hov : Z.max (er + ey) (fexp prec emax (D + (er + ey))) <= 970) by lia.
  change x with (binary_round_aux prec emax false (Zpos (mr * my)) (er + ey) loc_Exact).
  destruct (round_aux_value (mr * my) (er + ey) HE Hov) as (Hnn & Habs & _ & Hval).
  assert (Hexact : scaled (Zpos (mr * my)) (er + ey) * 2 ^ scale = sval r * sval y).
  { unfold r, y. cbn [sval]. unfold scaled. rewrite Pos2Z.inj_mul.
    assert (Hp : 2 ^ (er + ey + scale) * 2 ^ scale = 2 ^ (er + scale) * 2 ^ (ey + scale)).
    { rewrite <- !Z.pow_add_r by lia. f_equal; try lia. }
    rewrite <- Z.mul_assoc, Hp. ring. }
  assert (Hle : scaled (Zpos (mr * my)) (er + ey) <= scaled (Zpos my) ey).
  { unfold scaled. rewrite Pos2Z.inj_mul.
    replace (ey + scale) with ((- er) + (er + ey + scale)) by lia.
    rewrite (pow2_add (- er) (er + ey + scale)) by lia.
    assert (0 < 2 ^ (er + ey + scale)) by (apply pow2_pos; lia).
    nia. }
  split; [apply Hval, Hcan|]. split; [exact Hnn|]. split.
  - apply (round_aux_le (mr * my) (er + ey) (Zpos my) ey HE Hov He' Hle).
  - fold D in Habs.
    assert (Hu : scaled 1 (Z.max (er + ey) (fexp prec emax (D + (er + ey)))) <= scaled 1 ey).
    { unfold scaled. apply Z.mul_le_mono_nonneg_l; [lia|].
      apply Z.pow_le_mono_r; lia. }
    assert (HS : 0 < 2 ^ scale) by (apply pow2_pos; lia).
    assert (H2 : 2 * sval (binary_round_aux prec emax false (Zpos (mr * my)) (er + ey) loc_Exact)
                 <= 2 * scaled (Zpos (mr * my)) (er + ey) + scaled 1 ey) by lia.
    apply (Z.mul_le_mono_nonneg_r _ _ (2 ^ scale)) in H2; [|lia].
    rewrite Z.mul_add_distr_r, <- (Z.mul_assoc 2 (scaled _ _)), Hexact in H2.
    lia.
Qed.

Lemma mul_zero_l my ey : mul (S754_zero false) (S754_finite false my ey) = S754_zero false.
Proof. reflexivity. Qed.

Lemma pos_iter_xO m d : Zpos (Pos.iter xO m d) = Zpos m * 2 ^ Zpos d.
Proof.
  induction d as [|d IH] using Pos.peano_ind.
  - cbn. lia.
  - rewrite Pos.iter_succ, Pos2Z.inj_xO, IH, Pos2Z.inj_succ.
    unfold Z.succ. rewrite pow2_succ by lia. ring.
Qed.

Lemma shl_align_spec m e e2 :
  snd (shl_align m e e2) = Z.min e e2
  /\ Zpos (fst (shl_align m e e2)) = Zpos m * 2 ^ (e - Z.min e e2).
Proof.
  unfold shl_align. destruct (e2 - e) as [|d|d] eqn:Hd; cbn [fst snd].
  - split; [lia|]. replace (e - Z.min e e2) with 0 by lia. cbn. lia.
  - split; [lia|]. replace (e - Z.min e e2) with 0 by lia. cbn. lia.
  - split; [lia|]. rewrite pos_iter_xO. f_equal. f_equal; try lia.
Qed.

Lemma digits2_pos_unique p d :
  2 ^ (d - 1) <= Zpos p < 2 ^ d -> Zpos (digits2_pos p) = d.
Proof.
  intros [H1 H2]. pose proof (digits2_pos_bounds p) as [H3 H4].
  assert (d - 1 < Zpos (digits2_pos p)) by (apply pow2_lt_inv; lia).
  assert (Zpos (digits2_pos p) - 1 < d) by (apply pow2_lt_inv; lia).
  lia.
Qed.

(** [binary_round]: align, then round.  The result is canonical. *)
Lemma binary_round_value (s : positive) (ez : Z) :
  let f := fexp prec emax (Zpos (digits2_pos s) + ez) in
  let x := binary_round prec emax false s ez in
  -1074 <= ez -> f <= 970 ->
  valid x = true /\ nonneg x = true
  /\ (forall H c, f <= c -> scaled (Zpos s) ez <= scaled H c -> sval x <= scaled H c)
  /\ (forall H c, f <= c -> scaled H c <= scaled (Zpos s) ez -> scaled H c <= sval x).
Proof.
  pose proof scale_val as Hscale.
  intros f x Hez Hf. unfold x, binary_round.
  pose proof (shl_align_spec s ez f) as [He Hm]. fold f.
  destruct (shl_align s ez f) as [mz E]. cbn [fst snd] in He, Hm.
  pose proof (digits2_pos_bounds s) as [Hs1 Hs2].
  set (ds := Zpos (digits2_pos s)) in *.
  assert (Hds : 1 <= ds) by (unfold ds; lia).
  assert (Hfmin : -1074 <= f) by (unfold f; rewrite fexp_eq; lia).
  assert (HD : Zpos (digits2_pos mz) = ds + (ez - E)).
  { apply digits2_pos_unique. rewrite Hm, <- He.
    replace (ds + (ez - E) - 1) with ((ds - 1) + (ez - E)) by lia.
    rewrite !pow2_add by lia.
    assert (0 < 2 ^ (ez - E)) by (apply pow2_pos; lia). nia. }
  assert (Hfe : fexp prec emax (Zpos (digits2_pos mz) + E) = f).
  { rewrite HD. unfold f. f_equal; try lia. }
  assert (He' : Z.max E (fexp prec emax (Zpos (digits2_pos mz) + E)) = f) by lia.
  assert (HE : - scale <= E) by lia.
  assert (Hsc : scaled (Zpos mz) E = scaled (Zpos s) ez).
  { unfold scaled. rewrite Hm, <- He.
    replace (ez + scale) with ((ez - E) + (E + scale)) by lia.
    rewrite (pow2_add (ez - E) (E + scale)) by lia. ring. }
  assert (Hov : Z.max E (fexp prec emax (Zpos (digits2_pos mz) + E)) <= 970) by lia.
  destruct (round_aux_value mz E HE Hov) as (Hnn & _ & _ & Hval).
  split; [apply Hval; lia|]. split; [exact Hnn|]. split.
  - intros H c Hc Hle. rewrite <- Hsc in Hle.
    apply (round_aux_le mz E H c HE Hov); [lia | exact Hle].
  - intros H c Hc Hle. rewrite <- Hsc in Hle.
    apply (round_aux_ge mz E H c HE Hov); [lia | exact Hle].
Qed.

Lemma add_finite mx ex my ey :
  add (S754_finite false mx ex) (S754_finite false my ey)
  = binary_round prec emax false
      (fst (shl_align mx ex (Z.min ex ey)) + fst (shl_align my ey (Z.min ex ey)))
      (Z.min ex ey).
Proof. reflexivity. Qed.

(** Integer bounds on an exact sum of non-negative values survive the
    rounding of the addition. *)
Lemma add_bounds x y L U :
  nonneg x = true -> nonneg y = true -> 0 < sval x ->
  0 <= L -> U <= 2 ^ 52 ->
  L * 2 ^ scale <= sval x + sval y <= U * 2 ^ scale ->
  nonneg (add x y) = true
  /\ L * 2 ^ scale <= sval (add x y) <= U * 2 ^ scale.
Proof.
  pose proof scale_val as Hscale.
  intros Hx Hy Hxpos HL HU [HLs HUs].
  destruct x as [[|]|[|]| |[|] mx ex]; try discriminate; cbn [sval] in Hxpos; try lia.
  destruct y as [[|]|[|]| |[|] my ey]; try discriminate.
  - (* x + 0 *)
    cbn [sval] in *. change (add (S754_finite false mx ex) (S754_zero false))
      with (S754_finite false mx ex). cbn [sval]. split; [exact Hx | lia].
  - cbn [nonneg] in Hx, Hy. apply Z.leb_le in Hx, Hy. cbn [sval] in HLs, HUs.
    rewrite add_finite.
    pose proof (shl_align_spec mx ex (Z.min ex ey)) as [_ Hmx].
    pose proof (shl_align_spec my ey (Z.min ex ey)) as [_ Hmy].
    set (ez := Z.min ex ey) in *.
    replace (Z.min ex ez) with ez in Hmx by lia.
    replace (Z.min ey ez) with ez in Hmy by lia.
    set (s := (fst (shl_align mx ex ez) + fst (shl_align my ey ez))%positive).
    assert (Hs : scaled (Zpos s) ez = scaled (Zpos mx) ex + scaled (Zpos my) ey).
    { unfold s, scaled. rewrite Pos2Z.inj_add, Hmx, Hmy.
      replace (ex + scale) with ((ex - ez) + (ez + scale)) by lia.
      replace (ey + scale) with ((ey - ez) + (ez + scale)) by lia.
      rewrite (pow2_add (ex - ez)), (pow2_add (ey - ez)) by lia. ring. }
    clearbody s.
    pose proof (digits2_pos_bounds s) as [Hs1 _].
    assert (Hds : Zpos (digits2_pos s) + ez <= 53).
    { assert (Hlt : 2 ^ (Zpos (digits2_pos s) - 1 + (ez + scale)) < 2 ^ (53 + scale)).
      { rewrite pow2_add by lia. rewrite (pow2_add 53 scale) by lia.
        unfold scaled in Hs, HUs.
        assert (0 < 2 ^ (ez + scale)) by (apply pow2_pos; lia).
        assert (0 < 2 ^ scale) by (apply pow2_pos; lia).
        assert (2 ^ 52 < 2 ^ 53) by (apply Z.pow_lt_mono_r; lia).
        nia. }
      apply pow2_lt_inv in Hlt. lia. }
    assert (Hf : fexp prec emax (Zpos (digits2_pos s) + ez) <= 0) by (rewrite fexp_eq; lia).
    destruct (binary_round_value s ez ltac:(lia) ltac:(lia)) as (_ & Hnn & Hle & Hge).
    split; [exact Hnn|]. rewrite Hs in Hle, Hge. split.
    + apply (Hge L 0 Hf). unfold scaled at 1. rewrite Z.add_0_l. exact HLs.
    + apply (Hle U 0 Hf). unfold scaled at 3. rewrite Z.add_0_l. exact HUs.
Qed.

Lemma scaled_unscale m e B :
  -1074 <= e < 0 ->
  (scaled m e <= B * 2 ^ scale <-> m <= B * 2 ^ (- e))
  /\ (B * 2 ^ scale <= scaled m e <-> B * 2 ^ (- e) <= m).
Proof.
  pose proof scale_val as Hscale.
  intros He. unfold scaled.
  assert (HS : 2 ^ scale = 2 ^ (- e) * 2 ^ (e + scale)).
  { rewrite <- pow2_add by lia. f_equal; try lia. }
  assert (0 < 2 ^ (e + scale)) by (apply pow2_pos; lia).
  rewrite HS. set (Q := 2 ^ (e + scale)) in *. set (P := 2 ^ (- e)) in *. clearbody P Q.
  split; split; intros; nia.
Qed.

Lemma scaled_nonneg_exp m e B :
  0 <= e -> (scaled m e <= B * 2 ^ scale <-> m * 2 ^ e <= B)
            /\ (B * 2 ^ scale <= scaled m e <-> B <= m * 2 ^ e).
Proof.
  pose proof scale_val as Hscale.
  intros He. unfold scaled. rewrite pow2_add by lia.
  assert (0 < 2 ^ scale) by (apply pow2_pos; lia).
  set (Q := 2 ^ scale) in *. clearbody Q.
  split; split; intros; nia.
Qed.

Lemma tenths_bounds m e L U :
  -1074 <= e ->
  L * 2 ^ scale <= scaled (Zpos m) e <= U * 2 ^ scale ->
  10 * L <= tenths m e <= 10 * U.
Proof.
  pose proof scale_val as Hscale.
  intros He [HL HU]. unfold tenths.
  destruct (Z.leb_spec 0 e) as [Hpos|Hneg].
  - apply (scaled_nonneg_exp _ _ U) in HU; [|exact Hpos].
    apply (scaled_nonneg_exp _ _ L) in HL; [|exact Hpos]. lia.
  - apply (scaled_unscale _ _ U) in HU; [|lia].
    apply (scaled_unscale _ _ L) in HL; [|lia].
    assert (HP : 0 < 2 ^ (- e)) by (apply pow2_pos; lia).
    replace (1 - e) with (- e + 1) by lia. rewrite pow2_succ by lia.
    set (P := 2 ^ (- e)) in *. clearbody P. split.
    + apply Z.div_le_lower_bound; lia.
    + assert (Hlt : (20 * Zpos m + P) / (2 * P) < 10 * U + 1)
        by (apply Z.div_lt_upper_bound; lia).
      lia.
Qed.

Lemma not_huge m e U :
  -1074 <= e -> scaled (Zpos m) e <= U * 2 ^ scale -> U < 10 ^ 21 ->
  huge m e = false.
Proof.
  pose proof scale_val as Hscale.
  intros He HU HU21. unfold huge.
  destruct (Z.leb_spec 0 e) as [Hpos|Hneg].
  - apply (scaled_nonneg_exp _ _ U) in HU; [|exact Hpos].
    apply Z.leb_gt. lia.
  - apply (scaled_unscale _ _ U) in HU; [|lia].
    assert (HP : 0 < 2 ^ (- e)) by (apply pow2_pos; lia).
    apply Z.leb_gt. nia.
Qed.

Lemma floor_small x :
  valid x = true -> nonneg x = true -> sval x < 3 * 2 ^ scale ->
  exists k, 0 <= k <= 2 /\ Math_floor x = of_Z k
            /\ k * 2 ^ scale <= sval x < (k + 1) * 2 ^ scale.
Proof.
  pose proof scale_val as Hscale.
  intros Hv Hn Hlt.
  assert (HS : 0 < 2 ^ scale) by (apply pow2_pos; lia).
  destruct x as [[|]|[|]| |[|] m e]; try discriminate.
  - exists 0. cbn [sval]. split; [lia|]. split; [reflexivity | lia].
  - cbn [valid valid_binary] in Hv. unfold valid in Hv. cbn [valid_binary] in Hv.
    apply bounded_canon in Hv. destruct Hv as [Hc _].
    cbn [nonneg] in Hn. apply Z.leb_le in Hn. cbn [sval] in Hlt.
    pose proof (digits2_pos_bounds m) as [Hd1 _].
    assert (He : e < 0).
    { assert (Hp : 2 ^ (Zpos (digits2_pos m) - 1 + (e + scale)) < 2 ^ (2 + scale)).
      { rewrite pow2_add by lia. rewrite (pow2_add 2 scale) by lia.
        unfold scaled in *.
        assert (0 < 2 ^ (e + scale)) by (apply pow2_pos; lia).
        change (2 ^ 2) with 4. nia. }
      apply pow2_lt_inv in Hp. lia. }
    assert (HP : 0 < 2 ^ (- e)) by (apply pow2_pos; lia).
    assert (Hm : Zpos m < 3 * 2 ^ (- e)).
    { destruct (Z.lt_ge_cases (Zpos m) (3 * 2 ^ (- e))) as [Hl|Hg]; [exact Hl|].
      apply (proj2 (scaled_unscale (Zpos m) e 3 ltac:(lia))) in Hg. lia. }
    exists (Zpos m / 2 ^ (- e)).
    assert (Hk0 : 0 <= Zpos m / 2 ^ (- e)) by (apply Z.div_pos; lia).
    assert (Hk3 : Zpos m / 2 ^ (- e) < 3) by (apply Z.div_lt_upper_bound; lia).
    split; [lia|]. split.
    + unfold Math_floor. destruct (Z.leb_spec 0 e); [lia|].
      cbn [cond_Zopp]. rewrite Z.shiftr_div_pow2 by lia. reflexivity.
    + cbn [sval].
      pose proof (Z.mul_div_le (Zpos m) (2 ^ (- e)) HP) as Hlo.
      pose proof (Z.mul_succ_div_gt (Zpos m) (2 ^ (- e)) HP) as Hhi.
      split.
      * apply (proj2 (scaled_unscale (Zpos m) e _ ltac:(lia))). lia.
      * destruct (Z.lt_ge_cases (scaled (Zpos m) e)
                    ((Zpos m / 2 ^ (- e) + 1) * 2 ^ scale)) as [Hl|Hg]; [exact Hl|].
        apply (proj2 (scaled_unscale (Zpos m) e _ ltac:(lia))) in Hg. lia.
Qed.

Lemma pow2_scale_pos : 0 < 2 ^ scale.
Proof. apply pow2_pos. pose proof scale_val. lia. Qed.

(** A positive integer below 2^53 is a Number, exactly. *)
Lemma of_Z_pos c :
  0 < c < 2 ^ 53 ->
  exists m e, of_Z c = S754_finite false m e
              /\ bounded prec emax m e = true /\ e <= 52
              /\ scaled (Zpos m) e = c * 2 ^ scale.
Proof.
  pose proof scale_val as Hscale.
  intros [Hc0 Hc53]. destruct c as [|p|p]; try lia.
  change (of_Z (Zpos p)) with (binary_round prec emax false p 0).
  pose proof (digits2_pos_bounds p) as [Hp1 _].
  assert (Hd : Zpos (digits2_pos p) <= 53).
  { assert (Hlt : 2 ^ (Zpos (digits2_pos p) - 1) < 2 ^ 53) by lia.
    apply pow2_lt_inv in Hlt. lia. }
  assert (Hf : fexp prec emax (Zpos (digits2_pos p) + 0) <= 0) by (rewrite fexp_eq; lia).
  destruct (binary_round_value p 0 ltac:(lia) ltac:(lia)) as (Hv & Hn & Hle & Hge).
  specialize (Hle (Zpos p) 0 Hf (Z.le_refl _)).
  specialize (Hge (Zpos p) 0 Hf (Z.le_refl _)).
  pose proof pow2_scale_pos as HS.
  assert (Hs : sval (binary_round prec emax false p 0) = Zpos p * 2 ^ scale).
  { unfold scaled in Hle, Hge. rewrite Z.add_0_l in Hle, Hge. lia. }
  destruct (binary_round prec emax false p 0) as [[|]|[|]| |[|] m e]; try discriminate;
    cbn [sval] in Hs; try nia.
  exists m, e. split; [reflexivity|]. split; [exact Hv|]. split; [|exact Hs].
  unfold valid in Hv. cbn [valid_binary] in Hv. apply bounded_canon in Hv.
  cbn [nonneg] in Hn. apply Z.leb_le in Hn.
  destruct (Z.le_gt_cases e 52) as [Hle52|Hgt]; [exact Hle52|].
  exfalso. unfold scaled in *.
  assert (2 ^ (53 + scale) <= 2 ^ (e + scale)) by (apply Z.pow_le_mono_r; lia).
  rewrite (pow2_add 53 scale) in H by lia. nia.
Qed.

Lemma nonneg_sval x : nonneg x = true -> 0 <= sval x.
Proof.
  pose proof scale_val as Hscale.
  intros H. destruct x as [[|]|[|]| |[|] m e]; try discriminate H; cbn [sval]; [lia|].
  cbn [nonneg] in H. apply Z.leb_le in H. unfold scaled.
  assert (0 < 2 ^ (e + scale)) by (apply pow2_pos; lia). nia.
Qed.

(** A unit draw times a positive integer constant c lies in [0, c]. *)
Lemma mul_unit_const r c :
  is_unit r = true -> 0 < c < 2 ^ 53 ->
  valid (mul r (of_Z c)) = true /\ nonneg (mul r (of_Z c)) = true
  /\ 0 <= sval (mul r (of_Z c)) <= c * 2 ^ scale.
Proof.
  pose proof scale_val as Hscale.
  intros Hr Hc. destruct (of_Z_pos c Hc) as (m & e & Hof & Hb & He & Hs).
  rewrite Hof.
  destruct r as [[|]|[|]| |[|] mr er]; try discriminate.
  - rewrite mul_zero_l. cbn [sval]. pose proof pow2_scale_pos.
    split; [reflexivity|]. split; [reflexivity|]. nia.
  - destruct (mul_unit_spec mr er m e Hr Hb ltac:(lia)) as (Hv & Hn & Hle & _).
    split; [exact Hv|]. split; [exact Hn|]. split; [apply nonneg_sval, Hn|].
    cbn [sval] in Hle. lia.
Qed.

(** [Math.random() * 3] stays below 3. *)
Lemma mul_unit_3_lt r :
  is_unit r = true -> sval (mul r (of_Z 3)) < 3 * 2 ^ scale.
Proof.
  pose proof scale_val as Hscale.
  intros Hr. pose proof pow2_scale_pos as HS.
  destruct r as [[|]|[|]| |[|] mr er]; try discriminate.
  - change (of_Z 3) with (S754_finite false 6755399441055744 (-51)).
    rewrite mul_zero_l. cbn [sval]. lia.
  - change (of_Z 3) with (S754_finite false 6755399441055744 (-51)).
    destruct (mul_unit_spec mr er 6755399441055744 (-51) Hr eq_refl ltac:(lia))
      as (_ & _ & _ & Herr).
    destruct (unit_facts _ _ Hr) as (_ & _ & _ & Hu).
    cbn [sval] in Herr.
    assert (H3 : scaled 6755399441055744 (-51) = 3 * 2 ^ scale).
    { unfold scaled. change 6755399441055744 with (3 * 2 ^ 51).
      rewrite <- Z.mul_assoc, <- pow2_add by lia. f_equal; try (f_equal; try lia). }
    assert (H1 : scaled 1 (-51) = 4 * 2 ^ (scale - 53)).
    { unfold scaled. change 4 with (2 ^ 2). rewrite <- pow2_add by lia.
      rewrite Z.mul_1_l. f_equal; try lia. }
    assert (HS53 : 2 ^ scale = 2 ^ 53 * 2 ^ (scale - 53)).
    { rewrite <- pow2_add by lia. f_equal; try lia. }
    assert (0 < 2 ^ (scale - 53)) by (apply pow2_pos; lia).
    rewrite H3, H1 in Herr.
    set (x := sval (mul (S754_finite false mr er) (S754_finite false 6755399441055744 (-51)))) in *.
    set (sr := scaled (Zpos mr) er) in *.
    set (S := 2 ^ scale) in *. set (T := 2 ^ (scale - 53)) in *.
    clearbody x sr S T.
    assert (2 * x * S <= 2 * (S - T) * (3 * S) + 4 * T * S) by nia.
    assert (2 * x <= 6 * (S - T) + 4 * T) by nia.
    lia.
Qed.

(** When nothing is shifted out, the result is the operand. *)
Lemma round_aux_exact (M : positive) (E : Z) :
  fexp prec emax (Zpos (digits2_pos M) + E) <= E -> - scale <= E -> E <= 970 ->
  sval (binary_round_aux prec emax false (Zpos M) E loc_Exact) = scaled (Zpos M) E.
Proof.
  pose proof scale_val as Hscale.
  intros Hf HE Hov.
  assert (He' : Z.max E (fexp prec emax (Zpos (digits2_pos M) + E)) = E) by lia.
  destruct (round_aux_value M E HE ltac:(lia)) as (_ & Habs & (N & HN0 & HN) & _).
  rewrite He' in Habs, HN. rewrite HN in *. unfold scaled in *.
  assert (0 < 2 ^ (E + scale)) by (apply pow2_pos; lia).
  rewrite Z.mul_1_l in Habs.
  set (Q := 2 ^ (E + scale)) in *. clearbody Q.
  assert (N = Zpos M) by nia. subst N. reflexivity.
Qed.

(** Rounding does not cross a bound that the format can represent at the
magnitude of the operand. *)
Lemma round_aux_le_f (M : positive) (E H c : Z) :
  let x := binary_round_aux prec emax false (Zpos M) E loc_Exact in
  - scale <= E -> Z.max E (fexp prec emax (Zpos (digits2_pos M) + E)) <= 970 ->
  fexp prec emax (Zpos (digits2_pos M) + E) <= c ->
  scaled (Zpos M) E <= scaled H c -> sval x <= scaled H c.
Proof.
  pose proof scale_val as Hscale.
  intros x HE Hov Hc Hle.
  destruct (Z.le_gt_cases E (fexp prec emax (Zpos (digits2_pos M) + E))) as [Hs|Hx].
  - apply (round_aux_le M E H c HE Hov); [lia | exact Hle].
  - unfold x. rewrite round_aux_exact by lia. exact Hle.
Qed.

Lemma round_aux_ge_f (M : positive) (E H c : Z) :
  let x := binary_round_aux prec emax false (Zpos M) E loc_Exact in
  - scale <= E -> Z.max E (fexp prec emax (Zpos (digits2_pos M) + E)) <= 970 ->
  fexp prec emax (Zpos (digits2_pos M) + E) <= c ->
  scaled H c <= scaled (Zpos M) E -> scaled H c <= sval x.
Proof.
  pose proof scale_val as Hscale.
  intros x HE Hov Hc Hle.
  destruct (Z.le_gt_cases E (fexp prec emax (Zpos (digits2_pos M) + E))) as [Hs|Hx].
  - apply (round_aux_ge M E H c HE Hov); [lia | exact Hle].
  - unfold x. rewrite round_aux_exact by lia. exact Hle.
Qed.

(** The exponent the result is rounded at, from the size of the operand. *)
Lemma fexp_of_size (M : positive) (E j : Z) :
  - scale <= E -> -1074 <= j - 53 ->
  scaled (Zpos M) E < scaled 1 j ->
  fexp prec emax (Zpos (digits2_pos M) + E) <= j - 53.
Proof.
  pose proof scale_val as Hscale.
  intros HE Hj Hlt. pose proof (digits2_pos_bounds M) as [HM _].
  rewrite fexp_eq. unfold scaled in *.
  assert (Hp : 2 ^ (Zpos (digits2_pos M) - 1 + (E + scale)) < 2 ^ (j + scale)).
  { rewrite pow2_add by lia.
    assert (0 < 2 ^ (E + scale)) by (apply pow2_pos; lia). nia. }
  apply pow2_lt_inv in Hp. lia.
Qed.

(** The three thirds of the unit interval under [Math.random() * 3]. *)
Lemma thirds mr er :
  is_unit (S754_finite false mr er) = true ->
  let r := S754_finite false mr er in
  let x := mul r (of_Z 3) in
  (3 * sval r <= 2 ^ scale - 2 ^ (scale - 53) -> sval x < 2 ^ scale)
  /\ (2 ^ scale <= 3 * sval r -> 2 ^ scale <= sval x)
  /\ (3 * sval r <= 2 * 2 ^ scale - 2 ^ (scale - 52) -> sval x < 2 * 2 ^ scale)
  /\ (2 * 2 ^ scale <= 3 * sval r -> 2 * 2 ^ scale <= sval x).
Proof.
  pose proof scale_val as Hscale.
  intros Hr r x.
  destruct (unit_facts _ _ Hr) as (Hrb & Her & Hm & Hu).
  change (of_Z 3) with (S754_finite false 6755399441055744 (-51)) in x.
  change x with (binary_round_aux prec emax false (Zpos (mr * 6755399441055744)) (er + -51) loc_Exact).
  assert (HX : scaled (Zpos (mr * 6755399441055744)) (er + -51) = 3 * sval r).
  { unfold r. cbn [sval]. unfold scaled. rewrite Pos2Z.inj_mul.
    change (Zpos 6755399441055744) with (3 * 2 ^ 51).
    replace (er + scale) with (51 + (er + -51 + scale)) by lia.
    rewrite (pow2_add 51) by lia. ring. }
  assert (HE : - scale <= er + -51) by lia.
  assert (HS53 : 2 ^ scale = 2 ^ 53 * 2 ^ (scale - 53))
    by (rewrite <- pow2_add by lia; f_equal; try lia).
  assert (HS52 : 2 ^ (scale - 52) = 2 * 2 ^ (scale - 53))
    by (rewrite <- (pow2_succ (scale - 53)) by lia; f_equal; try lia).
  assert (HT : 0 < 2 ^ (scale - 53)) by (apply pow2_pos; lia).
  assert (Hj : forall j, 0 <= j <= 2 -> scaled 1 j = 2 ^ j * 2 ^ scale).
  { intros j Hj. unfold scaled. rewrite pow2_add by lia. lia. }
  assert (Hlt4 : scaled (Zpos (mr * 6755399441055744)) (er + -51) < scaled 1 2).
  { rewrite HX, (Hj 2) by lia. unfold r. cbn [sval]. change (2 ^ 2) with 4. nia. }
  assert (Hov : Z.max (er + -51)
                  (fexp prec emax (Zpos (digits2_pos (mr * 6755399441055744)) + (er + -51)))
                <= 970).
  { pose proof (fexp_of_size _ _ 2 HE ltac:(lia) Hlt4). lia. }
  repeat split.
  - intros H1.
    assert (Hlt1 : scaled (Zpos (mr * 6755399441055744)) (er + -51) < scaled 1 0).
    { rewrite HX, (Hj 0) by lia. change (2 ^ 0) with 1. lia. }
    pose proof (fexp_of_size _ _ 0 HE ltac:(lia) Hlt1) as Hf.
    pose proof (round_aux_le_f _ _ (2 ^ 53 - 1) (-53) HE Hov Hf) as Hle.
    assert (HB : scaled (2 ^ 53 - 1) (-53) = 2 ^ scale - 2 ^ (scale - 53)).
    { unfold scaled. replace (-53 + scale) with (scale - 53) by lia. rewrite HS53. ring. }
    rewrite HB, HX in Hle. specialize (Hle H1). lia.
  - intros H1.
    pose proof (fexp_of_size _ _ 2 HE ltac:(lia) Hlt4) as Hf.
    pose proof (round_aux_ge_f _ _ 1 0 HE Hov ltac:(lia)) as Hge.
    rewrite (Hj 0), HX in Hge by lia. change (2 ^ 0) with 1 in Hge.
    rewrite Z.mul_1_l in Hge. exact (Hge H1).
  - intros H1.
    assert (Hlt2 : scaled (Zpos (mr * 6755399441055744)) (er + -51) < scaled 1 1).
    { rewrite HX, (Hj 1) by lia. change (2 ^ 1) with 2. lia. }
    pose proof (fexp_of_size _ _ 1 HE ltac:(lia) Hlt2) as Hf.
    pose proof (round_aux_le_f _ _ (2 ^ 53 - 1) (-52) HE Hov ltac:(lia)) as Hle.
    assert (HB : scaled (2 ^ 53 - 1) (-52) = 2 * 2 ^ scale - 2 ^ (scale - 52)).
    { unfold scaled. replace (-52 + scale) with (scale - 52) by lia.
      rewrite HS53, HS52. ring. }
    rewrite HB, HX in Hle. specialize (Hle H1). lia.
  - intros H1.
    pose proof (fexp_of_size _ _ 2 HE ltac:(lia) Hlt4) as Hf.
    pose proof (round_aux_ge_f _ _ 2 0 HE Hov ltac:(lia)) as Hge.
    rewrite HX in Hge. unfold scaled at 1 in Hge. rewrite Z.add_0_l in Hge.
    exact (Hge H1).
Qed.

End NumberFacts.

(** * Facts about the strings *)

Module StringFacts.
Import JSNumber JSString.
Local Open Scope string_scope.

Lemma to_uint_nonnil n : N.to_uint n <> Decimal.Nil.
Proof.
  destruct n as [|p]; cbn.
  - discriminate.
  - apply DecimalPos.Unsigned.to_uint_nonnil.
Qed.

Lemma digits_value_of_N n : digits_value (of_N n) = Some n.
Proof.
  unfold digits_value, of_N.
  rewrite NilZero.usu by apply to_uint_nonnil.
  cbn. f_equal. apply DecimalN.Unsigned.of_to.
Qed.

Lemma uint_of_string_digits s d :
  NilEmpty.uint_of_string s = Some d -> all_digits s = true.
Proof.
  revert d. induction s as [|c s IH]; intros d H; [reflexivity|].
  cbn [NilEmpty.uint_of_string] in H.
  destruct (NilEmpty.uint_of_string s) as [d'|] eqn:Hs; [|discriminate].
  cbn [all_digits]. rewrite (IH d' eq_refl), andb_true_r.
  apply uint_of_char_spec in H.
  destruct H as [H|[H|[H|[H|[H|[H|[H|[H|[H|H]]]]]]]]]; destruct H as [-> _]; reflexivity.
Qed.

Lemma of_N_digits n : all_digits (of_N n) = true /\ of_N n <> "".
Proof.
  pose proof (digits_value_of_N n) as H. unfold digits_value in H.
  destruct (NilZero.uint_of_string (of_N n)) as [d|] eqn:Hd; [|discriminate].
  unfold NilZero.uint_of_string in Hd.
  destruct (of_N n) as [|c s] eqn:Hs; [discriminate|].
  split; [|discriminate]. eapply uint_of_string_digits, Hd.
Qed.

Lemma of_Z_nonneg z : 0 <= z -> JSString.of_Z z = of_N (Z.to_N z).
Proof.
  intros H. unfold JSString.of_Z. destruct (Z.ltb_spec z 0); [lia | reflexivity].
Qed.

Lemma digit_not_dot c : is_digit c = true -> Ascii.eqb c "." = false.
Proof.
  intros H. destruct (Ascii.eqb_spec c "."%char) as [->|]; [discriminate H | reflexivity].
Qed.

Lemma digit_not_newline c : is_digit c = true -> Ascii.eqb c (ascii_of_nat 10) = false.
Proof.
  intros H. destruct (Ascii.eqb_spec c (ascii_of_nat 10)) as [->|]; [discriminate H | reflexivity].
Qed.

Lemma split_dot_digits a b :
  all_digits a = true -> split_dot (a ++ "." ++ b) = (a, Some b).
Proof.
  induction a as [|c a IH]; intros H; [reflexivity|].
  cbn [all_digits] in H. apply andb_true_iff in H. destruct H as [Hc Ha].
  cbn [append split_dot]. rewrite (digit_not_dot c Hc).
  change (a ++ String "." b) with (a ++ "." ++ b). rewrite (IH Ha). reflexivity.
Qed.

(** The last digit: one character. *)
Lemma of_Z_digit j :
  0 <= j <= 9 -> exists c, JSString.of_Z j = String c "" /\ is_digit c = true.
Proof.
  intros H.
  assert (Hj : j = 0 \/ j = 1 \/ j = 2 \/ j = 3 \/ j = 4 \/ j = 5 \/ j = 6 \/ j = 7
               \/ j = 8 \/ j = 9) by lia.
  repeat (destruct Hj as [-> | Hj]); try subst j; eexists; split; reflexivity.
Qed.

Lemma parse_fixed1 n :
  0 <= n -> parse_decimal (fixed1 n) = Some (Z.to_N n, 1%nat).
Proof.
  intros Hn. unfold fixed1, parse_decimal.
  assert (H10 : 0 <= n / 10) by (apply Z.div_pos; lia).
  pose proof (Z.mod_pos_bound n 10 ltac:(lia)) as Hm.
  rewrite (of_Z_nonneg (n / 10) H10).
  destruct (of_N_digits (Z.to_N (n / 10))) as [Hd _].
  rewrite (split_dot_digits _ _ Hd). rewrite digits_value_of_N.
  rewrite (of_Z_nonneg (n mod 10)) by lia. rewrite digits_value_of_N.
  destruct (of_Z_digit (n mod 10) ltac:(lia)) as (c & Hc & _).
  rewrite (of_Z_nonneg (n mod 10)) in Hc by lia. rewrite Hc.
  cbn [String.length]. f_equal. f_equal.
  change (10 ^ N.of_nat 1)%N with 10%N.
  pose proof (Z.div_mod n 10 ltac:(lia)). lia.
Qed.

Lemma decimal_value_fixed1 n :
  0 <= n -> decimal_value (fixed1 n) = Some (Qmake n 10).
Proof.
  intros Hn. unfold decimal_value. rewrite (parse_fixed1 n Hn). cbn [option_map].
  rewrite Z2N.id by lia. reflexivity.
Qed.

Lemma is_fixed1_fixed1 n : 0 <= n -> is_fixed1 (fixed1 n) = true.
Proof.
  intros Hn. unfold fixed1, is_fixed1.
  assert (H10 : 0 <= n / 10) by (apply Z.div_pos; lia).
  pose proof (Z.mod_pos_bound n 10 ltac:(lia)) as Hm.
  rewrite (of_Z_nonneg (n / 10) H10).
  destruct (of_N_digits (Z.to_N (n / 10))) as [Hd Hne].
  rewrite (split_dot_digits _ _ Hd).
  destruct (of_Z_digit (n mod 10) ltac:(lia)) as (c & Hc & Hdc). rewrite Hc.
  destruct (of_N (Z.to_N (n / 10))) as [|c0 s0]; [contradiction|].
  rewrite Hd, Hdc. reflexivity.
Qed.

Lemma all_digits_no_newline s : all_digits s = true -> no_newline s = true.
Proof.
  induction s as [|c s IH]; intros H; [reflexivity|].
  cbn [all_digits] in H. apply andb_true_iff in H. destruct H as [Hc Hs].
  cbn [no_newline]. rewrite (digit_not_newline c Hc), (IH Hs). reflexivity.
Qed.

Lemma no_newline_app a b :
  no_newline (a ++ b) = no_newline a && no_newline b.
Proof.
  induction a as [|c a IH]; [reflexivity|].
  cbn [append no_newline]. rewrite IH. apply andb_assoc.
Qed.

Lemma no_newline_of_Z z : no_newline (JSString.of_Z z) = true.
Proof.
  unfold JSString.of_Z. destruct (z <? 0)%Z.
  - rewrite no_newline_app. cbn [no_newline].
    apply all_digits_no_newline, of_N_digits.
  - apply all_digits_no_newline, of_N_digits.
Qed.

Lemma no_newline_fixed1 n : no_newline (fixed1 n) = true.
Proof.
  unfold fixed1. rewrite !no_newline_app, !no_newline_of_Z. reflexivity.
Qed.

Lemma split_lines_line l rest :
  no_newline l = true ->
  split_lines (l ++ newline ++ rest) = l :: split_lines rest.
Proof.
  induction l as [|c l IH]; intros H.
  - reflexivity.
  - cbn [no_newline] in H. apply andb_true_iff in H. destruct H as [Hc Hl].
    apply negb_true_iff in Hc.
    cbn [append split_lines]. rewrite Hc. rewrite (IH Hl). reflexivity.
Qed.

End StringFacts.

(** * Facts about the random draws *)

Module RandomFacts.
Import JSNumber JSString NumberFacts StringFacts.
Local Open Scope string_scope.

(** [toFixed(1)] of a non-negative value between the integers L and U
prints the tenths of a value between them. *)
Lemma toFixed1_range x L U :
  nonneg x = true -> 0 <= L -> U < 10 ^ 21 ->
  L * 2 ^ scale <= sval x <= U * 2 ^ scale ->
  exists n, 10 * L <= n <= 10 * U /\ toFixed1 x = Some (fixed1 n).
Proof.
  intros Hn HL HU [Hlo Hhi]. pose proof pow2_scale_pos as HS.
  destruct x as [[|]|[|]| |[|] m e]; try discriminate.
  - cbn [sval] in *. exists 0. split; [nia | reflexivity].
  - cbn [nonneg] in Hn. apply Z.leb_le in Hn. cbn [sval] in *.
    exists (tenths m e). split.
    + apply tenths_bounds; [exact Hn | split; assumption].
    + cbn [toFixed1]. rewrite (not_huge m e U Hn Hhi HU). reflexivity.
Qed.

Lemma toFixed1_mul_unit r c :
  is_unit r = true -> 0 < c < 2 ^ 53 ->
  exists n, 0 <= n <= 10 * c
            /\ toFixed1 (mul r (JSNumber.of_Z c)) = Some (fixed1 n).
Proof.
  intros Hr Hc. destruct (mul_unit_const r c Hr Hc) as (_ & Hn & Hs).
  assert (Hc21 : c < 10 ^ 21).
  { assert (2 ^ 53 < 10 ^ 21) by reflexivity. lia. }
  destruct (toFixed1_range _ 0 c Hn ltac:(lia) Hc21 ltac:(lia)) as (n & Hn' & Ht).
  exists n. split; [lia | exact Ht].
Qed.

(** a + Math.random() * b, for small positive integers a and b. *)
Lemma add_mul_unit a r b :
  is_unit r = true -> 0 < a -> 0 < b -> a + b <= 2 ^ 52 ->
  nonneg (add (JSNumber.of_Z a) (mul r (JSNumber.of_Z b))) = true
  /\ a * 2 ^ scale <= sval (add (JSNumber.of_Z a) (mul r (JSNumber.of_Z b)))
     <= (a + b) * 2 ^ scale.
Proof.
  intros Hr Ha Hb Hab. pose proof pow2_scale_pos as HS.
  assert (H52 : 2 ^ 52 < 2 ^ 53) by reflexivity.
  destruct (mul_unit_const r b Hr ltac:(lia)) as (_ & Hn & Hs).
  destruct (of_Z_pos a ltac:(lia)) as (m & e & Hof & Hbd & He & Hsa).
  rewrite Hof.
  assert (Hna : nonneg (S754_finite false m e) = true).
  { cbn [nonneg]. apply Z.leb_le. apply bounded_canon in Hbd. lia. }
  apply add_bounds; try assumption; cbn [sval]; rewrite ?Hsa; nia.
Qed.

Lemma toFixed1_add_mul_unit a r b :
  is_unit r = true -> 0 < a -> 0 < b -> a + b <= 2 ^ 52 ->
  exists n, 10 * a <= n <= 10 * (a + b)
            /\ toFixed1 (add (JSNumber.of_Z a) (mul r (JSNumber.of_Z b))) = Some (fixed1 n).
Proof.
  intros Hr Ha Hb Hab. destruct (add_mul_unit a r b Hr Ha Hb Hab) as (Hn & Hs).
  assert (2 ^ 52 < 10 ^ 21) by reflexivity.
  apply toFixed1_range; try assumption; lia.
Qed.

(** [Math.floor(Math.random() * 3)] is 0, 1 or 2. *)
Lemma floor_mul_unit_3 r :
  is_unit r = true ->
  exists k, 0 <= k <= 2
    /\ Math_floor (mul r (JSNumber.of_Z 3)) = JSNumber.of_Z k
    /\ k * 2 ^ scale <= sval (mul r (JSNumber.of_Z 3)) < (k + 1) * 2 ^ scale.
Proof.
  intros Hr.
  destruct (mul_unit_const r 3 Hr ltac:(split; reflexivity)) as (Hv & Hn & _).
  apply floor_small; [exact Hv | exact Hn | apply mul_unit_3_lt, Hr].
Qed.

Lemma small_cases k : 0 <= k <= 2 -> k = 0 \/ k = 1 \/ k = 2.
Proof. lia. Qed.

(** The loop test [i < 8 + k] on Numbers agrees with the test on
integers, for the counters and bounds the loop can see. *)
Lemma loop_test i k :
  0 <= i <= 10 -> 0 <= k <= 2 ->
  ltb (JSNumber.of_Z i) (add (JSNumber.of_Z 8) (JSNumber.of_Z k)) = (i <? 8 + k)%Z.
Proof.
  intros Hi Hk.
  assert (Hi' : i = 0 \/ i = 1 \/ i = 2 \/ i = 3 \/ i = 4 \/ i = 5 \/ i = 6 \/ i = 7
                \/ i = 8 \/ i = 9 \/ i = 10) by lia.
  destruct (small_cases k Hk) as [-> | [-> | ->]];
    repeat (destruct Hi' as [-> | Hi']); try subst i; reflexivity.
Qed.

Lemma pick_conditions k :
  0 <= k <= 2 ->
  Radar.pick Radar.conditions (JSNumber.of_Z k) = nth (Z.to_nat k) Radar.conditions "".
Proof.
  intros Hk. destruct (small_cases k Hk) as [-> | [-> | ->]]; reflexivity.
Qed.

(** The weather index follows the third of the unit interval the draw
lies in. *)
Lemma weather_thirds r :
  is_unit r = true ->
  exists k, (k < 3)%nat
    /\ Math_floor (mul r (JSNumber.of_Z 3)) = JSNumber.of_Z (Z.of_nat k)
    /\ forall j, Radar.third_of r j -> k = j.
Proof.
  intros Hr. destruct (floor_mul_unit_3 r Hr) as (k & Hk & Hfl & Hlo & Hhi).
  exists (Z.to_nat k). split; [lia|]. rewrite Z2Nat.id by lia. split; [exact Hfl|].
  pose proof pow2_scale_pos as HS.
  assert (HT : 0 < 2 ^ (scale - 52)) by (apply pow2_pos; pose proof scale_val; lia).
  intros j Hj.
  destruct r as [[|]|[|]| |[|] mr er]; try discriminate.
  - (* the draw is zero *)
    change (mul (S754_zero false) (JSNumber.of_Z 3)) with (S754_zero false) in Hlo, Hhi.
    cbn [sval] in *. assert (k = 0) by nia. subst k.
    destruct j as [|[|[|j]]]; cbn [Radar.third_of sval] in Hj; try contradiction; try lia; reflexivity.
  - destruct (thirds mr er Hr) as (T0 & T1 & T2 & T3).
    cbv zeta in T0, T1, T2, T3.
    destruct j as [|[|[|j]]]; cbn [Radar.third_of] in Hj; try contradiction.
    + specialize (T0 Hj).
      set (x := sval (mul (S754_finite false mr er) (JSNumber.of_Z 3))) in *.
      set (S := 2 ^ scale) in *. clearbody x S.
      assert (k = 0) by nia. lia.
    + destruct Hj as [Hj1 Hj2]. specialize (T1 Hj1). specialize (T2 Hj2).
      set (x := sval (mul (S754_finite false mr er) (JSNumber.of_Z 3))) in *.
      set (S := 2 ^ scale) in *. clearbody x S.
      assert (k = 1) by nia. lia.
    + specialize (T3 Hj).
      set (x := sval (mul (S754_finite false mr er) (JSNumber.of_Z 3))) in *.
      set (S := 2 ^ scale) in *. clearbody x S.
      assert (k = 2) by nia. lia.
Qed.

End RandomFacts.

(** * Facts about the page *)

Module RadarFacts.
Import JSNumber JSString Radar NumberFacts StringFacts RandomFacts.

Lemma unit_draw (w : world) n : is_unit (ud_value (entropy w n)) = true.
Proof. apply ud_ok. Qed.

(** What the loop of [scan] leaves when it ends: the targets it
appended. *)
Lemma scan_loop_sound fuel : forall i w w',
  0 <= i <= 10 -> scan_loop fuel i w = Some w' ->
  exists new,
    targets w' = targets w ++ new
    /\ 8 <= i + Z.of_nat (List.length new) <= 10
    /\ map id new = map Z.of_nat (seq (S (Z.to_nat i)) (List.length new))
    /\ Forall wf_target new.
Proof.
  induction fuel as [|fuel IH]; intros i w w' Hi Hrun; [discriminate|].
  cbn [scan_loop] in Hrun. unfold Math_random in Hrun. cbv beta iota zeta in Hrun.
  cbn [entropy drawn set_drawn] in Hrun.
  destruct (floor_mul_unit_3 _ (unit_draw w (drawn w))) as (k & Hk & Hfl & _).
  rewrite Hfl, (loop_test i k Hi Hk) in Hrun.
  destruct (Z.ltb_spec i (8 + k)) as [Hlt|Hge].
  - destruct (toFixed1_mul_unit _ 200 (unit_draw w (S (drawn w))) ltac:(split; reflexivity))
      as (nd & Hnd & Hd).
    destruct (toFixed1_mul_unit _ 400 (unit_draw w (S (S (drawn w)))) ltac:(split; reflexivity))
      as (nv & Hnv & Hv).
    rewrite Hd, Hv in Hrun.
    apply IH in Hrun; [|lia]. destruct Hrun as (new & Htg & Hn & Hids & Hwf).
    cbn [targets set_targets set_markerLayer set_drawn] in Htg.
    rewrite <- app_assoc in Htg.
    eexists. split; [exact Htg|].
    cbn [app List.length]. split; [lia|]. split.
    + cbn [map seq id]. f_equal.
      * lia.
      * rewrite Hids. replace (Z.to_nat (i + 1)) with (S (Z.to_nat i)) by lia. reflexivity.
    + constructor; [|exact Hwf]. split; cbn [distance velocity].
      * exists nd. split; [lia | reflexivity].
      * exists nv. split; [lia | reflexivity].
  - injection Hrun as <-. exists [].
    cbn [targets set_drawn List.length]. rewrite app_nil_r.
    split; [reflexivity|]. split; [lia|]. split; [reflexivity | constructor].
Qed.

(** Eleven rounds are always enough: the loop ends. *)
Lemma scan_loop_total fuel : forall i w,
  0 <= i <= 10 -> (11 - Z.to_nat i <= fuel)%nat ->
  exists w', scan_loop fuel i w = Some w'.
Proof.
  induction fuel as [|fuel IH]; intros i w Hi Hfuel; [lia|].
  cbn [scan_loop]. unfold Math_random. cbv beta iota zeta.
  cbn [entropy drawn set_drawn].
  destruct (floor_mul_unit_3 _ (unit_draw w (drawn w))) as (k & Hk & Hfl & _).
  rewrite Hfl, (loop_test i k Hi Hk).
  destruct (Z.ltb_spec i (8 + k)) as [Hlt|Hge].
  - destruct (toFixed1_mul_unit _ 200 (unit_draw w (S (drawn w))) ltac:(split; reflexivity))
      as (nd & Hnd & Hd).
    destruct (toFixed1_mul_unit _ 400 (unit_draw w (S (S (drawn w)))) ltac:(split; reflexivity))
      as (nv & Hnv & Hv).
    rewrite Hd, Hv. apply IH; lia.
  - eexists. reflexivity.
Qed.

Lemma small_index k : 0 <= k <= 2 -> (Z.to_nat k < 3)%nat.
Proof. lia. Qed.

(** What [updateSystemStatus] writes. *)
Lemma updateSystemStatus_spec w :
  exists w' nw k nc nt,
    updateSystemStatus w = Some w'
    /\ targets w' = targets w
    /\ panel w' = {| activeTargets := JSString.of_nat (List.length (targets w));
                     wind := (fixed1 nw ++ " km/h")%string;
                     weather := nth k conditions ""%string;
                     cpuLoad := (fixed1 nc ++ "%")%string;
                     temperature := (fixed1 nt ++ "°C")%string |}
    /\ 100 <= nw <= 300 /\ (k < 3)%nat /\ 300 <= nc <= 900 /\ 250 <= nt <= 350
    /\ (forall j, third_of (ud_value (entropy w (S (drawn w)))) j -> k = j).
Proof.
  unfold updateSystemStatus, Math_random. cbv beta iota zeta.
  cbn [entropy drawn set_drawn targets].
  destruct (toFixed1_add_mul_unit 10 _ 20 (unit_draw w (drawn w))
              ltac:(lia) ltac:(lia) ltac:(apply Z.lt_le_incl; reflexivity))
    as (nw & Hnw & Hw).
  destruct (weather_thirds _ (unit_draw w (S (drawn w)))) as (k & Hk & Hfl & Hthird).
  destruct (toFixed1_add_mul_unit 30 _ 60 (unit_draw w (S (S (drawn w))))
              ltac:(lia) ltac:(lia) ltac:(apply Z.lt_le_incl; reflexivity))
    as (nc & Hnc & Hc).
  destruct (toFixed1_add_mul_unit 25 _ 10 (unit_draw w (S (S (S (drawn w)))))
              ltac:(lia) ltac:(lia) ltac:(apply Z.lt_le_incl; reflexivity))
    as (nt & Hnt & Ht).
  rewrite Hw, Hc, Ht, Hfl, (pick_conditions (Z.of_nat k)) by lia.
  rewrite Nat2Z.id.
  eexists. exists nw, k, nc, nt.
  split; [reflexivity|]. split; [reflexivity|]. split; [reflexivity|].
  split; [lia|]. split; [lia|]. split; [lia|]. split; [lia|]. exact Hthird.
Qed.

(** ** Order of the Numbers that stored strings convert to *)

Lemma compare_rank x y :
  ranked x = true -> ranked y = true ->
  SFcompare x y = Some (rank x ?= rank y).
Proof.
  intros Hx Hy.
  destruct x as [[|]|[|]| |[|] mx ex]; try discriminate Hx;
  destruct y as [[|]|[|]| |[|] my ey]; try discriminate Hy;
  cbn [ranked] in Hx, Hy; cbn [SFcompare rank].
  - reflexivity.
  - apply andb_true_iff in Hy. destruct Hy as [Hy1 Hy2].
    apply Z.leb_le in Hy1. f_equal. symmetry. apply Z.compare_lt_iff.
    assert (0 < 2 ^ 53) by reflexivity. nia.
  - apply andb_true_iff in Hx. destruct Hx as [Hx1 Hx2].
    apply Z.leb_le in Hx1. f_equal. symmetry. apply Z.compare_gt_iff.
    assert (0 < 2 ^ 53) by reflexivity. nia.
  - apply andb_true_iff in Hx, Hy. destruct Hx as [Hx1 Hx2], Hy as [Hy1 Hy2].
    apply Z.leb_le in Hx1, Hy1. apply Z.ltb_lt in Hx2, Hy2.
    f_equal. destruct (Z.compare_spec ex ey) as [->|Hlt|Hgt].
    + rewrite Pos.compare_cont_spec.
      destruct (Pos.compare_spec mx my) as [->|Hl|Hg]; cbn [Pos.switch_Eq]; symmetry.
      * apply Z.compare_refl.
      * apply Z.compare_lt_iff. lia.
      * apply Z.compare_gt_iff. lia.
    + symmetry. apply Z.compare_lt_iff. nia.
    + symmetry. apply Z.compare_gt_iff. nia.
Qed.

(** The Numbers that the tenths 0, 1, ..., 4001 convert to, in this
order, are increasing. *)
Lemma tenth_table : increasing (map tenth (range 4002)) = true.
Proof. vm_compute. reflexivity. Qed.

(** The integer part of a stored value has at most three digits. *)
Lemma integer_part_table :
  forallb (fun q => (String.length (JSString.of_Z q) <=? 3)%nat) (range 401) = true.
Proof. vm_compute. reflexivity. Qed.

Lemma increasing_nth d : forall l i,
  increasing l = true -> (S i < List.length l)%nat ->
  ranked (nth i l d) = true /\ rank (nth i l d) < rank (nth (S i) l d).
Proof.
  induction l as [|x l IH]; intros i Hinc Hi; [cbn in Hi; lia|].
  cbn [increasing] in Hinc.
  apply andb_true_iff in Hinc. destruct Hinc as [Hinc Hrest].
  apply andb_true_iff in Hinc. destruct Hinc as [Hx Hxy].
  destruct i as [|i].
  - destruct l as [|y l]; [cbn in Hi; lia|].
    cbn [nth]. split; [exact Hx | apply Z.ltb_lt, Hxy].
  - cbn [nth]. apply IH; [exact Hrest | cbn [List.length] in Hi; lia].
Qed.

Lemma nth_range k i : (i < k)%nat -> nth i (range k) 0 = Z.of_nat i.
Proof.
  intros H. unfold range. change 0 with (Z.of_nat 0).
  rewrite map_nth, seq_nth by lia. reflexivity.
Qed.

Lemma nth_tenths k i :
  (i < k)%nat -> nth i (map tenth (range k)) (tenth 0) = tenth (Z.of_nat i).
Proof. intros H. rewrite map_nth, nth_range by lia. reflexivity. Qed.

Lemma length_append (a b : string) :
  String.length (a ++ b) = (String.length a + String.length b)%nat.
Proof. induction a as [|c a IH]; [reflexivity|]. cbn [append String.length]. rewrite IH. reflexivity. Qed.

Lemma fixed1_length n : 0 <= n <= 4000 -> (String.length (fixed1 n) <= 16)%nat.
Proof.
  intros H. unfold fixed1. rewrite !length_append.
  pose proof integer_part_table as T. rewrite forallb_forall in T.
  assert (Hq : 0 <= n / 10 <= 400).
  { split; [apply Z.div_pos; lia | apply Z.div_le_upper_bound; lia]. }
  assert (Hin : In (n / 10) (range 401)).
  { unfold range. apply in_map_iff. exists (Z.to_nat (n / 10)).
    split; [lia | apply in_seq; lia]. }
  specialize (T _ Hin). apply Nat.leb_le in T.
  destruct (of_Z_digit (n mod 10) ltac:(pose proof (Z.mod_pos_bound n 10); lia)) as (c & -> & _).
  cbn [String.length]. lia.
Qed.

Lemma tenth_facts n :
  0 <= n <= 4000 ->
  ranked (tenth n) = true /\ rank (tenth n) < rank (tenth (n + 1))
  /\ (String.length (fixed1 n) <= 16)%nat.
Proof.
  intros H.
  assert (Hlen : List.length (map tenth (range 4002)) = 4002%nat).
  { unfold range. rewrite !length_map, length_seq. reflexivity. }
  destruct (increasing_nth (tenth 0) _ (Z.to_nat n) tenth_table ltac:(rewrite Hlen; lia))
    as [Hr Hlt].
  rewrite (nth_tenths 4002 (Z.to_nat n)) in Hr, Hlt by lia.
  rewrite (nth_tenths 4002 (S (Z.to_nat n))) in Hlt by lia.
  rewrite Z2Nat.id in Hr, Hlt by lia.
  replace (Z.of_nat (S (Z.to_nat n))) with (n + 1) in Hlt by lia.
  split; [exact Hr|]. split; [exact Hlt | apply fixed1_length, H].
Qed.

Lemma tenth_mono_nat d : forall a,
  0 <= a -> a + Z.of_nat d <= 4000 ->
  rank (tenth a) <= rank (tenth (a + Z.of_nat d)).
Proof.
  induction d as [|d IH]; intros a Ha Hb.
  - rewrite Z.add_0_r. lia.
  - specialize (IH a Ha ltac:(lia)).
    destruct (tenth_facts (a + Z.of_nat d) ltac:(lia)) as (_ & Hstep & _).
    replace (a + Z.of_nat (S d)) with (a + Z.of_nat d + 1) by lia. lia.
Qed.

Lemma tenth_lt a b :
  0 <= a -> a < b -> b <= 4000 -> rank (tenth a) < rank (tenth b).
Proof.
  intros Ha Hab Hb.
  destruct (tenth_facts a ltac:(lia)) as (_ & Hstep & _).
  pose proof (tenth_mono_nat (Z.to_nat (b - (a + 1))) (a + 1) ltac:(lia) ltac:(lia)) as H.
  replace (a + 1 + Z.of_nat (Z.to_nat (b - (a + 1)))) with b in H by lia. lia.
Qed.

Lemma ranked_not_nan x : ranked x = true -> is_nan x = false.
Proof. destruct x as [[|]|[|]| |[|] m e]; try discriminate; reflexivity. Qed.

Lemma max2_tenth a b :
  0 <= a <= 4000 -> 0 <= b <= 4000 ->
  max2 (tenth a) (tenth b) = tenth (Z.max a b).
Proof.
  intros Ha Hb.
  destruct (tenth_facts a Ha) as (Hra & _ & _). destruct (tenth_facts b Hb) as (Hrb & _ & _).
  unfold max2. rewrite (ranked_not_nan _ Hra), (ranked_not_nan _ Hrb). cbn [orb].
  rewrite (compare_rank _ _ Hra Hrb).
  destruct (Z.lt_trichotomy a b) as [Hlt|[Heq|Hgt]].
  - pose proof (tenth_lt a b ltac:(lia) Hlt ltac:(lia)) as H.
    apply Z.compare_lt_iff in H. rewrite H. rewrite Z.max_r by lia. reflexivity.
  - subst b. rewrite Z.compare_refl, Z.max_id.
    destruct (tenth a) as [[|]|[|]| |[|] m e]; try discriminate Hra; reflexivity.
  - pose proof (tenth_lt b a ltac:(lia) ltac:(lia) ltac:(lia)) as H.
    apply Z.compare_gt_iff in H. rewrite H. rewrite Z.max_l by lia. reflexivity.
Qed.

Lemma min2_tenth a b :
  0 <= a <= 4000 -> 0 <= b <= 4000 ->
  min2 (tenth a) (tenth b) = tenth (Z.min a b).
Proof.
  intros Ha Hb.
  destruct (tenth_facts a Ha) as (Hra & _ & _). destruct (tenth_facts b Hb) as (Hrb & _ & _).
  unfold min2. rewrite (ranked_not_nan _ Hra), (ranked_not_nan _ Hrb). cbn [orb].
  rewrite (compare_rank _ _ Hra Hrb).
  destruct (Z.lt_trichotomy a b) as [Hlt|[Heq|Hgt]].
  - pose proof (tenth_lt a b ltac:(lia) Hlt ltac:(lia)) as H.
    apply Z.compare_lt_iff in H. rewrite H. rewrite Z.min_l by lia. reflexivity.
  - subst b. rewrite Z.compare_refl, Z.min_id.
    destruct (tenth a) as [[|]|[|]| |[|] m e]; try discriminate Hra; reflexivity.
  - pose proof (tenth_lt b a ltac:(lia) ltac:(lia) ltac:(lia)) as H.
    apply Z.compare_gt_iff in H. rewrite H. rewrite Z.min_r by lia. reflexivity.
Qed.


Lemma ToNumber_fixed1 n :
  0 <= n <= 4000 -> ToNumber (fixed1 n) = Some (tenth n).
Proof.
  intros H. unfold ToNumber. rewrite (parse_fixed1 n) by lia.
  destruct (tenth_facts n H) as (_ & _ & Hlen).
  apply Nat.leb_le in Hlen. rewrite Hlen.
  rewrite Z2N.id by lia. reflexivity.
Qed.

Lemma to_numbers_fixed1 ns :
  Forall (fun n => 0 <= n <= 4000) ns ->
  to_numbers (map fixed1 ns) = Some (map tenth ns).
Proof.
  induction 1 as [|n ns Hn _ IH]; [reflexivity|].
  cbn [map to_numbers]. rewrite (ToNumber_fixed1 n Hn), IH. reflexivity.
Qed.

Lemma list_max_range a l :
  0 <= a <= 4000 -> Forall (fun n => 0 <= n <= 4000) l ->
  0 <= list_max a l <= 4000.
Proof.
  intros Ha Hl. revert a Ha. induction Hl as [|n l Hn _ IH]; intros a Ha; [exact Ha|].
  cbn [list_max fold_left]. apply IH. lia.
Qed.

Lemma list_min_range a l :
  0 <= a <= 4000 -> Forall (fun n => 0 <= n <= 4000) l ->
  0 <= list_min a l <= 4000.
Proof.
  intros Ha Hl. revert a Ha. induction Hl as [|n l Hn _ IH]; intros a Ha; [exact Ha|].
  cbn [list_min fold_left]. apply IH. lia.
Qed.

Lemma list_max_spec l : forall a,
  In (list_max a l) (a :: l) /\ forall n, In n (a :: l) -> n <= list_max a l.
Proof.
  induction l as [|b l IH]; intros a.
  - cbn. split; [left; reflexivity | intros n [->|[]]; lia].
  - cbn [list_max fold_left]. destruct (IH (Z.max a b)) as [Hin Hle].
    fold (list_max (Z.max a b) l) in *. split.
    + destruct Hin as [Heq|Hin].
      * rewrite <- Heq. destruct (Z.max_spec a b) as [[_ ->]|[_ ->]];
          [right; left; reflexivity | left; reflexivity].
      * right; right; exact Hin.
    + intros n [->|[->|Hn]].
      * specialize (Hle (Z.max n b) (or_introl eq_refl)). lia.
      * specialize (Hle (Z.max a n) (or_introl eq_refl)). lia.
      * apply Hle. right. exact Hn.
Qed.

Lemma list_min_spec l : forall a,
  In (list_min a l) (a :: l) /\ forall n, In n (a :: l) -> list_min a l <= n.
Proof.
  induction l as [|b l IH]; intros a.
  - cbn. split; [left; reflexivity | intros n [->|[]]; lia].
  - cbn [list_min fold_left]. destruct (IH (Z.min a b)) as [Hin Hle].
    fold (list_min (Z.min a b) l) in *. split.
    + destruct Hin as [Heq|Hin].
      * rewrite <- Heq. destruct (Z.min_spec a b) as [[_ ->]|[_ ->]];
          [left; reflexivity | right; left; reflexivity].
      * right; right; exact Hin.
    + intros n [->|[->|Hn]].
      * specialize (Hle (Z.min n b) (or_introl eq_refl)). lia.
      * specialize (Hle (Z.min a n) (or_introl eq_refl)). lia.
      * apply Hle. right. exact Hn.
Qed.

Lemma fold_max2_tenth l : forall a,
  0 <= a <= 4000 -> Forall (fun n => 0 <= n <= 4000) l ->
  fold_left max2 (map tenth l) (tenth a) = tenth (list_max a l).
Proof.
  induction l as [|b l IH]; intros a Ha Hl; [reflexivity|].
  inversion Hl as [|? ? Hb Hl']; subst.
  cbn [map fold_left list_max]. rewrite (max2_tenth a b Ha Hb).
  apply IH; [lia | exact Hl'].
Qed.

Lemma fold_min2_tenth l : forall a,
  0 <= a <= 4000 -> Forall (fun n => 0 <= n <= 4000) l ->
  fold_left min2 (map tenth l) (tenth a) = tenth (list_min a l).
Proof.
  induction l as [|b l IH]; intros a Ha Hl; [reflexivity|].
  inversion Hl as [|? ? Hb Hl']; subst.
  cbn [map fold_left list_min]. rewrite (min2_tenth a b Ha Hb).
  apply IH; [lia | exact Hl'].
Qed.

(** [Math.max] and [Math.min] of converted strings are the conversions
of the largest and of the smallest tenths. *)
Lemma Math_max_tenths a l :
  0 <= a <= 4000 -> Forall (fun n => 0 <= n <= 4000) l ->
  Math_max (map tenth (a :: l)) = tenth (list_max a l).
Proof.
  intros Ha Hl. unfold Math_max. cbn [map fold_left].
  replace (max2 (S754_infinity true) (tenth a)) with (tenth a).
  - apply fold_max2_tenth; assumption.
  - destruct (tenth_facts a Ha) as (Hr & _ & _).
    destruct (tenth a) as [[|]|[|]| |[|] m e]; try discriminate Hr; reflexivity.
Qed.

Lemma Math_min_tenths a l :
  0 <= a <= 4000 -> Forall (fun n => 0 <= n <= 4000) l ->
  Math_min (map tenth (a :: l)) = tenth (list_min a l).
Proof.
  intros Ha Hl. unfold Math_min. cbn [map fold_left].
  replace (min2 (S754_infinity false) (tenth a)) with (tenth a).
  - apply fold_min2_tenth; assumption.
  - destruct (tenth_facts a Ha) as (Hr & _ & _).
    destruct (tenth a) as [[|]|[|]| |[|] m e]; try discriminate Hr; reflexivity.
Qed.

(** The tenths behind the stored strings of well-formed targets. *)
Lemma wf_velocities ts :
  Forall wf_target ts ->
  exists ns, map velocity ts = map fixed1 ns /\ Forall (fun n => 0 <= n <= 4000) ns.
Proof.
  induction 1 as [|t ts [_ (n & Hn & Hv)] _ (ns & Hm & Hf)].
  - exists []. split; [reflexivity | constructor].
  - exists (n :: ns). cbn [map]. rewrite Hv, Hm. split; [reflexivity|].
    constructor; assumption.
Qed.

Lemma wf_distances ts :
  Forall wf_target ts ->
  exists ns, map distance ts = map fixed1 ns /\ Forall (fun n => 0 <= n <= 2000) ns.
Proof.
  induction 1 as [|t ts [(n & Hn & Hd) _] _ (ns & Hm & Hf)].
  - exists []. split; [reflexivity | constructor].
  - exists (n :: ns). cbn [map]. rewrite Hd, Hm. split; [reflexivity|].
    constructor; assumption.
Qed.

Lemma dec_le_fixed1 a b : 0 <= a -> a <= b -> dec_le (fixed1 a) (fixed1 b).
Proof.
  intros Ha Hab. unfold dec_le.
  rewrite (decimal_value_fixed1 a), (decimal_value_fixed1 b) by lia.
  unfold Qle. cbn [Qnum Qden]. lia.
Qed.

Lemma dec_between_fixed1 n lo hi :
  0 <= n -> 10 * lo <= n <= 10 * hi -> dec_between lo hi (fixed1 n).
Proof.
  intros Hn H. unfold dec_between. rewrite (decimal_value_fixed1 n Hn).
  unfold Qle, inject_Z. cbn [Qnum Qden]. lia.
Qed.


Lemma in_map_eq {A B C} (f : A -> C) (g : B -> C) l1 l2 y :
  map f l1 = map g l2 -> In y l2 -> exists x, In x l1 /\ f x = g y.
Proof.
  intros Heq Hin. assert (H : In (g y) (map f l1)) by (rewrite Heq; apply in_map, Hin).
  apply in_map_iff in H. destruct H as (x & Hx & Hi). exists x. split; assumption.
Qed.

Lemma in_map_eq_rev {A B C} (f : A -> C) (g : B -> C) l1 l2 x :
  map f l1 = map g l2 -> In x l1 -> exists y, In y l2 /\ f x = g y.
Proof.
  intros Heq Hin. assert (H : In (f x) (map g l2)) by (rewrite <- Heq; apply in_map, Hin).
  apply in_map_iff in H. destruct H as (y & Hy & Hi). exists y. split; [assumption | congruence].
Qed.

(** [analyze] on a store of well-formed targets. *)
Lemma analyze_wf w :
  Forall wf_target (targets w) -> targets w <> [] ->
  exists tv td mx mn,
    In tv (targets w) /\ In td (targets w)
    /\ (forall t, In t (targets w) -> dec_le (velocity t) (velocity tv))
    /\ (forall t, In t (targets w) -> dec_le (distance td) (distance t))
    /\ ToNumber (velocity tv) = Some mx /\ ToNumber (distance td) = Some mn
    /\ analyze w
       = Some (log [Text "Analysis complete: Fastest "; Num mx;
                    Text " m/s, Closest "; Num mn; Text " km."] w).
Proof.
  intros Hwf Hne.
  destruct (wf_velocities _ Hwf) as (vs & Hvs & Hvr).
  destruct (wf_distances _ Hwf) as (ds & Hds & Hdr0).
  assert (Hdr : Forall (fun n => 0 <= n <= 4000) ds).
  { eapply Forall_impl; [|exact Hdr0]. cbn. intros; lia. }
  destruct vs as [|v vs].
  { destruct (targets w); [contradiction | discriminate]. }
  destruct ds as [|d ds].
  { destruct (targets w); [contradiction | discriminate]. }
  inversion Hvr as [|? ? Hv Hvr']; subst. inversion Hdr as [|? ? Hd Hdr']; subst.
  destruct (list_max_spec vs v) as [HMin HMle].
  destruct (list_min_spec ds d) as [Hmin Hmle].
  pose proof (list_max_range v vs Hv Hvr') as HMr.
  pose proof (list_min_range d ds Hd Hdr') as Hmr.
  destruct (in_map_eq velocity fixed1 _ _ _ Hvs HMin) as (tv & Htv & Hev).
  destruct (in_map_eq distance fixed1 _ _ _ Hds Hmin) as (td & Htd & Hed).
  exists tv, td, (tenth (list_max v vs)), (tenth (list_min d ds)).
  split; [exact Htv|]. split; [exact Htd|]. split; [|split; [|split; [|split]]].
  - intros t Ht. destruct (in_map_eq_rev velocity fixed1 _ _ _ Hvs Ht) as (n & Hn & Hen).
    rewrite Hen, Hev. rewrite Forall_forall in Hvr.
    apply dec_le_fixed1; [apply Hvr, Hn | apply HMle, Hn].
  - intros t Ht. destruct (in_map_eq_rev distance fixed1 _ _ _ Hds Ht) as (n & Hn & Hen).
    rewrite Hen, Hed. apply dec_le_fixed1; [lia | apply Hmle, Hn].
  - rewrite Hev. apply ToNumber_fixed1, HMr.
  - rewrite Hed. apply ToNumber_fixed1, Hmr.
  - unfold analyze.
    destruct (targets w) as [|t ts] eqn:Hts; [contradiction|].
    cbn [List.length Nat.eqb]. rewrite Hvs, Hds.
    rewrite (to_numbers_fixed1 _ Hvr), (to_numbers_fixed1 _ Hdr).
    rewrite (Math_max_tenths v vs Hv Hvr'), (Math_min_tenths d ds Hd Hdr').
    reflexivity.
Qed.

(** ** The CSV text *)

Lemma append_assoc (a b c : string) : ((a ++ b) ++ c = a ++ (b ++ c))%string.
Proof. induction a as [|x a IH]; [reflexivity|]. cbn [append]. rewrite IH. reflexivity. Qed.

Lemma csv_text_rows ts : csv_text ts = (csv_header ++ newline ++ csv_rows ts)%string.
Proof.
  unfold csv_text.
  assert (H : forall acc, fold_left (fun csv t => csv ++ csv_row t ++ newline)%string ts acc
                          = (acc ++ csv_rows ts)%string).
  { induction ts as [|t ts IH]; intros acc.
    - cbn. clear. induction acc as [|x acc IH]; [reflexivity|]. cbn [append]. rewrite <- IH. reflexivity.
    - cbn [fold_left csv_rows fold_right]. rewrite IH. rewrite !append_assoc. reflexivity. }
  rewrite H, append_assoc. reflexivity.
Qed.

Lemma no_newline_row t : wf_target t -> no_newline (csv_row t) = true.
Proof.
  intros [(nd & _ & Hd) (nv & _ & Hv)]. unfold csv_row. rewrite Hd, Hv.
  rewrite !no_newline_app, no_newline_of_Z, !no_newline_fixed1. reflexivity.
Qed.

Lemma split_lines_rows ts :
  Forall wf_target ts -> split_lines (csv_rows ts) = map csv_row ts.
Proof.
  induction 1 as [|t ts Ht _ IH]; [reflexivity|].
  cbn [csv_rows fold_right map]. fold (csv_rows ts).
  rewrite split_lines_line by (apply no_newline_row, Ht). rewrite IH. reflexivity.
Qed.

Lemma split_lines_csv ts :
  Forall wf_target ts -> split_lines (csv_text ts) = csv_header :: map csv_row ts.
Proof.
  intros H. rewrite csv_text_rows. rewrite split_lines_line by reflexivity.
  rewrite (split_lines_rows ts H). reflexivity.
Qed.


(** ** Which fields the functions leave alone *)

Lemma scan_loop_frame fuel : forall i w w',
  scan_loop fuel i w = Some w' ->
  timers w' = timers w /\ next_timer w' = next_timer w.
Proof.
  induction fuel as [|fuel IH]; intros i w w' Hrun; [discriminate|].
  cbn [scan_loop] in Hrun. unfold Math_random in Hrun. cbv beta iota zeta in Hrun.
  cbn [entropy drawn set_drawn] in Hrun.
  destruct (ltb _ _) in Hrun.
  - destruct (toFixed1 _) in Hrun; [|discriminate].
    destruct (toFixed1 _) in Hrun; [|discriminate].
    apply IH in Hrun. exact Hrun.
  - injection Hrun as <-. split; reflexivity.
Qed.

Lemma updateSystemStatus_frame w w' :
  updateSystemStatus w = Some w' ->
  targets w' = targets w /\ timers w' = timers w /\ next_timer w' = next_timer w.
Proof.
  unfold updateSystemStatus, Math_random. cbv beta iota zeta.
  cbn [entropy drawn set_drawn targets].
  destruct (toFixed1 _); [|discriminate].
  destruct (toFixed1 _); [|discriminate].
  destruct (toFixed1 _); [|discriminate].
  intros H. injection H as <-. repeat split.
Qed.

Lemma analyze_frame w w' :
  analyze w = Some w' ->
  targets w' = targets w /\ timers w' = timers w /\ next_timer w' = next_timer w.
Proof.
  unfold analyze. destruct (Nat.eqb _ _).
  - intros H. injection H as <-. repeat split.
  - destruct (to_numbers _); [|discriminate].
    destruct (to_numbers _); [|discriminate].
    intros H. injection H as <-. repeat split.
Qed.

Lemma generateReport_frame w :
  targets (generateReport w) = targets w
  /\ timers (generateReport w) = timers w
  /\ next_timer (generateReport w) = next_timer w.
Proof. unfold generateReport. destruct (Nat.eqb _ _); repeat split. Qed.

Lemma fire_Forall (P : timer -> Prop) k : forall ts a ts',
  (forall a', P {| timer_id := k; angle := a' |}) ->
  Forall P ts -> fire k ts = Some (a, ts') -> Forall P ts'.
Proof.
  induction ts as [|t ts IH]; intros a ts' Hk Hall Hf; [discriminate|].
  inversion Hall as [|? ? Ht Hts]; subst. cbn [fire] in Hf.
  destruct (Nat.eqb (timer_id t) k).
  - injection Hf as _ <-. destruct (360 <=? angle t + 3).
    + exact Hts.
    + constructor; [apply Hk | exact Hts].
  - destruct (fire k ts) as [[a0 ts0]|] eqn:Hf0; [|discriminate].
    injection Hf as _ <-. constructor; [exact Ht|]. eapply IH; eauto.
Qed.

Lemma fire_ids k n : forall ts a ts',
  Forall (fun t => (timer_id t < n)%nat) ts -> fire k ts = Some (a, ts') ->
  Forall (fun t => (timer_id t < n)%nat) ts'.
Proof.
  induction ts as [|t ts IH]; intros a ts' Hall Hf; [discriminate|].
  inversion Hall as [|? ? Ht Hts]; subst. cbn [fire] in Hf.
  destruct (Nat.eqb_spec (timer_id t) k) as [He|Hne].
  - injection Hf as _ <-. destruct (360 <=? angle t + 3).
    + exact Hts.
    + constructor; [cbn [timer_id]; lia | exact Hts].
  - destruct (fire k ts) as [[a0 ts0]|] eqn:Hf0; [|discriminate].
    injection Hf as _ <-. constructor; [exact Ht|]. eapply IH; eauto.
Qed.

Lemma tick_frame k w :
  targets (tick k w) = targets w /\ next_timer (tick k w) = next_timer w.
Proof. unfold tick. destruct (fire k (timers w)) as [[a ts]|]; split; reflexivity. Qed.

(** [scan] as a whole. *)
Lemma scan_sound fuel w w' :
  scan fuel w = Some w' ->
  (8 <= List.length (targets w') <= 10)%nat
  /\ map id (targets w') = ids_upto (List.length (targets w'))
  /\ Forall wf_target (targets w')
  /\ timers w' = timers w ++ [{| timer_id := next_timer w; angle := 0 |}]
  /\ next_timer w' = S (next_timer w).
Proof.
  unfold scan. intros H.
  destruct (scan_loop fuel 0 _) as [w1|] eqn:Hloop; [|discriminate].
  destruct (updateSystemStatus _) as [w2|] eqn:Hstat; [|discriminate].
  injection H as <-.
  destruct (scan_loop_sound fuel 0 _ _ ltac:(lia) Hloop) as (new & Htg & Hn & Hids & Hwf).
  destruct (scan_loop_frame _ _ _ _ Hloop) as [Htm Hnx].
  destruct (updateSystemStatus_frame _ _ Hstat) as (Htg2 & Htm2 & Hnx2).
  cbn [targets timers next_timer log set_clock set_logArea set_targets set_markerLayer
       updateTable animateRadar set_targetTable set_timers set_next_timer app] in *.
  rewrite Htg2, Htm2, Hnx2, Htg, Htm, Hnx.
  split; [lia|]. split; [exact Hids|]. split; [exact Hwf|]. split; reflexivity.
Qed.

Lemma scan_total fuel w :
  (11 <= fuel)%nat -> exists w', scan fuel w = Some w'.
Proof.
  intros Hf. unfold scan.
  match goal with
  | |- context [scan_loop fuel 0 ?W] =>
      destruct (scan_loop_total fuel 0 W ltac:(lia) ltac:(lia)) as (w1 & Hloop)
  end.
  rewrite Hloop.
  destruct (updateSystemStatus_spec (animateRadar (updateTable w1))) as (w2 & ? & ? & ? & ? & Hs & _).
  rewrite Hs. eexists. reflexivity.
Qed.


(** ** Invariants of the reachable worlds *)

Lemma clearLogs_targets w : targets (clearLogs w) = [].
Proof. reflexivity. Qed.

Lemma executeCommand_cases fuel w :
  executeCommand fuel w = scan fuel w
  \/ executeCommand fuel w = Some (generateReport w)
  \/ executeCommand fuel w = analyze w
  \/ executeCommand fuel w = Some (clearLogs w)
  \/ executeCommand fuel w = Some (showHelp w).
Proof.
  unfold executeCommand.
  destruct (String.eqb _ "scan"); [tauto|].
  destruct (String.eqb _ "report"); [tauto|].
  destruct (String.eqb _ "analyze"); [tauto|].
  destruct (String.eqb _ "clear"); tauto.
Qed.

Lemma step_wf fuel ev w w' :
  Forall wf_target (targets w) -> step fuel ev w = Some w' ->
  Forall wf_target (targets w').
Proof.
  intros Hwf Hstep.
  assert (Hscan : forall w1, scan fuel w = Some w1 -> Forall wf_target (targets w1)).
  { intros w1 H. apply scan_sound in H. tauto. }
  assert (Han : forall w1, analyze w = Some w1 -> Forall wf_target (targets w1)).
  { intros w1 H. apply analyze_frame in H. destruct H as [-> _]. exact Hwf. }
  destruct ev; cbn [step] in Hstep.
  - injection Hstep as <-. exact Hwf.
  - destruct (executeCommand_cases fuel w) as [E|[E|[E|[E|E]]]]; rewrite E in Hstep.
    + apply Hscan, Hstep.
    + injection Hstep as <-. destruct (generateReport_frame w) as [-> _]. exact Hwf.
    + apply Han, Hstep.
    + injection Hstep as <-. constructor.
    + injection Hstep as <-. exact Hwf.
  - apply Hscan, Hstep.
  - injection Hstep as <-. destruct (generateReport_frame w) as [-> _]. exact Hwf.
  - apply Han, Hstep.
  - injection Hstep as <-. constructor.
  - injection Hstep as <-. destruct (tick_frame k w) as [-> _]. exact Hwf.
Qed.

Lemma reachable_wf w : reachable w -> Forall wf_target (targets w).
Proof.
  induction 1 as [e|fuel ev w w' _ IH Hstep].
  - constructor.
  - eapply step_wf; eauto.
Qed.

Lemma step_fresh fuel ev w w' :
  fresh_timers w -> step fuel ev w = Some w' -> fresh_timers w'.
Proof.
  unfold fresh_timers. intros Hfr Hstep.
  assert (Hscan : forall w1, scan fuel w = Some w1 ->
            Forall (fun t => (timer_id t < next_timer w1)%nat) (timers w1)).
  { intros w1 H. apply scan_sound in H. destruct H as (_ & _ & _ & -> & ->).
    apply Forall_app. split.
    - eapply Forall_impl; [|exact Hfr]. cbn. intros; lia.
    - constructor; [cbn; lia | constructor]. }
  assert (Han : forall w1, analyze w = Some w1 ->
            Forall (fun t => (timer_id t < next_timer w1)%nat) (timers w1)).
  { intros w1 H. apply analyze_frame in H. destruct H as (_ & -> & ->). exact Hfr. }
  assert (Hrep : Forall (fun t => (timer_id t < next_timer (generateReport w))%nat)
                   (timers (generateReport w))).
  { destruct (generateReport_frame w) as (_ & -> & ->). exact Hfr. }
  assert (Htick : forall k, Forall (fun t => (timer_id t < next_timer (tick k w))%nat)
                              (timers (tick k w))).
  { intros k. unfold tick. destruct (fire k (timers w)) as [[a ts]|] eqn:Hf; [|exact Hfr].
    cbn [timers next_timer set_timers set_canvas]. eapply fire_ids; eauto. }
  destruct ev; cbn [step] in Hstep.
  - injection Hstep as <-. exact Hfr.
  - destruct (executeCommand_cases fuel w) as [E|[E|[E|[E|E]]]]; rewrite E in Hstep.
    + apply Hscan, Hstep.
    + injection Hstep as <-. exact Hrep.
    + apply Han, Hstep.
    + injection Hstep as <-. exact Hfr.
    + injection Hstep as <-. exact Hfr.
  - apply Hscan, Hstep.
  - injection Hstep as <-. exact Hrep.
  - apply Han, Hstep.
  - injection Hstep as <-. exact Hfr.
  - injection Hstep as <-. apply Htick.
Qed.

Lemma reachable_fresh w : reachable w -> fresh_timers w.
Proof.
  induction 1 as [e|fuel ev w w' _ IH Hstep].
  - constructor.
  - eapply step_fresh; eauto.
Qed.


(** ** The sweep *)

Lemma fire_absent k : forall ts,
  Forall (fun t => timer_id t <> k) ts -> fire k ts = None.
Proof.
  induction 1 as [|t ts Ht _ IH]; [reflexivity|].
  cbn [fire]. destruct (Nat.eqb_spec (timer_id t) k); [contradiction|].
  rewrite IH. reflexivity.
Qed.

Lemma fire_last k a : forall ts,
  Forall (fun t => timer_id t <> k) ts ->
  fire k (ts ++ [{| timer_id := k; angle := a |}])
  = Some (a, ts ++ (if 360 <=? a + 3 then []
                    else [{| timer_id := k; angle := a + 3 |}])).
Proof.
  induction 1 as [|t ts Ht _ IH].
  - cbn [app fire timer_id angle]. rewrite Nat.eqb_refl. reflexivity.
  - cbn [app fire]. destruct (Nat.eqb_spec (timer_id t) k); [contradiction|].
    rewrite IH. reflexivity.
Qed.

Lemma fresh_absent w :
  fresh_timers w -> Forall (fun t => timer_id t <> next_timer w) (timers w).
Proof.
  unfold fresh_timers. intros H. eapply Forall_impl; [|exact H]. cbn. intros; lia.
Qed.

Lemma sweep_frames_S n :
  sweep_frames (S n) = sweep_frames n ++ frame (3 * Z.of_nat n).
Proof.
  unfold sweep_frames. rewrite seq_S, map_app, flat_map_app. cbn [map flat_map Nat.add].
  rewrite app_nil_r. reflexivity.
Qed.

(** The world after [n] ticks of a sweep that is still running. *)
Lemma sweep_running w n :
  fresh_timers w -> (n < 120)%nat ->
  Nat.iter n (tick (next_timer w)) (animateRadar w)
  = set_timers (timers w ++ [{| timer_id := next_timer w; angle := 3 * Z.of_nat n |}])
      (set_canvas (canvas w ++ sweep_frames n) (animateRadar w)).
Proof.
  intros Hfr. induction n as [|n IH]; intros Hn.
  - unfold sweep_frames. cbn [Nat.iter nat_rect seq map flat_map].
    rewrite app_nil_r. destruct w. reflexivity.
  - rewrite Nat.iter_succ, IH by lia. unfold tick.
    cbn [timers set_timers set_canvas canvas animateRadar set_next_timer].
    rewrite (fire_last _ _ _ (fresh_absent w Hfr)).
    destruct (Z.leb_spec 360 (3 * Z.of_nat n + 3)) as [Hge|Hlt]; [lia|].
    rewrite sweep_frames_S, app_assoc.
    replace (3 * Z.of_nat (S n)) with (3 * Z.of_nat n + 3) by lia.
    reflexivity.
Qed.

(** The world a finished sweep leaves. *)
Lemma sweep_done w :
  fresh_timers w ->
  Nat.iter 120 (tick (next_timer w)) (animateRadar w)
  = set_timers (timers w) (set_canvas (canvas w ++ sweep_frames 120) (animateRadar w)).
Proof.
  intros Hfr. change 120%nat with (S 119). rewrite Nat.iter_succ.
  rewrite (sweep_running w 119 Hfr) by lia. unfold tick.
  cbn [timers set_timers set_canvas canvas animateRadar set_next_timer].
  rewrite (fire_last _ _ _ (fresh_absent w Hfr)).
  change (360 <=? 3 * Z.of_nat 119 + 3) with true.
  rewrite app_nil_r, (sweep_frames_S 119), app_assoc. reflexivity.
Qed.

Lemma sweep_after w n :
  fresh_timers w -> (120 <= n)%nat ->
  Nat.iter n (tick (next_timer w)) (animateRadar w)
  = Nat.iter 120 (tick (next_timer w)) (animateRadar w).
Proof.
  intros Hfr Hn. induction n as [|n IH]; [lia|].
  destruct (Nat.eq_dec (S n) 120) as [->|Hne]; [reflexivity|].
  rewrite Nat.iter_succ, IH by lia. rewrite (sweep_done w Hfr). unfold tick.
  cbn [timers set_timers set_canvas].
  rewrite (fire_absent _ _ (fresh_absent w Hfr)). reflexivity.
Qed.

(** ** Events that are not scans *)

Lemma quiet_step_empty w w' :
  targets w = [] -> quiet_step w w' -> targets w' = [].
Proof.
  intros He (fuel & ev & Hq & Hstep).
  destruct ev; cbn [step is_scan_event] in *; try discriminate.
  - injection Hstep as <-. exact He.
  - unfold executeCommand in Hstep. rewrite Hq in Hstep.
    destruct (String.eqb _ "report").
    { injection Hstep as <-. destruct (generateReport_frame w) as [-> _]. exact He. }
    destruct (String.eqb _ "analyze").
    { apply analyze_frame in Hstep. destruct Hstep as [-> _]. exact He. }
    destruct (String.eqb _ "clear"); injection Hstep as <-; [reflexivity | exact He].
  - injection Hstep as <-. destruct (generateReport_frame w) as [-> _]. exact He.
  - apply analyze_frame in Hstep. destruct Hstep as [-> _]. exact He.
  - injection Hstep as <-. reflexivity.
  - injection Hstep as <-. destruct (tick_frame k w) as [-> _]. exact He.
Qed.

Lemma analyze_empty w :
  targets w = [] -> analyze w = Some (log [Text "No data to analyze."] w).
Proof. intros H. unfold analyze. rewrite H. reflexivity. Qed.

End RadarFacts.

(** * Properties of the page *)

Import JSNumber JSString Radar.
Import NumberFacts StringFacts RandomFacts RadarFacts.

Lemma ids_upto_NoDup n : NoDup (ids_upto n).
Proof.
  unfold ids_upto. apply Injective_map_NoDup.
  - intros a b H. lia.
  - apply seq_NoDup.
Qed.

Lemma scan_forgets_targets fuel ts w : scan fuel (set_targets ts w) = scan fuel w.
Proof. reflexivity. Qed.

(** C1.  Every execution of [scan()] ends (eleven rounds of the loop are
enough) and leaves between 8 and 10 targets whose ids are 1, 2, ...,
count in insertion order, hence unique; the list it started from plays
no part in the result. *)
Theorem scan_count_and_ids (fuel : nat) (w : world) :
  (11 <= fuel)%nat ->
  exists w',
    scan fuel w = Some w'
    /\ (8 <= List.length (targets w') <= 10)%nat
    /\ map id (targets w') = ids_upto (List.length (targets w'))
    /\ NoDup (map id (targets w'))
    /\ (forall ts, scan fuel (set_targets ts w) = Some w').
Proof.
  intros Hfuel. destruct (scan_total fuel w Hfuel) as (w' & Hrun).
  destruct (scan_sound fuel w w' Hrun) as (Hn & Hids & _).
  exists w'. split; [exact Hrun|]. split; [exact Hn|]. split; [exact Hids|]. split.
  - rewrite Hids. apply ids_upto_NoDup.
  - intros ts. rewrite scan_forgets_targets. exact Hrun.
Qed.

Lemma scan_count_and_ids_witness :
  exists w',
    scan 11 sample_start = Some w'
    /\ (8 <= List.length (targets w') <= 10)%nat
    /\ map id (targets w') = ids_upto (List.length (targets w'))
    /\ NoDup (map id (targets w'))
    /\ (forall ts, scan 11 (set_targets ts sample_start) = Some w').
Proof. apply (scan_count_and_ids 11 sample_start). lia. Defined.

(** The order [analyze] uses is the order of the values: as text, 10.0
sorts before 9.5, while [Math.max] of the two strings is the Number 10. *)
Example numeric_not_lexical :
  option_map Math_max (to_numbers ["9.5"; "10.0"]%string) = ToNumber "10.0"
  /\ String.ltb "10.0" "9.5" = true
  /\ ToNumber "10.0" = Some (JSNumber.of_Z 10).
Proof. vm_compute. repeat split. Qed.

(** C2.  [analyze()] on an empty store only logs its notice.  On a
non-empty store it logs the values of the velocity of a target [tv] and
of the distance of a target [td], where no target has a larger decimal
velocity than [tv] and none a smaller decimal distance than [td]: the
comparison is by value, since [Math.max] and [Math.min] convert the
stored strings to Numbers. *)
Theorem analyze_reports_extremes (w : world) :
  reachable w ->
  match targets w with
  | [] => analyze w = Some (log [Text "No data to analyze."] w)
  | _ :: _ =>
      exists tv td mx mn,
        In tv (targets w) /\ In td (targets w)
        /\ (forall t, In t (targets w) -> dec_le (velocity t) (velocity tv))
        /\ (forall t, In t (targets w) -> dec_le (distance td) (distance t))
        /\ ToNumber (velocity tv) = Some mx /\ ToNumber (distance td) = Some mn
        /\ analyze w
           = Some (log [Text "Analysis complete: Fastest "; Num mx;
                        Text " m/s, Closest "; Num mn; Text " km."] w)
  end.
Proof.
  intros Hr. destruct (targets w) as [|t ts] eqn:Hts.
  - apply analyze_empty, Hts.
  - rewrite <- Hts. apply analyze_wf.
    + apply reachable_wf, Hr.
    + rewrite Hts. discriminate.
Qed.

Lemma analyze_reports_extremes_witness :
  match targets sample with
  | [] => analyze sample = Some (log [Text "No data to analyze."] sample)
  | _ :: _ =>
      exists tv td mx mn,
        In tv (targets sample) /\ In td (targets sample)
        /\ (forall t, In t (targets sample) -> dec_le (velocity t) (velocity tv))
        /\ (forall t, In t (targets sample) -> dec_le (distance td) (distance t))
        /\ ToNumber (velocity tv) = Some mx /\ ToNumber (distance td) = Some mn
        /\ analyze sample
           = Some (log [Text "Analysis complete: Fastest "; Num mx;
                        Text " m/s, Closest "; Num mn; Text " km."] sample)
  end.
Proof.
  apply (analyze_reports_extremes sample).
  apply (reach_step 11 Scan sample_start sample (reach_onload _)).
  vm_compute. reflexivity.
Defined.

(** C3.  [generateReport()] on an empty store only logs its notice (the
download list is the old one).  On a non-empty store it offers one file
named radar_report.csv whose lines are the header followed by one row
per target in store order: count + 1 lines. *)
Theorem generateReport_csv (w : world) :
  reachable w ->
  match targets w with
  | [] =>
      generateReport w = log [Text "No targets to report."] w
      /\ downloads (generateReport w) = downloads w
  | _ :: _ =>
      exists csv,
        generateReport w
        = log [Text "Report downloaded as radar_report.csv"]
            (set_downloads
               (downloads w ++ [{| filename := "radar_report.csv";
                                   mime := "text/csv"; content := csv |}]) w)
        /\ split_lines csv = csv_header :: map csv_row (targets w)
        /\ List.length (split_lines csv) = S (List.length (targets w))
  end.
Proof.
  intros Hr. pose proof (reachable_wf w Hr) as Hwf.
  unfold generateReport. destruct (targets w) as [|t ts] eqn:Hts.
  - split; reflexivity.
  - cbn [List.length Nat.eqb]. exists (csv_text (t :: ts)).
    split; [reflexivity|].
    rewrite (split_lines_csv _ Hwf). split; [reflexivity|].
    cbn [List.length]. rewrite length_map. reflexivity.
Qed.

Lemma generateReport_csv_witness :
  match targets sample with
  | [] =>
      generateReport sample = log [Text "No targets to report."] sample
      /\ downloads (generateReport sample) = downloads sample
  | _ :: _ =>
      exists csv,
        generateReport sample
        = log [Text "Report downloaded as radar_report.csv"]
            (set_downloads
               (downloads sample ++ [{| filename := "radar_report.csv";
                                        mime := "text/csv"; content := csv |}]) sample)
        /\ split_lines csv = csv_header :: map csv_row (targets sample)
        /\ List.length (split_lines csv) = S (List.length (targets sample))
  end.
Proof.
  apply (generateReport_csv sample).
  apply (reach_step 11 Scan sample_start sample (reach_onload _)).
  vm_compute. reflexivity.
Defined.

(** C4.  [executeCommand()] lower-cases the input and compares the whole
of it with the four command words: the matching action runs, and every
other input shows the help.  So SCAN scans, while xyz, a prefix of a
command or a command followed by an argument show the help. *)
Theorem executeCommand_dispatch (fuel : nat) (w : world) :
  let cmd := toLowerCase (commandInput w) in
  (cmd = "scan"%string -> executeCommand fuel w = scan fuel w)
  /\ (cmd = "report"%string -> executeCommand fuel w = Some (generateReport w))
  /\ (cmd = "analyze"%string -> executeCommand fuel w = analyze w)
  /\ (cmd = "clear"%string -> executeCommand fuel w = Some (clearLogs w))
  /\ (cmd <> "scan"%string -> cmd <> "report"%string ->
      cmd <> "analyze"%string -> cmd <> "clear"%string ->
      executeCommand fuel w = Some (showHelp w))
  /\ executeCommand fuel (set_commandInput "SCAN" w)
     = scan fuel (set_commandInput "SCAN" w)
  /\ executeCommand fuel (set_commandInput "xyz" w)
     = Some (showHelp (set_commandInput "xyz" w))
  /\ executeCommand fuel (set_commandInput "sca" w)
     = Some (showHelp (set_commandInput "sca" w))
  /\ executeCommand fuel (set_commandInput "scan now" w)
     = Some (showHelp (set_commandInput "scan now" w)).
Proof.
  intros cmd. unfold executeCommand. fold cmd.
  split; [intros ->; reflexivity|].
  split; [intros ->; reflexivity|].
  split; [intros ->; reflexivity|].
  split; [intros ->; reflexivity|].
  split.
  - intros H1 H2 H3 H4.
    apply String.eqb_neq in H1, H2, H3, H4. rewrite H1, H2, H3, H4. reflexivity.
  - repeat split.
Qed.

(** C5.  A sweep started by [animateRadar()] begins at angle 0; each
tick paints one frame at the current angle and adds 3 to it; the 120th
tick brings the angle to 360 and clears the interval, so that 120 frames
were painted and later ticks change nothing. *)
Theorem sweep_stops_after_120_ticks (w : world) :
  reachable w ->
  let k := next_timer w in
  let run n := Nat.iter n (tick k) (animateRadar w) in
  (forall n, (n < 120)%nat ->
     timers (run n) = timers w ++ [{| timer_id := k; angle := 3 * Z.of_nat n |}]
     /\ canvas (run n) = canvas w ++ sweep_frames n)
  /\ timers (run 120%nat) = timers w
  /\ canvas (run 120%nat) = canvas w ++ sweep_frames 120
  /\ (forall n, (120 <= n)%nat -> run n = run 120%nat).
Proof.
  intros Hr k run. pose proof (reachable_fresh w Hr) as Hfr. unfold run, k.
  split; [|split; [|split]].
  - intros n Hn. rewrite (sweep_running w n Hfr Hn). split; reflexivity.
  - rewrite (sweep_done w Hfr). reflexivity.
  - rewrite (sweep_done w Hfr). reflexivity.
  - intros n Hn. apply sweep_after; assumption.
Qed.

Lemma sweep_stops_after_120_ticks_witness :
  let w := sample in
  let k := next_timer w in
  let run n := Nat.iter n (tick k) (animateRadar w) in
  (forall n, (n < 120)%nat ->
     timers (run n) = timers w ++ [{| timer_id := k; angle := 3 * Z.of_nat n |}]
     /\ canvas (run n) = canvas w ++ sweep_frames n)
  /\ timers (run 120%nat) = timers w
  /\ canvas (run 120%nat) = canvas w ++ sweep_frames 120
  /\ (forall n, (120 <= n)%nat -> run n = run 120%nat).
Proof.
  apply (sweep_stops_after_120_ticks sample).
  apply (reach_step 11 Scan sample_start sample (reach_onload _)).
  vm_compute. reflexivity.
Defined.

(** C6.  [clearLogs()] empties the target store, and after any number of
further events none of which runs a scan, [analyze()] takes its
empty-store branch: it only logs the notice. *)
Theorem clear_then_analyze (w w1 : world) :
  clos_refl_trans world quiet_step (clearLogs w) w1 ->
  targets (clearLogs w) = []
  /\ targets w1 = []
  /\ analyze w1 = Some (log [Text "No data to analyze."] w1).
Proof.
  intros Hq. split; [reflexivity|].
  assert (He : targets w1 = []).
  { apply clos_rt_rt1n in Hq.
    assert (Hgen : forall a b, clos_refl_trans_1n world quiet_step a b ->
                               targets a = [] -> targets b = []).
    { intros a b H. induction H as [a|a b c Hab _ IH]; intros Ha; [exact Ha|].
      apply IH. eapply quiet_step_empty; eauto. }
    apply (Hgen _ _ Hq). reflexivity. }
  split; [exact He | apply analyze_empty, He].
Qed.

Lemma clear_then_analyze_witness :
  targets (clearLogs sample) = []
  /\ targets (tick 0 (generateReport (clearLogs sample))) = []
  /\ analyze (tick 0 (generateReport (clearLogs sample)))
     = Some (log [Text "No data to analyze."] (tick 0 (generateReport (clearLogs sample)))).
Proof.
  apply (clear_then_analyze sample (tick 0 (generateReport (clearLogs sample)))).
  apply rt_trans with (y := generateReport (clearLogs sample)); apply rt_step.
  - exists 11%nat, Report. split; reflexivity.
  - exists 11%nat, (Tick 0). split; reflexivity.
Defined.

(** C7.  Every target that [scan()] produces stores a distance whose
decimal value lies in [0, 200] and a velocity whose decimal value lies
in [0, 400]. *)
Theorem scan_targets_in_range (fuel : nat) (w w' : world) :
  scan fuel w = Some w' ->
  forall t, In t (targets w') ->
    dec_between 0 200 (distance t) /\ dec_between 0 400 (velocity t).
Proof.
  intros Hrun t Ht. destruct (scan_sound fuel w w' Hrun) as (_ & _ & Hwf & _).
  rewrite Forall_forall in Hwf. destruct (Hwf t Ht) as [(nd & Hnd & ->) (nv & Hnv & ->)].
  split; apply dec_between_fixed1; lia.
Qed.

Lemma scan_targets_in_range_witness :
  Forall (fun t => dec_between 0 200 (distance t) /\ dec_between 0 400 (velocity t))
         (targets sample).
Proof.
  apply Forall_forall.
  apply (scan_targets_in_range 11 sample_start sample).
  vm_compute. reflexivity.
Defined.

(** C8.  [updateSystemStatus()] always returns, and writes: the number
of targets; a wind speed with one decimal (between 10.0 and 30.0); one of
the three weather conditions, the one numbered by the third of the unit
interval in which its random draw lies; a CPU load with one decimal
between 30.0 and 90.0; a temperature with one decimal between 25.0 and
35.0.  Every scan ends with such an update. *)
Theorem status_update_fields (w : world) :
  (exists w' nw k nc nt,
     updateSystemStatus w = Some w'
     /\ panel w' = {| activeTargets := JSString.of_nat (List.length (targets w));
                      wind := (fixed1 nw ++ " km/h")%string;
                      weather := nth k conditions ""%string;
                      cpuLoad := (fixed1 nc ++ "%")%string;
                      temperature := (fixed1 nt ++ "°C")%string |}
     /\ is_fixed1 (fixed1 nw) = true /\ dec_between 10 30 (fixed1 nw)
     /\ (k < 3)%nat
     /\ (forall j, third_of (ud_value (entropy w (S (drawn w)))) j -> k = j)
     /\ is_fixed1 (fixed1 nc) = true /\ dec_between 30 90 (fixed1 nc)
     /\ is_fixed1 (fixed1 nt) = true /\ dec_between 25 35 (fixed1 nt))
  /\ (forall fuel w', scan fuel w = Some w' ->
        exists w1 w2, updateSystemStatus w1 = Some w2
                      /\ targets w1 = targets w' /\ panel w' = panel w2).
Proof.
  split.
  - destruct (updateSystemStatus_spec w)
      as (w' & nw & k & nc & nt & Hrun & _ & Hp & Hnw & Hk & Hnc & Hnt & Hthird).
    exists w', nw, k, nc, nt.
    split; [exact Hrun|]. split; [exact Hp|].
    split; [apply is_fixed1_fixed1; lia|]. split; [apply dec_between_fixed1; lia|].
    split; [exact Hk|]. split; [exact Hthird|].
    split; [apply is_fixed1_fixed1; lia|]. split; [apply dec_between_fixed1; lia|].
    split; [apply is_fixed1_fixed1; lia | apply dec_between_fixed1; lia].
  - intros fuel w' Hrun. unfold scan in Hrun.
    destruct (scan_loop fuel 0 _) as [w1|] eqn:Hloop; [|discriminate].
    destruct (updateSystemStatus _) as [w2|] eqn:Hstat; [|discriminate].
    injection Hrun as <-.
    exists (animateRadar (updateTable w1)), w2. split; [exact Hstat|].
    destruct (updateSystemStatus_frame _ _ Hstat) as (Htg & _). split.
    + cbn [targets log set_clock set_logArea]. rewrite Htg. reflexivity.
    + reflexivity.
Qed.

(** C9.  Neither [generateReport()] nor [analyze()] changes the target
list. *)
Theorem report_analyze_keep_targets (w : world) :
  targets (generateReport w) = targets w
  /\ (forall w', analyze w = Some w' -> targets w' = targets w).
Proof.
  split.
  - apply generateReport_frame.
  - intros w' H. apply analyze_frame in H. tauto.
Qed.

(** C10.  Every target that [scan()] produces stores distance and
velocity as strings of digits with exactly one digit after the dot, and
every data row of the CSV that [generateReport()] then writes is the id,
the distance string and the velocity string of one target, in store
order, joined by commas. *)
Theorem scan_stores_fixed1_strings (fuel : nat) (w w' : world) :
  scan fuel w = Some w' ->
  (forall t, In t (targets w') ->
     is_fixed1 (distance t) = true /\ is_fixed1 (velocity t) = true)
  /\ exists f,
       downloads (generateReport w') = downloads w' ++ [f]
       /\ tl (split_lines (content f)) = map csv_row (targets w')
       /\ (forall t, csv_row t = (JSString.of_Z (id t) ++ "," ++ distance t ++ "," ++ velocity t)%string).
Proof.
  intros Hrun. destruct (scan_sound fuel w w' Hrun) as (Hn & _ & Hwf & _).
  split.
  - intros t Ht. rewrite Forall_forall in Hwf.
    destruct (Hwf t Ht) as [(nd & Hnd & ->) (nv & Hnv & ->)].
    split; apply is_fixed1_fixed1; lia.
  - unfold generateReport. destruct (targets w') as [|t ts] eqn:Hts.
    + cbn [List.length] in Hn. lia.
    + cbn [List.length Nat.eqb]. eexists. split; [reflexivity|].
      cbn [content]. rewrite (split_lines_csv _ Hwf). split; reflexivity.
Qed.

Lemma scan_stores_fixed1_strings_witness :
  (forall t, In t (targets sample) ->
     is_fixed1 (distance t) = true /\ is_fixed1 (velocity t) = true)
  /\ exists f,
       downloads (generateReport sample) = downloads sample ++ [f]
       /\ tl (split_lines (content f)) = map csv_row (targets sample)
       /\ (forall t, csv_row t = (JSString.of_Z (id t) ++ "," ++ distance t ++ "," ++ velocity t)%string).
Proof.
  apply (scan_stores_fixed1_strings 11 sample_start sample).
  vm_compute. reflexivity.
Defined.

(** * Further properties of the page *)

(** The loop of [scan] in full: what it appends, which random values it
consumes and which tests it saw. *)
Lemma scan_loop_detail fuel : forall i w w',
  scan_loop fuel i w = Some w' ->
  exists new,
    targets w' = targets w ++ new
    /\ markerLayer w' = markerLayer w ++ map marker_of new
    /\ drawn w' = (drawn w + 5 * List.length new + 1)%nat
    /\ entropy w' = entropy w
    /\ logArea w' = logArea w /\ clock w' = clock w
    /\ (forall j, (j < List.length new)%nat ->
          bound_test w (drawn w + 5 * j) (i + Z.of_nat j) = true
          /\ roll w (drawn w + 5 * j + 1) (i + Z.of_nat j) = nth_error new j)
    /\ bound_test w (drawn w + 5 * List.length new) (i + Z.of_nat (List.length new))
       = false.
Proof.
  induction fuel as [|fuel IH]; intros i w w' Hrun; [discriminate|].
  cbn [scan_loop] in Hrun. unfold Math_random in Hrun. cbv beta iota zeta in Hrun.
  cbn [entropy drawn set_drawn] in Hrun.
  destruct (ltb _ _) eqn:Htest in Hrun.
  - destruct (toFixed1 _) as [d|] eqn:Hd in Hrun; [|discriminate].
    destruct (toFixed1 _) as [v|] eqn:Hv in Hrun; [|discriminate].
    apply IH in Hrun.
    destruct Hrun as (new & Htg & Hmk & Hdr & Hen & Hlog & Hclk & Htests & Hlast).
    cbn [targets markerLayer drawn entropy logArea clock
         set_targets set_markerLayer set_drawn] in Htg, Hmk, Hdr, Hen, Hlog, Hclk.
    rewrite <- app_assoc in Htg, Hmk.
    eexists. split; [exact Htg|]. split; [exact Hmk|].
    cbn [app List.length]. split; [lia|]. split; [exact Hen|].
    split; [exact Hlog|]. split; [exact Hclk|]. split.
    + intros [|j] Hj.
      * rewrite Nat.mul_0_r, Nat.add_0_r, Z.add_0_r. split; [exact Htest|].
        unfold roll. replace (drawn w + 1)%nat with (S (drawn w)) by lia.
        rewrite Hd, Hv. reflexivity.
      * destruct (Htests j ltac:(lia)) as [Ht Hr].
        unfold bound_test, roll in *.
        cbn [drawn entropy set_targets set_markerLayer set_drawn] in Ht, Hr.
        replace (drawn w + 5 * S j)%nat with (S (S (S (S (S (drawn w))))) + 5 * j)%nat by lia.
        replace (i + Z.of_nat (S j)) with (i + 1 + Z.of_nat j) by lia.
        split; [exact Ht|].
        replace (S (S (S (S (S (drawn w))))) + 5 * j + 1)%nat
          with (S (S (S (S (S (drawn w))))) + 5 * j + 1)%nat by lia.
        exact Hr.
    + unfold bound_test in *.
      cbn [drawn entropy set_targets set_markerLayer set_drawn] in Hlast.
      replace (drawn w + 5 * S (List.length new))%nat
        with (S (S (S (S (S (drawn w))))) + 5 * List.length new)%nat by lia.
      replace (i + Z.of_nat (S (List.length new))) with (i + 1 + Z.of_nat (List.length new)) by lia.
      exact Hlast.
  - injection Hrun as <-. exists [].
    cbn [targets markerLayer drawn entropy logArea clock set_drawn List.length map].
    rewrite !app_nil_r. split; [reflexivity|]. split; [reflexivity|].
    split; [lia|]. split; [reflexivity|]. split; [reflexivity|]. split; [reflexivity|].
    split; [intros j Hj; lia|].
    rewrite Nat.mul_0_r, Nat.add_0_r, Z.add_0_r. exact Htest.
Qed.

Lemma updateSystemStatus_keeps w w' :
  updateSystemStatus w = Some w' ->
  targets w' = targets w /\ markerLayer w' = markerLayer w
  /\ targetTable w' = targetTable w /\ logArea w' = logArea w
  /\ clock w' = clock w /\ timers w' = timers w
  /\ drawn w' = (drawn w + 4)%nat /\ entropy w' = entropy w.
Proof.
  unfold updateSystemStatus, Math_random. cbv beta iota zeta.
  cbn [entropy drawn set_drawn targets].
  destruct (toFixed1 _); [|discriminate].
  destruct (toFixed1 _); [|discriminate].
  destruct (toFixed1 _); [|discriminate].
  intros H. injection H as <-.
  cbn [targets markerLayer targetTable logArea clock timers drawn entropy set_panel set_drawn].
  repeat split. lia.
Qed.

(** [scan] taken apart: the world its loop leaves and the world its
status update leaves. *)
Lemma scan_parts fuel w w' :
  scan fuel w = Some w' ->
  exists w1 w2,
    scan_loop fuel 0
      (set_markerLayer [] (set_targets [] (log [Text "Scanning environment..."] w)))
    = Some w1
    /\ updateSystemStatus (animateRadar (updateTable w1)) = Some w2
    /\ w' = log [Text (JSString.of_nat (List.length (targets w2)) ++ " targets detected.")] w2.
Proof.
  unfold scan. intros H.
  destruct (scan_loop fuel 0 _) as [w1|] eqn:Hloop; [|discriminate].
  destruct (updateSystemStatus _) as [w2|] eqn:Hstat; [|discriminate].
  injection H as <-. exists w1, w2.
  repeat split; first [reflexivity | exact Hloop | exact Hstat].
Qed.

Lemma roll_box w d i t :
  roll w d i = Some t ->
  between 20 30 (lat t) /\ between 78 88 (lng t).
Proof.
  unfold roll. destruct (toFixed1 _); [|discriminate].
  destruct (toFixed1 _); [|discriminate].
  intros H. injection H as <-. cbn [lat lng]. unfold between.
  assert (H52 : 20 + 10 <= 2 ^ 52 /\ 78 + 10 <= 2 ^ 52) by (split; apply Z.lt_le_incl; reflexivity).
  destruct (add_mul_unit 20 _ 10 (unit_draw w (S (S d))) ltac:(lia) ltac:(lia) ltac:(lia)) as [H1 H2].
  destruct (add_mul_unit 78 _ 10 (unit_draw w (S (S (S d)))) ltac:(lia) ltac:(lia) ltac:(lia)) as [H3 H4].
  change (20 + 10) with 30 in H2. change (78 + 10) with 88 in H4.
  repeat split; solve [assumption | apply H2 | apply H4].
Qed.

Lemma table_fold ts : forall acc,
  fold_left (fun html t => html ++ table_row t)%string ts acc
  = (acc ++ table_rows ts)%string.
Proof.
  induction ts as [|t ts IH]; intros acc.
  - cbn. clear. induction acc as [|x acc IH]; [reflexivity|].
    cbn [append]. rewrite <- IH. reflexivity.
  - cbn [fold_left table_rows fold_right]. rewrite IH, append_assoc. reflexivity.
Qed.

(** X1.  Every target of a scan lies in the box the source draws it
from: latitude between 20 and 30, longitude between 78 and 88. *)
Theorem scan_coordinates_in_box (fuel : nat) (w w' : world) :
  scan fuel w = Some w' ->
  Forall (fun t => between 20 30 (lat t) /\ between 78 88 (lng t)) (targets w').
Proof.
  intros Hrun. destruct (scan_parts fuel w w' Hrun) as (w1 & w2 & Hloop & Hstat & ->).
  destruct (scan_loop_detail _ _ _ _ Hloop) as (new & Htg & _ & _ & _ & _ & _ & Hroll & _).
  destruct (updateSystemStatus_keeps _ _ Hstat) as (Htg2 & _).
  cbn [targets log set_clock set_logArea set_targets set_markerLayer updateTable animateRadar
       set_targetTable set_timers set_next_timer app] in *.
  rewrite Htg2, Htg. apply Forall_forall. intros t Ht.
  destruct (In_nth_error _ _ Ht) as (j & Hj).
  assert (Hlt : (j < List.length new)%nat) by (apply nth_error_Some; congruence).
  destruct (Hroll j Hlt) as [_ Hr]. rewrite Hj in Hr.
  eapply roll_box, Hr.
Qed.

Lemma scan_coordinates_in_box_witness :
  Forall (fun t => between 20 30 (lat t) /\ between 78 88 (lng t)) (targets sample).
Proof.
  apply (scan_coordinates_in_box 11 sample_start sample).
  vm_compute. reflexivity.
Defined.

(** The targets and markers a scan leaves. *)
Lemma scan_markers fuel w w' :
  scan fuel w = Some w' -> markerLayer w' = map marker_of (targets w').
Proof.
  intros Hrun. destruct (scan_parts fuel w w' Hrun) as (w1 & w2 & Hloop & Hstat & ->).
  destruct (scan_loop_detail _ _ _ _ Hloop) as (new & Htg & Hmk & _).
  destruct (updateSystemStatus_keeps _ _ Hstat) as (Htg2 & Hmk2 & _).
  cbn [targets markerLayer log set_clock set_logArea set_targets set_markerLayer updateTable
       animateRadar set_targetTable set_timers set_next_timer app] in *.
  rewrite Htg2, Hmk2, Htg, Hmk. reflexivity.
Qed.

Lemma analyze_markers w w' :
  analyze w = Some w' -> markerLayer w' = markerLayer w /\ targets w' = targets w.
Proof.
  unfold analyze. destruct (Nat.eqb _ _).
  - intros H. injection H as <-. split; reflexivity.
  - destruct (to_numbers _); [|discriminate].
    destruct (to_numbers _); [|discriminate].
    intros H. injection H as <-. split; reflexivity.
Qed.

Lemma generateReport_markers w :
  markerLayer (generateReport w) = markerLayer w /\ targets (generateReport w) = targets w.
Proof. unfold generateReport. destruct (Nat.eqb _ _); split; reflexivity. Qed.

Lemma tick_markers k w :
  markerLayer (tick k w) = markerLayer w /\ targets (tick k w) = targets w.
Proof. unfold tick. destruct (fire k (timers w)) as [[a ts]|]; split; reflexivity. Qed.

Lemma step_markers fuel ev w w' :
  markerLayer w = map marker_of (targets w) -> step fuel ev w = Some w' ->
  markerLayer w' = map marker_of (targets w').
Proof.
  intros Hinv Hstep.
  assert (Han : forall w1, analyze w = Some w1 -> markerLayer w1 = map marker_of (targets w1)).
  { intros w1 H. apply analyze_markers in H. destruct H as [-> ->]. exact Hinv. }
  assert (Hrep : markerLayer (generateReport w) = map marker_of (targets (generateReport w))).
  { destruct (generateReport_markers w) as [-> ->]. exact Hinv. }
  destruct ev; cbn [step] in Hstep.
  - injection Hstep as <-. exact Hinv.
  - destruct (executeCommand_cases fuel w) as [E|[E|[E|[E|E]]]]; rewrite E in Hstep.
    + eapply scan_markers, Hstep.
    + injection Hstep as <-. exact Hrep.
    + apply Han, Hstep.
    + injection Hstep as <-. reflexivity.
    + injection Hstep as <-. exact Hinv.
  - eapply scan_markers, Hstep.
  - injection Hstep as <-. exact Hrep.
  - apply Han, Hstep.
  - injection Hstep as <-. reflexivity.
  - injection Hstep as <-. destruct (tick_markers k w) as [-> ->]. exact Hinv.
Qed.

(** X2.  In every reachable world the map shows exactly the current
targets: one marker per target, in store order, at its coordinates and
with its popup text. *)
Theorem markers_mirror_targets (w : world) :
  reachable w -> markerLayer w = map marker_of (targets w).
Proof.
  induction 1 as [e|fuel ev w w' _ IH Hstep].
  - reflexivity.
  - eapply step_markers; eauto.
Qed.

Lemma markers_mirror_targets_witness :
  markerLayer sample = map marker_of (targets sample).
Proof.
  apply (markers_mirror_targets sample).
  apply (reach_step 11 Scan sample_start sample (reach_onload _)).
  vm_compute. reflexivity.
Defined.

Lemma scan_loop_table fuel : forall i w html,
  scan_loop fuel i (set_targetTable html w)
  = option_map (set_targetTable html) (scan_loop fuel i w).
Proof.
  induction fuel as [|fuel IH]; intros i w html; [reflexivity|].
  cbn [scan_loop]. unfold Math_random. cbv beta iota zeta.
  cbn [entropy drawn set_targetTable set_drawn].
  destruct (ltb _ _); [|reflexivity].
  destruct (toFixed1 _); [|reflexivity].
  destruct (toFixed1 _); [|reflexivity].
  match goal with
  | |- scan_loop _ _ ?A = option_map _ (scan_loop _ _ ?B) =>
      change A with (set_targetTable html B)
  end.
  apply IH.
Qed.

Lemma scan_table fuel w w' :
  scan fuel w = Some w' -> targetTable w' = table_rows (targets w').
Proof.
  intros Hrun.
  destruct (scan_parts fuel w w' Hrun) as (w1 & w2 & Hloop & Hstat & ->).
  destruct (updateSystemStatus_keeps _ _ Hstat) as (Htg2 & _ & Htb2 & _).
  cbn [targets targetTable log set_clock set_logArea updateTable animateRadar
       set_targetTable set_timers set_next_timer] in *.
  rewrite Htg2, Htb2. unfold updateTable.
  cbn [targetTable set_targetTable]. rewrite table_fold. reflexivity.
Qed.

(** X3.  After a scan the table body holds one row per target of the
scan, in store order, and nothing of what it held before. *)
Theorem scan_table_rows (fuel : nat) (w w' : world) :
  scan fuel w = Some w' ->
  targetTable w' = table_rows (targets w')
  /\ forall html, scan fuel (set_targetTable html w) = Some w'.
Proof.
  intros Hrun. split.
  - apply (scan_table fuel w w' Hrun).
  - intros html. rewrite <- Hrun. unfold scan.
    change (set_markerLayer [] (set_targets [] (log [Text "Scanning environment..."]
              (set_targetTable html w))))
      with (set_targetTable html (set_markerLayer [] (set_targets []
              (log [Text "Scanning environment..."] w)))).
    rewrite scan_loop_table.
    destruct (scan_loop fuel 0 _) as [w1|]; reflexivity.
Qed.

Lemma scan_table_rows_witness :
  targetTable sample = table_rows (targets sample)
  /\ forall html, scan 11 (set_targetTable html sample_start) = Some sample.
Proof.
  apply (scan_table_rows 11 sample_start sample).
  vm_compute. reflexivity.
Defined.

Lemma table_rows_nonempty t ts : table_rows (t :: ts) <> ""%string.
Proof. cbn [table_rows fold_right]. unfold table_row. discriminate. Qed.

(** X4.  [clearLogs()] after a scan empties the store and the map, but
not the table, the status panel or the running sweeps: the table still
lists the targets of the scan, the panel still shows their number, and
the interval of the sweep keeps running. *)
Theorem clear_leaves_display (fuel : nat) (w w' : world) :
  scan fuel w = Some w' ->
  targets (clearLogs w') = [] /\ markerLayer (clearLogs w') = []
  /\ targetTable (clearLogs w') = table_rows (targets w')
  /\ targetTable (clearLogs w') <> ""%string
  /\ activeTargets (panel (clearLogs w')) = JSString.of_nat (List.length (targets w'))
  /\ timers (clearLogs w') = timers w ++ [{| timer_id := next_timer w; angle := 0 |}].
Proof.
  intros Hrun.
  pose proof (scan_table fuel w w' Hrun) as Htab.
  destruct (scan_sound fuel w w' Hrun) as (Hn & _ & _ & Htm & _).
  split; [reflexivity|]. split; [reflexivity|].
  cbn [clearLogs targetTable panel timers log set_clock set_logArea set_targets
       set_markerLayer set_canvas].
  split; [exact Htab|]. split; [|split; [|exact Htm]].
  - rewrite Htab. destruct (targets w') as [|t ts]; [cbn in Hn; lia|].
    apply table_rows_nonempty.
  - destruct (scan_parts fuel w w' Hrun) as (w1 & w2 & Hloop & Hstat & ->).
    destruct (updateSystemStatus_spec (animateRadar (updateTable w1)))
      as (w2' & nw & k & nc & nt & Hs & Htg & Hp & _).
    rewrite Hstat in Hs. injection Hs as <-.
    cbn [panel targets log set_clock set_logArea]. rewrite Hp, Htg. reflexivity.
Qed.

Lemma clear_leaves_display_witness :
  targets (clearLogs sample) = [] /\ markerLayer (clearLogs sample) = []
  /\ targetTable (clearLogs sample) = table_rows (targets sample)
  /\ targetTable (clearLogs sample) <> ""%string
  /\ activeTargets (panel (clearLogs sample)) = JSString.of_nat (List.length (targets sample))
  /\ timers (clearLogs sample)
     = timers sample_start ++ [{| timer_id := next_timer sample_start; angle := 0 |}].
Proof.
  apply (clear_leaves_display 11 sample_start sample).
  vm_compute. reflexivity.
Defined.

Lemma scan_log fuel w w' :
  scan fuel w = Some w' ->
  logArea w'
  = logArea w
    ++ [ {| stamp := clock w; msg := [Text "Scanning environment..."] |};
         {| stamp := S (clock w);
            msg := [Text (JSString.of_nat (List.length (targets w'))
                          ++ " targets detected.")] |} ]
  /\ clock w' = S (S (clock w)).
Proof.
  intros Hrun. destruct (scan_parts fuel w w' Hrun) as (w1 & w2 & Hloop & Hstat & ->).
  destruct (scan_loop_detail _ _ _ _ Hloop) as (new & _ & _ & _ & _ & Hlog & Hclk & _).
  destruct (updateSystemStatus_keeps _ _ Hstat) as (_ & _ & _ & Hlog2 & Hclk2 & _).
  cbn [targets logArea clock log set_clock set_logArea set_targets set_markerLayer updateTable
       animateRadar set_targetTable set_timers set_next_timer] in *.
  rewrite Hlog2, Hclk2, Hlog, Hclk, <- app_assoc. split; reflexivity.
Qed.

(** X5.  A scan adds exactly two lines to the log, whatever it held: the
announcement first, and last the number of targets it detected. *)
Theorem scan_log_lines (fuel : nat) (w w' : world) :
  scan fuel w = Some w' ->
  logArea w'
  = logArea w
    ++ [ {| stamp := clock w; msg := [Text "Scanning environment..."] |};
         {| stamp := S (clock w);
            msg := [Text (JSString.of_nat (List.length (targets w'))
                          ++ " targets detected.")] |} ].
Proof. intros Hrun. apply (scan_log fuel w w' Hrun). Qed.

Lemma scan_log_lines_witness :
  logArea sample
  = logArea sample_start
    ++ [ {| stamp := clock sample_start; msg := [Text "Scanning environment..."] |};
         {| stamp := S (clock sample_start);
            msg := [Text (JSString.of_nat (List.length (targets sample))
                          ++ " targets detected.")] |} ].
Proof.
  apply (scan_log_lines 11 sample_start sample).
  vm_compute. reflexivity.
Defined.

(** The loop of [scan] seen from [scan]: its tests and its targets, by
the position of the random values in the sequence. *)
Lemma scan_draws fuel w w' :
  scan fuel w = Some w' ->
  let n := List.length (targets w') in
  (forall j, (j < n)%nat ->
     bound_test w (drawn w + 5 * j) (Z.of_nat j) = true
     /\ roll w (drawn w + 5 * j + 1) (Z.of_nat j) = nth_error (targets w') j)
  /\ bound_test w (drawn w + 5 * n) (Z.of_nat n) = false
  /\ drawn w' = (drawn w + 5 * n + 5)%nat.
Proof.
  intros Hrun. destruct (scan_parts fuel w w' Hrun) as (w1 & w2 & Hloop & Hstat & ->).
  destruct (scan_loop_detail _ _ _ _ Hloop)
    as (new & Htg & _ & Hdr & _ & _ & _ & Htests & Hlast).
  destruct (updateSystemStatus_keeps _ _ Hstat) as (Htg2 & _ & _ & _ & _ & _ & Hdr2 & _).
  cbn [targets drawn log set_clock set_logArea set_targets set_markerLayer updateTable
       animateRadar set_targetTable set_timers set_next_timer app] in *.
  rewrite Htg2, Htg, Hdr2, Hdr. cbv zeta.
  split; [|split; [exact Hlast | lia]].
  intros j Hj. destruct (Htests j Hj) as [Ht Hr]. split; [exact Ht | exact Hr].
Qed.

(** X6.  The number of targets of a scan is decided by two of the
random values it consumes, the 41st and the 46th: the bound of the loop
is drawn anew before every round, so the count is 8 when the test fails
at counter 8, 9 when it holds at 8 and fails at 9, and 10 otherwise.  A
scan consumes 5 * count + 5 random values in all. *)
Theorem scan_count_from_draws (fuel : nat) (w w' : world) :
  scan fuel w = Some w' ->
  List.length (targets w')
  = (if negb (bound_test w (drawn w + 40) 8) then 8
     else if negb (bound_test w (drawn w + 45) 9) then 9
     else 10)%nat
  /\ drawn w' = (drawn w + 5 * List.length (targets w') + 5)%nat.
Proof.
  intros Hrun. destruct (scan_sound fuel w w' Hrun) as (Hn & _).
  destruct (scan_draws fuel w w' Hrun) as (Htests & Hlast & Hdr). cbv zeta in *.
  split; [|exact Hdr].
  set (n := List.length (targets w')) in *.
  assert (Hcases : n = 8%nat \/ n = 9%nat \/ n = 10%nat) by lia.
  destruct Hcases as [E|[E|E]]; rewrite E in *.
  - change (drawn w + 5 * 8)%nat with (drawn w + 40)%nat in Hlast.
    change (Z.of_nat 8) with 8 in Hlast. rewrite Hlast. reflexivity.
  - destruct (Htests 8%nat ltac:(lia)) as [H8 _].
    change (drawn w + 5 * 8)%nat with (drawn w + 40)%nat in H8.
    change (Z.of_nat 8) with 8 in H8. rewrite H8.
    change (drawn w + 5 * 9)%nat with (drawn w + 45)%nat in Hlast.
    change (Z.of_nat 9) with 9 in Hlast. rewrite Hlast. reflexivity.
  - destruct (Htests 8%nat ltac:(lia)) as [H8 _].
    destruct (Htests 9%nat ltac:(lia)) as [H9 _].
    change (drawn w + 5 * 8)%nat with (drawn w + 40)%nat in H8.
    change (Z.of_nat 8) with 8 in H8. rewrite H8.
    change (drawn w + 5 * 9)%nat with (drawn w + 45)%nat in H9.
    change (Z.of_nat 9) with 9 in H9. rewrite H9. reflexivity.
Qed.

Lemma scan_count_from_draws_witness :
  List.length (targets sample)
  = (if negb (bound_test sample_start (drawn sample_start + 40) 8) then 8
     else if negb (bound_test sample_start (drawn sample_start + 45) 9) then 9
     else 10)%nat
  /\ drawn sample = (drawn sample_start + 5 * List.length (targets sample) + 5)%nat.
Proof.
  apply (scan_count_from_draws 11 sample_start sample).
  vm_compute. reflexivity.
Defined.

(** X7.  The targets of a scan are a function of the random sequence:
target number j + 1 is the object built from the four values that follow
the test of round j, with id j + 1. *)
Theorem scan_targets_from_draws (fuel : nat) (w w' : world) :
  scan fuel w = Some w' ->
  forall j, (j < List.length (targets w'))%nat ->
    nth_error (targets w') j = roll w (drawn w + 5 * j + 1) (Z.of_nat j).
Proof.
  intros Hrun j Hj. destruct (scan_draws fuel w w' Hrun) as (Htests & _).
  cbv zeta in Htests. destruct (Htests j Hj) as [_ Hr]. symmetry. exact Hr.
Qed.

Lemma scan_targets_from_draws_witness :
  nth_error (targets sample) 2
  = roll sample_start (drawn sample_start + 5 * 2 + 1) (Z.of_nat 2).
Proof.
  apply (scan_targets_from_draws 11 sample_start sample).
  - vm_compute. reflexivity.
  - vm_compute. lia.
Defined.

(** ** Timers *)

(** What [fire] does to the list: the first timer with the id is taken
out or moved on by 3 degrees, the others stay. *)
Lemma fire_split k : forall ts a ts',
  fire k ts = Some (a, ts') ->
  exists l1 l2,
    ts = l1 ++ {| timer_id := k; angle := a |} :: l2
    /\ Forall (fun t => timer_id t <> k) l1
    /\ ts' = l1 ++ (if 360 <=? a + 3 then []
                    else [{| timer_id := k; angle := a + 3 |}]) ++ l2.
Proof.
  induction ts as [|t ts IH]; intros a ts' Hf; [discriminate|].
  cbn [fire] in Hf. destruct (Nat.eqb_spec (timer_id t) k) as [He|Hne].
  - injection Hf as <- <-. exists [], ts. destruct t as [i a0]. cbn in He. subst i.
    cbn [app angle]. split; [reflexivity|]. split; [constructor|].
    destruct (360 <=? a0 + 3); reflexivity.
  - destruct (fire k ts) as [[a0 ts0]|] eqn:Hf0; [|discriminate].
    injection Hf as <- <-. destruct (IH _ _ eq_refl) as (l1 & l2 & -> & Hl1 & ->).
    exists (t :: l1), l2. split; [reflexivity|]. split; [constructor; assumption | reflexivity].
Qed.

Lemma fire_none k : forall ts, fire k ts = None -> angle_of k ts = None.
Proof.
  induction ts as [|t ts IH]; intros Hf; [reflexivity|].
  cbn [fire angle_of] in *. destruct (Nat.eqb (timer_id t) k); [discriminate|].
  destruct (fire k ts) as [[a0 ts0]|]; [discriminate|]. apply IH. reflexivity.
Qed.

Lemma angle_of_app k l1 l2 :
  Forall (fun t => timer_id t <> k) l1 -> angle_of k (l1 ++ l2) = angle_of k l2.
Proof.
  induction 1 as [|t l1 Ht _ IH]; [reflexivity|].
  cbn [app angle_of]. destruct (Nat.eqb_spec (timer_id t) k); [contradiction | exact IH].
Qed.

Lemma angle_of_absent k l :
  Forall (fun t => timer_id t <> k) l -> angle_of k l = None.
Proof.
  intros H. rewrite <- (app_nil_r l). rewrite angle_of_app by exact H. reflexivity.
Qed.

Lemma nodup_ids_split k a l1 l2 :
  NoDup (map timer_id (l1 ++ {| timer_id := k; angle := a |} :: l2)) ->
  Forall (fun t => timer_id t <> k) l2 /\ NoDup (map timer_id (l1 ++ l2)).
Proof.
  rewrite !map_app. cbn [map timer_id]. intros H.
  pose proof (NoDup_remove_1 _ _ _ H) as H1. pose proof (NoDup_remove_2 _ _ _ H) as H2.
  split; [|exact H1].
  apply Forall_forall. intros t Ht He. apply H2. apply in_or_app. right.
  rewrite <- He. apply in_map, Ht.
Qed.

(** A tick of timer [k] moves it on, or ends it at 360. *)
Lemma fire_same k ts a ts' :
  NoDup (map timer_id ts) -> fire k ts = Some (a, ts') ->
  angle_of k ts = Some a
  /\ angle_of k ts' = (if 360 <=? a + 3 then None else Some (a + 3))
  /\ NoDup (map timer_id ts').
Proof.
  intros Hnd Hf. destruct (fire_split k ts a ts' Hf) as (l1 & l2 & -> & Hl1 & ->).
  destruct (nodup_ids_split k a l1 l2 Hnd) as [Hl2 Hnd'].
  rewrite !angle_of_app by exact Hl1. cbn [angle_of timer_id angle].
  rewrite Nat.eqb_refl. split; [reflexivity|].
  destruct (360 <=? a + 3).
  - cbn [app]. split; [apply angle_of_absent, Hl2 | exact Hnd'].
  - cbn [app angle_of timer_id angle]. rewrite Nat.eqb_refl. split; [reflexivity|].
    rewrite map_app in *. cbn [map timer_id] in *. exact Hnd.
Qed.

(** A tick of another timer leaves timer [k] alone. *)
Lemma fire_other j k ts a ts' :
  j <> k -> fire j ts = Some (a, ts') -> angle_of k ts' = angle_of k ts.
Proof.
  intros Hjk Hf. revert a ts' Hf. induction ts as [|t ts IH]; intros a ts' Hf; [discriminate|].
  cbn [fire] in Hf. destruct (Nat.eqb_spec (timer_id t) j) as [He|Hne].
  - injection Hf as <- <-. cbn [angle_of].
    destruct (Nat.eqb_spec (timer_id t) k) as [Hk|Hk]; [lia|].
    destruct (360 <=? angle t + 3); [reflexivity|].
    cbn [angle_of timer_id]. destruct (Nat.eqb_spec j k); [contradiction | reflexivity].
  - destruct (fire j ts) as [[a0 ts0]|] eqn:Hf0; [|discriminate].
    injection Hf as <- <-. cbn [angle_of].
    destruct (Nat.eqb (timer_id t) k); [reflexivity|]. eapply IH. reflexivity.
Qed.

Lemma fire_nodup k ts a ts' :
  NoDup (map timer_id ts) -> fire k ts = Some (a, ts') -> NoDup (map timer_id ts').
Proof. intros Hnd Hf. apply (fire_same k ts a ts' Hnd Hf). Qed.

Lemma fire_angles k ts a ts' :
  Forall (fun t => sweep_angle (angle t)) ts -> fire k ts = Some (a, ts') ->
  Forall (fun t => sweep_angle (angle t)) ts'.
Proof.
  intros Hall Hf. destruct (fire_split k ts a ts' Hf) as (l1 & l2 & -> & _ & ->).
  apply Forall_app in Hall. destruct Hall as [H1 H2].
  inversion H2 as [|? ? Ha H2']; subst. cbn [angle] in Ha.
  apply Forall_app. split; [exact H1|]. apply Forall_app. split; [|exact H2'].
  destruct (Z.leb_spec 360 (a + 3)); [constructor|].
  constructor; [|constructor]. cbn [angle]. destruct Ha as [Ha1 Ha2].
  split; [lia|]. rewrite <- Zplus_mod_idemp_l, Ha2. reflexivity.
Qed.

Lemma timers_ok_append w :
  timers_ok w ->
  fresh_timers
    (set_next_timer (S (next_timer w))
       (set_timers (timers w ++ [{| timer_id := next_timer w; angle := 0 |}]) w))
  /\ NoDup (map timer_id (timers w ++ [{| timer_id := next_timer w; angle := 0 |}]))
  /\ Forall (fun t => sweep_angle (angle t))
       (timers w ++ [{| timer_id := next_timer w; angle := 0 |}]).
Proof.
  intros (Hfr & Hnd & Han). unfold fresh_timers in *.
  cbn [timers next_timer set_timers set_next_timer]. split; [|split].
  - apply Forall_app. split.
    + eapply Forall_impl; [|exact Hfr]. cbn. intros; lia.
    + constructor; [cbn; lia | constructor].
  - rewrite map_app. cbn [map timer_id]. apply NoDup_app; [exact Hnd | |].
    + constructor; [intros [] | constructor].
    + intros i Hi [<-|[]]. apply in_map_iff in Hi. destruct Hi as (t & Ht & Hin).
      rewrite Forall_forall in Hfr. specialize (Hfr t Hin). lia.
  - apply Forall_app. split; [exact Han|]. constructor; [|constructor].
    cbn [angle]. split; [lia | reflexivity].
Qed.

Lemma step_timers_ok fuel ev w w' :
  timers_ok w -> step fuel ev w = Some w' -> timers_ok w'.
Proof.
  intros Hok Hstep. pose proof Hok as (Hfr & Hnd & Han).
  assert (Hfr' : fresh_timers w') by (eapply step_fresh; eauto).
  split; [exact Hfr'|].
  assert (Hscan : forall w1, scan fuel w = Some w1 ->
            NoDup (map timer_id (timers w1))
            /\ Forall (fun t => sweep_angle (angle t)) (timers w1)).
  { intros w1 H. apply scan_sound in H. destruct H as (_ & _ & _ & -> & _).
    destruct (timers_ok_append w Hok) as (_ & H1 & H2). split; assumption. }
  assert (Han' : forall w1, analyze w = Some w1 ->
            NoDup (map timer_id (timers w1))
            /\ Forall (fun t => sweep_angle (angle t)) (timers w1)).
  { intros w1 H. apply analyze_frame in H. destruct H as (_ & -> & _). split; assumption. }
  assert (Hrep : NoDup (map timer_id (timers (generateReport w)))
                 /\ Forall (fun t => sweep_angle (angle t)) (timers (generateReport w))).
  { destruct (generateReport_frame w) as (_ & -> & _). split; assumption. }
  assert (Htick : forall k, NoDup (map timer_id (timers (tick k w)))
                 /\ Forall (fun t => sweep_angle (angle t)) (timers (tick k w))).
  { intros k. unfold tick. destruct (fire k (timers w)) as [[a ts]|] eqn:Hf.
    - cbn [timers set_timers set_canvas]. split.
      + eapply fire_nodup; eauto.
      + eapply fire_angles; eauto.
    - split; assumption. }
  destruct ev; cbn [step] in Hstep.
  - injection Hstep as <-. split; assumption.
  - destruct (executeCommand_cases fuel w) as [E|[E|[E|[E|E]]]]; rewrite E in Hstep.
    + apply Hscan, Hstep.
    + injection Hstep as <-. exact Hrep.
    + apply Han', Hstep.
    + injection Hstep as <-. split; assumption.
    + injection Hstep as <-. split; assumption.
  - apply Hscan, Hstep.
  - injection Hstep as <-. exact Hrep.
  - apply Han', Hstep.
  - injection Hstep as <-. split; assumption.
  - injection Hstep as <-. apply Htick.
Qed.

Lemma reachable_timers_ok w : reachable w -> timers_ok w.
Proof.
  induction 1 as [e|fuel ev w w' _ IH Hstep].
  - split; [constructor | split; constructor].
  - eapply step_timers_ok; eauto.
Qed.

(** X8.  In every reachable world the running intervals have distinct
ids, all handed out before, and each holds an angle that is a multiple of
3 from 0 to 357: a timer whose angle reached 360 is gone. *)
Theorem timers_hold_sweep_angles (w : world) :
  reachable w ->
  NoDup (map timer_id (timers w))
  /\ Forall (fun t => (timer_id t < next_timer w)%nat /\ sweep_angle (angle t)) (timers w).
Proof.
  intros Hr. destruct (reachable_timers_ok w Hr) as (Hfr & Hnd & Han).
  split; [exact Hnd|]. unfold fresh_timers in Hfr.
  rewrite Forall_forall in *. intros t Ht. split; [apply Hfr, Ht | apply Han, Ht].
Qed.

Lemma timers_hold_sweep_angles_witness :
  NoDup (map timer_id (timers (tick 0 (tick 0 sample))))
  /\ Forall (fun t => (timer_id t < next_timer (tick 0 (tick 0 sample)))%nat
                      /\ sweep_angle (angle t))
       (timers (tick 0 (tick 0 sample))).
Proof.
  apply (timers_hold_sweep_angles (tick 0 (tick 0 sample))).
  apply (reach_step 11 (Tick 0) (tick 0 sample) _).
  - apply (reach_step 11 (Tick 0) sample _).
    + apply (reach_step 11 Scan sample_start sample (reach_onload _)).
      vm_compute. reflexivity.
    + reflexivity.
  - reflexivity.
Defined.

Lemma step_angle fuel ev w w' k n :
  timers_ok w -> (k < next_timer w)%nat ->
  angle_of k (timers w) = swept n ->
  step fuel ev w = Some w' ->
  (k < next_timer w')%nat
  /\ angle_of k (timers w') = swept (n + (if is_tick k ev then 1 else 0)).
Proof.
  intros Hok Hk Hang Hstep. pose proof Hok as (Hfr & Hnd & Han).
  assert (Hsame : angle_of k (timers w) = swept (n + 0)) by (rewrite Nat.add_0_r; exact Hang).
  assert (Hscan : forall w1, scan fuel w = Some w1 ->
            (k < next_timer w1)%nat /\ angle_of k (timers w1) = swept (n + 0)).
  { intros w1 H. apply scan_sound in H. destruct H as (_ & _ & _ & -> & ->).
    split; [lia|]. rewrite <- Hsame.
    destruct (angle_of k (timers w)) as [a|] eqn:Ha.
    - clear - Ha. induction (timers w) as [|t ts IH]; [discriminate|].
      cbn [app angle_of] in *. destruct (Nat.eqb (timer_id t) k); [exact Ha | apply IH, Ha].
    - assert (Habs : Forall (fun t => timer_id t <> k) (timers w)).
      { clear - Ha. induction (timers w) as [|t ts IH]; [constructor|].
        cbn [angle_of] in Ha. destruct (Nat.eqb_spec (timer_id t) k); [discriminate|].
        constructor; [assumption | apply IH, Ha]. }
      rewrite angle_of_app by exact Habs. cbn [angle_of timer_id].
      destruct (Nat.eqb_spec (next_timer w) k); [lia | reflexivity]. }
  assert (Han' : forall w1, analyze w = Some w1 ->
            (k < next_timer w1)%nat /\ angle_of k (timers w1) = swept (n + 0)).
  { intros w1 H. apply analyze_frame in H. destruct H as (_ & -> & ->). split; assumption. }
  assert (Hrep : (k < next_timer (generateReport w))%nat
                 /\ angle_of k (timers (generateReport w)) = swept (n + 0)).
  { destruct (generateReport_frame w) as (_ & -> & ->). split; assumption. }
  destruct ev; cbn [step is_tick] in *.
  - injection Hstep as <-. split; assumption.
  - destruct (executeCommand_cases fuel w) as [E|[E|[E|[E|E]]]]; rewrite E in Hstep.
    + apply Hscan, Hstep.
    + injection Hstep as <-. exact Hrep.
    + apply Han', Hstep.
    + injection Hstep as <-. split; assumption.
    + injection Hstep as <-. split; assumption.
  - apply Hscan, Hstep.
  - injection Hstep as <-. exact Hrep.
  - apply Han', Hstep.
  - injection Hstep as <-. split; assumption.
  - injection Hstep as <-. destruct (tick_frame k0 w) as [_ ->]. split; [exact Hk|].
    unfold tick. destruct (fire k0 (timers w)) as [[a ts]|] eqn:Hf.
    + cbn [timers set_timers set_canvas].
      destruct (Nat.eqb_spec k0 k) as [->|Hne].
      * destruct (fire_same k (timers w) a ts Hnd Hf) as (Ha & Ha' & _).
        rewrite Ha' . rewrite Hang in Ha. unfold swept in *.
        destruct (Nat.ltb_spec n 120) as [Hlt|Hge]; [|discriminate].
        assert (Hval : a = 3 * Z.of_nat n) by congruence.
        destruct (Z.leb_spec 360 (a + 3)) as [H1|H1];
          destruct (Nat.ltb_spec (n + 1) 120) as [H2|H2]; try lia; [reflexivity|].
        f_equal. lia.
      * rewrite (fire_other k0 k _ _ _ Hne Hf). exact Hsame.
    + destruct (Nat.eqb_spec k0 k) as [->|Hne]; [|exact Hsame].
      apply fire_none in Hf. rewrite Hf in Hang. rewrite Hf. unfold swept in *.
      destruct (Nat.ltb_spec n 120) as [Hlt|Hge]; [discriminate|].
      destruct (Nat.ltb_spec (n + 1) 120); [lia | reflexivity].
Qed.

Lemma run_angle fuel k : forall evs w w' n,
  timers_ok w -> (k < next_timer w)%nat ->
  angle_of k (timers w) = swept n ->
  run fuel evs w = Some w' ->
  angle_of k (timers w') = swept (n + ticks_of k evs).
Proof.
  induction evs as [|ev evs IH]; intros w w' n Hok Hk Hang Hrun.
  - injection Hrun as <-. unfold ticks_of. cbn. rewrite Nat.add_0_r. exact Hang.
  - cbn [run] in Hrun. destruct (step fuel ev w) as [w1|] eqn:Hstep; [|discriminate].
    destruct (step_angle fuel ev w w1 k n Hok Hk Hang Hstep) as [Hk1 Hang1].
    pose proof (step_timers_ok fuel ev w w1 Hok Hstep) as Hok1.
    rewrite (IH w1 w' _ Hok1 Hk1 Hang1 Hrun).
    f_equal. unfold ticks_of. cbn [filter]. destruct (is_tick k ev); cbn [List.length]; lia.
Qed.

(** X9.  A sweep is paced by its own timer alone: whatever else happens
in between (other sweeps ticking, further scans, reports, analyses, even
a clear), after n of its ticks its angle is 3 * n, and it is gone from
the 120th tick on. *)
Theorem sweep_paced_by_own_ticks (fuel : nat) (evs : list event) (w w' : world) :
  reachable w ->
  run fuel evs (animateRadar w) = Some w' ->
  angle_of (next_timer w) (timers w') = swept (ticks_of (next_timer w) evs).
Proof.
  intros Hr Hrun. pose proof (reachable_timers_ok w Hr) as Hok.
  destruct (timers_ok_append w Hok) as (H1 & H2 & H3).
  assert (Hok1 : timers_ok (animateRadar w)) by (split; [exact H1 | split; assumption]).
  apply (run_angle fuel (next_timer w) evs (animateRadar w) w' 0 Hok1).
  - cbn. lia.
  - cbn [animateRadar timers set_timers set_next_timer].
    destruct Hok as (Hfr & _). rewrite angle_of_app by (apply fresh_absent, Hfr).
    cbn [angle_of timer_id angle]. rewrite Nat.eqb_refl. reflexivity.
  - exact Hrun.
Qed.

Lemma sweep_paced_by_own_ticks_witness :
  angle_of (next_timer sample)
    (timers (tick 0 (clearLogs (tick 1 (tick 0 (tick 1 (animateRadar sample)))))))
  = swept (ticks_of (next_timer sample) [Tick 1; Tick 0; Tick 1; Clear; Tick 0]).
Proof.
  apply (sweep_paced_by_own_ticks 11 [Tick 1; Tick 0; Tick 1; Clear; Tick 0] sample).
  - apply (reach_step 11 Scan sample_start sample (reach_onload _)).
    vm_compute. reflexivity.
  - reflexivity.
Defined.

(** ** The log *)

Lemma analyze_logs w w' :
  analyze w = Some w' -> exists m, w' = log m w.
Proof.
  unfold analyze. destruct (Nat.eqb _ _).
  - intros H. injection H as <-. eexists. reflexivity.
  - destruct (to_numbers _); [|discriminate].
    destruct (to_numbers _); [|discriminate].
    intros H. injection H as <-. eexists. reflexivity.
Qed.

Lemma generateReport_logs w :
  exists m, logArea (generateReport w) = logArea w ++ [{| stamp := clock w; msg := m |}]
            /\ clock (generateReport w) = S (clock w).
Proof.
  unfold generateReport. destruct (Nat.eqb _ _); eexists; split; reflexivity.
Qed.

Lemma tick_log k w : logArea (tick k w) = logArea w /\ clock (tick k w) = clock w.
Proof.
  unfold tick. destruct (fire k (timers w)) as [[a ts]|]; split; reflexivity.
Qed.

(** X10.  The log only grows, except by a clear: an event that does not
run [clearLogs()] keeps every line of the log and adds as many lines as
it reads the clock, at most two; one that runs [clearLogs()] leaves the
single line System reset. *)
Theorem log_grows_until_clear (fuel : nat) (ev : event) (w w' : world) :
  step fuel ev w = Some w' ->
  if is_clear_event w ev then
    logArea w' = [{| stamp := clock w; msg := [Text "System reset."] |}]
    /\ clock w' = S (clock w)
  else
    exists new, logArea w' = logArea w ++ new
                /\ clock w' = (clock w + List.length new)%nat
                /\ (List.length new <= 2)%nat.
Proof.
  intros Hstep.
  assert (Hscan : forall w1, scan fuel w = Some w1 ->
            exists new, logArea w1 = logArea w ++ new
                        /\ clock w1 = (clock w + List.length new)%nat
                        /\ (List.length new <= 2)%nat).
  { intros w1 H. destruct (scan_log fuel w w1 H) as [Hl Hc].
    eexists. split; [exact Hl|]. cbn [List.length]. split; lia. }
  assert (Han : forall w1, analyze w = Some w1 ->
            exists new, logArea w1 = logArea w ++ new
                        /\ clock w1 = (clock w + List.length new)%nat
                        /\ (List.length new <= 2)%nat).
  { intros w1 H. destruct (analyze_logs w w1 H) as [m ->].
    eexists. split; [reflexivity|]. cbn [List.length clock log set_clock set_logArea].
    split; lia. }
  assert (Hrep : exists new, logArea (generateReport w) = logArea w ++ new
                        /\ clock (generateReport w) = (clock w + List.length new)%nat
                        /\ (List.length new <= 2)%nat).
  { destruct (generateReport_logs w) as (m & Hl & Hc).
    eexists. split; [exact Hl|]. cbn [List.length]. split; lia. }
  assert (Hsame : forall w1, logArea w1 = logArea w -> clock w1 = clock w ->
            exists new, logArea w1 = logArea w ++ new
                        /\ clock w1 = (clock w + List.length new)%nat
                        /\ (List.length new <= 2)%nat).
  { intros w1 Hl Hc. exists []. rewrite app_nil_r. cbn [List.length]. repeat split; lia || assumption. }
  destruct ev; cbn [step is_clear_event] in *.
  - injection Hstep as <-. apply Hsame; reflexivity.
  - unfold executeCommand in Hstep.
    destruct (String.eqb (toLowerCase (commandInput w)) "scan") eqn:E1.
    + apply String.eqb_eq in E1. rewrite E1. cbn. apply Hscan, Hstep.
    + destruct (String.eqb (toLowerCase (commandInput w)) "report") eqn:E2.
      * apply String.eqb_eq in E2. rewrite E2. cbn. injection Hstep as <-. exact Hrep.
      * destruct (String.eqb (toLowerCase (commandInput w)) "analyze") eqn:E3.
        -- apply String.eqb_eq in E3. rewrite E3. cbn. apply Han, Hstep.
        -- destruct (String.eqb (toLowerCase (commandInput w)) "clear") eqn:E4.
           ++ injection Hstep as <-. split; reflexivity.
           ++ injection Hstep as <-. apply Hsame; reflexivity.
  - apply Hscan, Hstep.
  - injection Hstep as <-. exact Hrep.
  - apply Han, Hstep.
  - injection Hstep as <-. split; reflexivity.
  - injection Hstep as <-. destruct (tick_log k w) as [Hl Hc]. apply Hsame; assumption.
Qed.

Lemma log_grows_until_clear_witness :
  exists new, logArea sample = logArea sample_start ++ new
              /\ clock sample = (clock sample_start + List.length new)%nat
              /\ (List.length new <= 2)%nat.
Proof.
  apply (log_grows_until_clear 11 Scan sample_start sample).
  vm_compute. reflexivity.
Defined.

(** ** The store *)

Lemma step_store fuel ev w w' :
  store_ok (targets w) -> step fuel ev w = Some w' -> store_ok (targets w').
Proof.
  intros Hok Hstep.
  assert (Hscan : forall w1, scan fuel w = Some w1 -> store_ok (targets w1)).
  { intros w1 H. destruct (scan_sound fuel w w1 H) as (Hn & Hid & _).
    right. split; assumption. }
  assert (Han : forall w1, analyze w = Some w1 -> store_ok (targets w1)).
  { intros w1 H. apply analyze_frame in H. destruct H as (-> & _). exact Hok. }
  assert (Hrep : store_ok (targets (generateReport w))).
  { destruct (generateReport_frame w) as (-> & _). exact Hok. }
  destruct ev; cbn [step] in Hstep.
  - injection Hstep as <-. exact Hok.
  - destruct (executeCommand_cases fuel w) as [E|[E|[E|[E|E]]]]; rewrite E in Hstep.
    + apply Hscan, Hstep.
    + injection Hstep as <-. exact Hrep.
    + apply Han, Hstep.
    + injection Hstep as <-. left. reflexivity.
    + injection Hstep as <-. exact Hok.
  - apply Hscan, Hstep.
  - injection Hstep as <-. exact Hrep.
  - apply Han, Hstep.
  - injection Hstep as <-. left. reflexivity.
  - injection Hstep as <-. destruct (tick_frame k w) as [-> _]. exact Hok.
Qed.

Lemma reachable_store w : reachable w -> store_ok (targets w).
Proof.
  induction 1 as [e|fuel ev w w' _ IH Hstep].
  - left. reflexivity.
  - eapply step_store; eauto.
Qed.

(** X11.  At every moment the store is empty or holds the 8 to 10
targets of one scan, with the ids 1, 2, ... in order: no sequence of
events leaves a partial or a mixed list. *)
Theorem store_empty_or_one_scan (w : world) :
  reachable w -> store_ok (targets w).
Proof. apply reachable_store. Qed.

Lemma store_empty_or_one_scan_witness :
  store_ok (targets (generateReport sample)).
Proof.
  apply (store_empty_or_one_scan (generateReport sample)).
  apply (reach_step 11 Report sample _).
  - apply (reach_step 11 Scan sample_start sample (reach_onload _)).
    vm_compute. reflexivity.
  - reflexivity.
Defined.

(** ** The fields of the report *)

Lemma count_char_app c a b :
  count_char c (a ++ b)%string = (count_char c a + count_char c b)%nat.
Proof.
  induction a as [|x a IH]; [reflexivity|].
  cbn [append count_char]. rewrite IH. lia.
Qed.

Lemma count_char_digits c s :
  is_digit c = false -> all_digits s = true -> count_char c s = 0%nat.
Proof.
  intros Hc. induction s as [|x s IH]; intros H; [reflexivity|].
  cbn [all_digits] in H. apply andb_true_iff in H. destruct H as [Hx Hs].
  cbn [count_char]. rewrite (IH Hs).
  destruct (Ascii.eqb_spec x c) as [->|_]; [congruence | reflexivity].
Qed.

Lemma no_comma_of_Z z : count_char "," (JSString.of_Z z) = 0%nat.
Proof.
  unfold JSString.of_Z. destruct (z <? 0)%Z.
  - rewrite count_char_app. cbn [count_char Ascii.eqb Bool.eqb].
    rewrite count_char_digits; [reflexivity | reflexivity | apply of_N_digits].
  - apply count_char_digits; [reflexivity | apply of_N_digits].
Qed.

Lemma no_comma_fixed1 n : count_char "," (fixed1 n) = 0%nat.
Proof.
  unfold fixed1. rewrite !count_char_app, !no_comma_of_Z. reflexivity.
Qed.

Lemma commas_row t : wf_target t -> count_char "," (csv_row t) = 2%nat.
Proof.
  intros [(nd & _ & Hd) (nv & _ & Hv)]. unfold csv_row.
  rewrite !count_char_app, Hd, Hv, !no_comma_fixed1, no_comma_of_Z. reflexivity.
Qed.

(** X12.  Every line of a report written in a reachable world has
exactly three fields: the header and each data row hold two commas,
since neither an id nor a stored distance or velocity holds one. *)
Theorem report_lines_have_three_fields (w : world) :
  reachable w ->
  Forall (fun l => count_char "," l = 2%nat) (split_lines (csv_text (targets w))).
Proof.
  intros Hr. pose proof (reachable_wf w Hr) as Hwf.
  rewrite (split_lines_csv _ Hwf). constructor; [reflexivity|].
  rewrite Forall_forall in *. intros l Hl. apply in_map_iff in Hl.
  destruct Hl as (t & <- & Ht). apply commas_row, Hwf, Ht.
Qed.

Lemma report_lines_have_three_fields_witness :
  Forall (fun l => count_char "," l = 2%nat) (split_lines (csv_text (targets sample))).
Proof.
  apply (report_lines_have_three_fields sample).
  apply (reach_step 11 Scan sample_start sample (reach_onload _)).
  vm_compute. reflexivity.
Defined.

(** ** Rounding to one fraction digit *)

Lemma tenths_nearest m e :
  -1074 <= e -> nearest_tenth (S754_finite false m e) (tenths m e).
Proof.
  pose proof scale_val as Hscale.
  intros He. unfold nearest_tenth, tenths. cbn [sval]. unfold scaled.
  destruct (Z.leb_spec 0 e) as [Hpos|Hneg].
  - rewrite (pow2_add e scale) by lia.
    assert (H1 : 0 < 2 ^ e) by (apply pow2_pos; lia).
    pose proof pow2_scale_pos as H2.
    set (S := 2 ^ scale) in *. set (E := 2 ^ e) in *. clearbody S E. nia.
  - assert (HQ : 0 < 2 ^ (- e)) by (apply pow2_pos; lia).
    assert (HP : 0 < 2 ^ (e + scale)) by (apply pow2_pos; lia).
    assert (HS : 2 ^ scale = 2 ^ (- e) * 2 ^ (e + scale)).
    { rewrite <- (pow2_add (- e) (e + scale)) by lia. f_equal. lia. }
    replace (1 - e) with (- e + 1) by lia. rewrite pow2_succ by lia.
    rewrite HS.
    set (Q := 2 ^ (- e)) in *. set (P := 2 ^ (e + scale)) in *. clearbody Q P.
    set (N := 20 * Z.pos m + Q).
    assert (Hlo : 2 * Q * (N / (2 * Q)) <= N) by (apply Z.mul_div_le; lia).
    assert (Hhi : N < 2 * Q * Z.succ (N / (2 * Q))) by (apply Z.mul_succ_div_gt; lia).
    set (n := N / (2 * Q)) in *. clearbody n. unfold N in *. clear N. nia.
Qed.

Lemma toFixed1_nearest x U :
  nonneg x = true -> sval x <= U * 2 ^ scale -> U < 10 ^ 21 ->
  exists n, toFixed1 x = Some (fixed1 n) /\ nearest_tenth x n.
Proof.
  intros Hn Hhi HU. pose proof pow2_scale_pos as HS.
  destruct x as [[|]|[|]| |[|] m e]; try discriminate.
  - exists 0. split; [reflexivity|]. unfold nearest_tenth. cbn [sval]. lia.
  - cbn [nonneg] in Hn. apply Z.leb_le in Hn. cbn [sval] in Hhi.
    exists (tenths m e). split.
    + cbn [toFixed1]. rewrite (not_huge m e U Hn Hhi HU). reflexivity.
    + apply tenths_nearest, Hn.
Qed.

Lemma toFixed1_mul_nearest r c :
  is_unit r = true -> 0 < c < 2 ^ 53 ->
  exists n, toFixed1 (mul r (JSNumber.of_Z c)) = Some (fixed1 n)
            /\ nearest_tenth (mul r (JSNumber.of_Z c)) n.
Proof.
  intros Hr Hc. destruct (mul_unit_const r c Hr Hc) as (_ & Hn & Hs).
  assert (Hc21 : c < 10 ^ 21).
  { assert (2 ^ 53 < 10 ^ 21) by reflexivity. lia. }
  apply (toFixed1_nearest _ c Hn); [lia | exact Hc21].
Qed.

(** X13.  The object literal of the loop of [scan] always yields a
target, and what it stores as distance and velocity are the decimals
with one fraction digit nearest to the products of the random values
with 200 and with 400 (the larger decimal when two are equally near). *)
Theorem stored_strings_are_nearest_tenths (w : world) (d : nat) (i : Z) :
  exists t nd nv,
    roll w d i = Some t
    /\ distance t = fixed1 nd
    /\ nearest_tenth (mul (ud_value (entropy w d)) (JSNumber.of_Z 200)) nd
    /\ velocity t = fixed1 nv
    /\ nearest_tenth (mul (ud_value (entropy w (S d))) (JSNumber.of_Z 400)) nv.
Proof.
  assert (H200 : 0 < 200 < 2 ^ 53) by (split; reflexivity).
  assert (H400 : 0 < 400 < 2 ^ 53) by (split; reflexivity).
  destruct (toFixed1_mul_nearest _ 200 (unit_draw w d) H200) as (nd & Hd & Hnd).
  destruct (toFixed1_mul_nearest _ 400 (unit_draw w (S d)) H400) as (nv & Hv & Hnv).
  unfold roll. rewrite Hd, Hv. eexists. exists nd, nv.
  split; [reflexivity|]. cbn [distance velocity].
  split; [reflexivity|]. split; [exact Hnd|]. split; [reflexivity | exact Hnv].
Qed.

(** ** What only a scan changes *)

Lemma analyze_display w w' :
  analyze w = Some w' ->
  panel w' = panel w /\ targetTable w' = targetTable w /\ drawn w' = drawn w
  /\ next_timer w' = next_timer w /\ canvas w' = canvas w.
Proof.
  intros H. destruct (analyze_logs w w' H) as [m ->]. repeat split; reflexivity.
Qed.

Lemma generateReport_display w :
  panel (generateReport w) = panel w /\ targetTable (generateReport w) = targetTable w
  /\ drawn (generateReport w) = drawn w
  /\ next_timer (generateReport w) = next_timer w.
Proof.
  unfold generateReport. destruct (Nat.eqb _ _); repeat split; reflexivity.
Qed.

Lemma tick_display k w :
  panel (tick k w) = panel w /\ targetTable (tick k w) = targetTable w
  /\ drawn (tick k w) = drawn w /\ next_timer (tick k w) = next_timer w.
Proof.
  unfold tick. destruct (fire k (timers w)) as [[a ts]|]; repeat split; reflexivity.
Qed.

(** X14.  Only a scan writes the table and the status panel, draws
random values or starts a sweep: every other event leaves the table
body, the five status fields, the position in the random sequence and
the count of intervals as they were. *)
Theorem only_scan_updates_display (w w' : world) :
  quiet_step w w' ->
  targetTable w' = targetTable w /\ panel w' = panel w
  /\ drawn w' = drawn w /\ next_timer w' = next_timer w.
Proof.
  intros (fuel & ev & Hq & Hstep).
  assert (Han : forall w1, analyze w = Some w1 ->
            targetTable w1 = targetTable w /\ panel w1 = panel w
            /\ drawn w1 = drawn w /\ next_timer w1 = next_timer w).
  { intros w1 H. destruct (analyze_display w w1 H) as (H1 & H2 & H3 & H4 & _).
    repeat split; assumption. }
  assert (Hrep : targetTable (generateReport w) = targetTable w
                 /\ panel (generateReport w) = panel w
                 /\ drawn (generateReport w) = drawn w
                 /\ next_timer (generateReport w) = next_timer w).
  { destruct (generateReport_display w) as (H1 & H2 & H3 & H4). repeat split; assumption. }
  destruct ev; cbn [step is_scan_event] in *; try discriminate.
  - injection Hstep as <-. repeat split; reflexivity.
  - unfold executeCommand in Hstep. rewrite Hq in Hstep.
    destruct (String.eqb _ "report").
    + injection Hstep as <-. exact Hrep.
    + destruct (String.eqb _ "analyze").
      * apply Han, Hstep.
      * destruct (String.eqb _ "clear"); injection Hstep as <-; repeat split; reflexivity.
  - injection Hstep as <-. exact Hrep.
  - apply Han, Hstep.
  - injection Hstep as <-. repeat split; reflexivity.
  - injection Hstep as <-. destruct (tick_display k w) as (H1 & H2 & H3 & H4).
    repeat split; assumption.
Qed.

Lemma only_scan_updates_display_witness :
  targetTable (clearLogs sample) = targetTable sample
  /\ panel (clearLogs sample) = panel sample
  /\ drawn (clearLogs sample) = drawn sample
  /\ next_timer (clearLogs sample) = next_timer sample.
Proof.
  apply (only_scan_updates_display sample (clearLogs sample)).
  exists 11%nat, Clear. split; reflexivity.
Defined.

(** ** Files and alerts *)

Lemma scan_loop_files fuel : forall i w w',
  scan_loop fuel i w = Some w' ->
  downloads w' = downloads w /\ alerts w' = alerts w.
Proof.
  induction fuel as [|fuel IH]; intros i w w' Hrun; [discriminate|].
  cbn [scan_loop] in Hrun. unfold Math_random in Hrun. cbv beta iota zeta in Hrun.
  cbn [entropy drawn set_drawn] in Hrun.
  destruct (ltb _ _) in Hrun.
  - destruct (toFixed1 _) in Hrun; [|discriminate].
    destruct (toFixed1 _) in Hrun; [|discriminate].
    apply IH in Hrun. exact Hrun.
  - injection Hrun as <-. split; reflexivity.
Qed.

Lemma updateSystemStatus_files w w' :
  updateSystemStatus w = Some w' ->
  downloads w' = downloads w /\ alerts w' = alerts w.
Proof.
  unfold updateSystemStatus, Math_random. cbv beta iota zeta.
  cbn [entropy drawn set_drawn targets].
  destruct (toFixed1 _); [|discriminate].
  destruct (toFixed1 _); [|discriminate].
  destruct (toFixed1 _); [|discriminate].
  intros H. injection H as <-. split; reflexivity.
Qed.

Lemma scan_files fuel w w' :
  scan fuel w = Some w' -> downloads w' = downloads w /\ alerts w' = alerts w.
Proof.
  intros Hrun. destruct (scan_parts fuel w w' Hrun) as (w1 & w2 & Hloop & Hstat & ->).
  destruct (scan_loop_files _ _ _ _ Hloop) as [Hd1 Ha1].
  destruct (updateSystemStatus_files _ _ Hstat) as [Hd2 Ha2].
  cbn [downloads alerts log set_clock set_logArea set_targets set_markerLayer updateTable
       animateRadar set_targetTable set_timers set_next_timer] in *.
  rewrite Hd2, Ha2, Hd1, Ha1. split; reflexivity.
Qed.

Lemma generateReport_files w :
  Forall wf_target (targets w) -> store_ok (targets w) ->
  alerts (generateReport w) = alerts w
  /\ (downloads (generateReport w) = downloads w
      \/ exists f, report_file f /\ downloads (generateReport w) = downloads w ++ [f]).
Proof.
  intros Hwf Hok. unfold generateReport.
  destruct (Nat.eqb_spec (List.length (targets w)) 0) as [Hz|Hnz].
  - split; [reflexivity | left; reflexivity].
  - split; [reflexivity|]. right. eexists. split; [|reflexivity].
    unfold report_file. cbn [filename mime content].
    rewrite (split_lines_csv _ Hwf). cbn [hd_error List.length]. rewrite length_map.
    destruct Hok as [He|[Hn _]]; [rewrite He in Hnz; cbn in Hnz; lia|].
    repeat split; lia.
Qed.

Lemma step_files fuel ev w w' :
  Forall wf_target (targets w) -> store_ok (targets w) ->
  Forall report_file (downloads w) /\ Forall (fun a => a = help_text) (alerts w) ->
  step fuel ev w = Some w' ->
  Forall report_file (downloads w') /\ Forall (fun a => a = help_text) (alerts w').
Proof.
  intros Hwf Hok [Hd Ha] Hstep.
  assert (Hscan : forall w1, scan fuel w = Some w1 ->
            Forall report_file (downloads w1) /\ Forall (fun a => a = help_text) (alerts w1)).
  { intros w1 H. destruct (scan_files fuel w w1 H) as [-> ->]. split; assumption. }
  assert (Han : forall w1, analyze w = Some w1 ->
            Forall report_file (downloads w1) /\ Forall (fun a => a = help_text) (alerts w1)).
  { intros w1 H. destruct (analyze_logs w w1 H) as [m ->]. split; assumption. }
  assert (Hrep : Forall report_file (downloads (generateReport w))
                 /\ Forall (fun a => a = help_text) (alerts (generateReport w))).
  { destruct (generateReport_files w Hwf Hok) as [-> [->|(f & Hf & ->)]].
    - split; assumption.
    - split; [|exact Ha]. apply Forall_app. split; [exact Hd|]. constructor; [exact Hf|constructor]. }
  assert (Hhelp : Forall report_file (downloads (showHelp w))
                  /\ Forall (fun a => a = help_text) (alerts (showHelp w))).
  { split; [exact Hd|]. cbn [showHelp alerts set_alerts]. apply Forall_app.
    split; [exact Ha|]. constructor; [reflexivity|constructor]. }
  destruct ev; cbn [step] in Hstep.
  - injection Hstep as <-. split; assumption.
  - destruct (executeCommand_cases fuel w) as [E|[E|[E|[E|E]]]]; rewrite E in Hstep.
    + apply Hscan, Hstep.
    + injection Hstep as <-. exact Hrep.
    + apply Han, Hstep.
    + injection Hstep as <-. split; assumption.
    + injection Hstep as <-. exact Hhelp.
  - apply Hscan, Hstep.
  - injection Hstep as <-. exact Hrep.
  - apply Han, Hstep.
  - injection Hstep as <-. split; assumption.
  - injection Hstep as <-. unfold tick.
    destruct (fire k (timers w)) as [[a ts]|]; split; assumption.
Qed.

(** X15.  Every file the page has offered is named radar_report.csv, of
type text/csv, starts with the header line and has 9 to 11 lines: a
report is only written from the full store of one scan.  Every alert
shown is the help text. *)
Theorem files_and_alerts (w : world) :
  reachable w ->
  Forall report_file (downloads w) /\ Forall (fun a => a = help_text) (alerts w).
Proof.
  induction 1 as [e|fuel ev w w' Hr IH Hstep].
  - split; constructor.
  - apply (step_files fuel ev w w' (reachable_wf w Hr) (reachable_store w Hr) IH Hstep).
Qed.

Lemma files_and_alerts_witness :
  Forall report_file (downloads (generateReport sample))
  /\ Forall (fun a => a = help_text) (alerts (generateReport sample)).
Proof.
  apply (files_and_alerts (generateReport sample)).
  apply (reach_step 11 Report sample _).
  - apply (reach_step 11 Scan sample_start sample (reach_onload _)).
    vm_compute. reflexivity.
  - reflexivity.
Defined.
